(** * Chat-filter invite links: the list controllers of edit_filter_links.cpp

    A shallow embedding of the controllers, helpers and dialog builders of
    [Telegram/SourceFiles/boxes/filters/edit_filter_links.cpp], and the
    properties of them that the specification states.

    Conventions.
    - [uint64] values are [Z] in [0, 2^64) with the wrap-around written out.
    - A [QString] is its sequence of UTF-16 code units.
    - [not_null<PeerData*>] and [not_null<History*>] are modelled by the
      object they point to (the objects are never mutated here).
    - [Expects(...)] and [Unexpected(...)] terminate the program: functions
      containing them return a [Result].
    - The texts of the language pack and the value of the Community flag
      are declared outside this file: they are the interfaces [Lang] and
      [FilterFlags]. *)

From Stdlib Require Import ZArith List Bool String.
From stdpp Require Import base gmap sets list.
Import ListNotations.
Local Open Scope Z_scope.
#[local] Set Warnings "-clear-no-such-hyp".

(** ** Fatal conditions *)

Inductive Fault :=
| ExpectsFailed (condition : string)
| UnexpectedValue (what : string)
| LoopBudget.

Inductive Result (A : Type) :=
| Ok (a : A)
| Fatal (f : Fault).
Arguments Ok {A} a.
Arguments Fatal {A} f.

#[global] Instance Result_ret : MRet Result := fun A a => Ok a.
#[global] Instance Result_bind : MBind Result := fun A B k r =>
  match r with
  | Ok a => k a
  | Fatal f => Fatal f
  end.

Definition Expects (b : bool) (condition : string) : Result unit :=
  if b then Ok tt else Fatal (ExpectsFailed condition).

Definition is_Ok {A} (r : Result A) : bool :=
  match r with Ok _ => true | Fatal _ => false end.

(** ** Strings *)

(** A UTF-16 code unit ([ushort]). *)
Definition QChar := Z.
Definition QString := list QChar.

Definition isEmpty (s : QString) : bool :=
  match s with [] => true | _ => false end.

(** A literal [u"..."_q] whose characters are all in Latin-1. *)
Fixpoint qs (s : string) : QString :=
  match s with
  | EmptyString => []
  | String c rest => Z.of_nat (Ascii.nat_of_ascii c) :: qs rest
  end.

(** The bytes at [link.data()]: [link.size() * sizeof(ushort)] bytes, each
    code unit stored low byte first (the layout of the supported hosts). *)
Fixpoint utf16_bytes (s : QString) : list Z :=
  match s with
  | [] => []
  | c :: rest => Z.land c 255 :: Z.land (Z.shiftr c 8) 255 :: utf16_bytes rest
  end.

(** ** XXH64

    [XXH64] is the function of the xxHash library that the file takes from
    <xxhash.h>. It is written here after the library's algorithm, on the
    byte sequence and the seed, and checked below against the library's
    published values. *)

Module XXH.

Definition wrap64 (x : Z) : Z := x mod 2 ^ 64.

Definition PRIME64_1 : Z := 0x9E3779B185EBCA87.
Definition PRIME64_2 : Z := 0xC2B2AE3D27D4EB4F.
Definition PRIME64_3 : Z := 0x165667B19E3779F9.
Definition PRIME64_4 : Z := 0x85EBCA77C2B2AE63.
Definition PRIME64_5 : Z := 0x27D4EB2F165667C5.

Definition rotl64 (x r : Z) : Z :=
  Z.lor (wrap64 (Z.shiftl x r)) (Z.shiftr x (64 - r)).

(** Little-endian read of the first [n] bytes of [p]. *)
Fixpoint readLE (n : nat) (p : list Z) : Z :=
  match n, p with
  | S n', b :: p' => Z.lor b (Z.shiftl (readLE n' p') 8)
  | _, _ => 0
  end.

Definition round (acc input : Z) : Z :=
  let acc := wrap64 (acc + input * PRIME64_2) in
  let acc := rotl64 acc 31 in
  wrap64 (acc * PRIME64_1).

Definition mergeRound (acc val : Z) : Z :=
  let val := round 0 val in
  let acc := Z.lxor acc val in
  wrap64 (acc * PRIME64_1 + PRIME64_4).

Definition avalanche (h : Z) : Z :=
  let h := Z.lxor h (Z.shiftr h 33) in
  let h := wrap64 (h * PRIME64_2) in
  let h := Z.lxor h (Z.shiftr h 29) in
  let h := wrap64 (h * PRIME64_3) in
  Z.lxor h (Z.shiftr h 32).

(** The main loop: one 32-byte stripe per iteration, [n] stripes. *)
Fixpoint stripes (n : nat) (p : list Z) (v : Z * Z * Z * Z)
  : list Z * (Z * Z * Z * Z) :=
  match n with
  | O => (p, v)
  | S n' =>
      let '(v1, v2, v3, v4) := v in
      let v1 := round v1 (readLE 8 p) in
      let v2 := round v2 (readLE 8 (drop 8 p)) in
      let v3 := round v3 (readLE 8 (drop 16 p)) in
      let v4 := round v4 (readLE 8 (drop 24 p)) in
      stripes n' (drop 32 p) (v1, v2, v3, v4)
  end.

(** The tail: 8-byte lanes, then one 4-byte lane, then single bytes. *)
Fixpoint tail8 (n : nat) (p : list Z) (h : Z) : list Z * Z :=
  match n with
  | O => (p, h)
  | S n' =>
      let k1 := round 0 (readLE 8 p) in
      let h := Z.lxor h k1 in
      let h := wrap64 (rotl64 h 27 * PRIME64_1 + PRIME64_4) in
      tail8 n' (drop 8 p) h
  end.

Definition tail4 (p : list Z) (h : Z) : list Z * Z :=
  if (4 <=? length p)%nat then
    let h := Z.lxor h (wrap64 (readLE 4 p * PRIME64_1)) in
    (drop 4 p, wrap64 (rotl64 h 23 * PRIME64_2 + PRIME64_3))
  else (p, h).

Fixpoint tail1 (p : list Z) (h : Z) : Z :=
  match p with
  | [] => h
  | b :: p' =>
      let h := Z.lxor h (wrap64 (b * PRIME64_5)) in
      tail1 p' (wrap64 (rotl64 h 11 * PRIME64_1))
  end.

Definition finalize (p : list Z) (h : Z) : Z :=
  let '(p, h) := tail8 (length p / 8) p h in
  let '(p, h) := tail4 p h in
  avalanche (tail1 p h).

Definition XXH64 (input : list Z) (seed : Z) : Z :=
  let len := length input in
  let '(p, h) :=
    if (32 <=? len)%nat then
      let v1 := wrap64 (seed + PRIME64_1 + PRIME64_2) in
      let v2 := wrap64 (seed + PRIME64_2) in
      let v3 := seed in
      let v4 := wrap64 (seed - PRIME64_1) in
      let '(p, (v1, v2, v3, v4)) := stripes (len / 32) input (v1, v2, v3, v4) in
      let h := wrap64 (rotl64 v1 1 + rotl64 v2 7 + rotl64 v3 12 + rotl64 v4 18) in
      let h := mergeRound h v1 in
      let h := mergeRound h v2 in
      let h := mergeRound h v3 in
      let h := mergeRound h v4 in
      (p, h)
    else (input, wrap64 (seed + PRIME64_5)) in
  finalize p (wrap64 (h + Z.of_nat len)).

End XXH.

(** ** Translated phrases

    The phrases of lang_keys.h. The texts themselves belong to the language
    pack, so they are taken as an interface: [tr k] is [tr::k(tr::now)] and
    [tr_count k n] is [tr::k(tr::now, lt_count, n)]. *)

Inductive LangKey :=
| lng_filters_link_bot_status
| lng_filters_link_bot_error
| lng_filters_link_private_status
| lng_filters_link_private_error
| lng_filters_link_noadmin_status
| lng_filters_link_noadmin_group_error
| lng_filters_link_noadmin_channel_error
| lng_filters_empty
| lng_filters_link_cant
| lng_filters_chats_count
| lng_settings_save
| lng_cancel
| lng_about_done.

Class Lang := {
  tr : LangKey -> QString;
  tr_count : LangKey -> nat -> QString;
}.

(** ** Peers, histories, filters and links

    The classes of data/data_user.h, data_chat.h, data_channel.h, history.h
    and data_chat_filters.h, by the members this file reads. *)

Module UserData.
Record t := { isBot : bool }.
End UserData.

Module ChatData.
Record t := { canHaveInviteLink : bool }.
End ChatData.

Module ChannelData.
Record t := { canHaveInviteLink : bool; isMegagroup : bool }.
End ChannelData.

Module PeerData.
(** What the peer object is, as [asUser], [asChat] and [asChannel] see it.
    [Other] is an object for which all three casts return null. *)
Inductive Kind :=
| User (user : UserData.t)
| Chat (chat : ChatData.t)
| Channel (channel : ChannelData.t)
| Other.

(** [id] is [peer->id.value]. *)
Record t := { id : Z; kind : Kind }.

Definition asUser (peer : t) : option UserData.t :=
  match kind peer with User user => Some user | _ => None end.
Definition asChat (peer : t) : option ChatData.t :=
  match kind peer with Chat chat => Some chat | _ => None end.
Definition asChannel (peer : t) : option ChannelData.t :=
  match kind peer with Channel channel => Some channel | _ => None end.
End PeerData.

Module History.
Record t := { peer : PeerData.t }.
End History.

Definition FilterId := Z.

(** [Data::ChatFilterLink], called [InviteLinkData] in this file. *)
Module InviteLinkData.
Record t := {
  id : FilterId;
  url : QString;
  title : QString;
  chats : list History.t;
}.
End InviteLinkData.

(** [Data::ChatFilter]. The flat sets [always()] and [never()] are given by
    their elements in iteration order; [flags()] is the bit mask. *)
Module ChatFilter.
Record t := {
  id : FilterId;
  title : QString;
  always : list History.t;
  never : list History.t;
  flags : Z;
}.
End ChatFilter.

(** The value of [Data::ChatFilter::Flag::Community], declared in
    data_chat_filters.h. *)
Class FilterFlags := { Flag_Community : Z }.

(** ** Effects on the host: toasts, list notifications, requests, boxes *)

Inductive Request :=
| MTPcommunities_EditExportedInvite
    (filter : FilterId) (slug : QString) (peers : list PeerData.t).

Inductive Event :=
| ShowMultilineToast (text : QString)
| PeerListUpdateRow (rowId : Z)
| PeerListRefreshRows
| PeerListSetAboveWidget (withLinkBlock : bool)
| PeerListSetBelowWidget
| SendRequest (request : Request)
| CloseBox.

(** ** ErrorForSharing *)

Record Errors := { status : QString; toast : QString }.

Definition ErrorForSharing `{Lang} (history : History.t)
  : Result (option Errors) :=
  let result status toast := {| status := status; toast := toast |} in
  let peer := History.peer history in
  match PeerData.asUser peer with
  | Some user =>
      Ok (Some (if UserData.isBot user
                then result (tr lng_filters_link_bot_status)
                            (tr lng_filters_link_bot_error)
                else result (tr lng_filters_link_private_status)
                            (tr lng_filters_link_private_error)))
  | None =>
      match PeerData.asChat peer with
      | Some chat =>
          if negb (ChatData.canHaveInviteLink chat) then
            Ok (Some (result (tr lng_filters_link_noadmin_status)
                             (tr lng_filters_link_noadmin_group_error)))
          else Ok None
      | None =>
          match PeerData.asChannel peer with
          | Some channel =>
              if negb (ChannelData.canHaveInviteLink channel) then
                Ok (Some (result
                  (tr lng_filters_link_noadmin_status)
                  (if ChannelData.isMegagroup channel
                   then tr lng_filters_link_noadmin_group_error
                   else tr lng_filters_link_noadmin_channel_error)))
              else Ok None
          | None => Fatal (UnexpectedValue "Peer type in ErrorForSharing.")
          end
      end
  end.

Definition ShowEmptyLinkError `{Lang} : list Event :=
  [ShowMultilineToast (tr lng_filters_empty)].

(** ** Rows of the links list *)

Inductive Color := Permanent.

Definition ComputeRowId (link : QString) : Z :=
  XXH.XXH64 (utf16_bytes link) 0.

Definition ComputeRowId_data (data : InviteLinkData.t) : Z :=
  ComputeRowId (InviteLinkData.url data).

Definition ComputeColor (link : InviteLinkData.t) : Color := Permanent.

Definition ComputeStatus `{Lang} (link : InviteLinkData.t) : QString :=
  tr_count lng_filters_chats_count (length (InviteLinkData.chats link)).

(** [s.startsWith(prefix)]. *)
Fixpoint startsWith (prefix s : QString) : bool :=
  match prefix, s with
  | [], _ => true
  | p :: prefix', c :: s' => (p =? c) && startsWith prefix' s'
  | _ :: _, [] => false
  end.

(** [s.replace(before, QString())]: every occurrence of [before], found
    left to right without overlap, is removed. [skip] counts the code units
    of the current occurrence still to be dropped. *)
Fixpoint remove_from (before s : QString) (skip : nat) : QString :=
  match s with
  | [] => []
  | c :: s' =>
      match skip with
      | S k => remove_from before s' k
      | O =>
          if startsWith before s
          then remove_from before s' (length before - 1)
          else c :: remove_from before s' O
      end
  end.

Definition replace_with_empty (before s : QString) : QString :=
  if isEmpty before then s else remove_from before s O.

(** Modelled from the spec: the row base class of boxes/peer_list_box.h, by
    the members this file uses (identity, peer, checked mark, custom status
    and name). *)
Module PeerListRow.
Record t := {
  id : Z;
  peer : option PeerData.t;
  checked : bool;
  customStatus : QString;
  name : QString;
}.

(** [PeerListRow(PeerListRowId id)]. *)
Definition of_id (id : Z) : t :=
  {| id := id; peer := None; checked := false;
     customStatus := []; name := [] |}.

(** [PeerListRow(not_null<PeerData*> peer)]. *)
Definition of_peer (p : PeerData.t) : t :=
  {| id := PeerData.id p; peer := Some p; checked := false;
     customStatus := []; name := [] |}.

Definition setCustomStatus (status : QString) (row : t) : t :=
  {| id := id row; peer := peer row; checked := checked row;
     customStatus := status; name := name row |}.

Definition setChecked (value : bool) (row : t) : t :=
  {| id := id row; peer := peer row; checked := value;
     customStatus := customStatus row; name := name row |}.

(** [refreshName] stores what the row's [generateName()] returns. *)
Definition refreshName (generated : QString) (row : t) : t :=
  {| id := id row; peer := peer row; checked := checked row;
     customStatus := customStatus row; name := generated |}.
End PeerListRow.

Module Row.
Record t := {
  base : PeerListRow.t;
  _data : InviteLinkData.t;
  _color : Color;
}.

Definition id (row : t) : Z := PeerListRow.id (base row).
Definition data (row : t) : InviteLinkData.t := _data row.

(** [Row::Row(delegate, data)]. *)
Definition new `{Lang} (data : InviteLinkData.t) : t :=
  {| base := PeerListRow.setCustomStatus (ComputeStatus data)
               (PeerListRow.of_id (ComputeRowId_data data));
     _data := data;
     _color := ComputeColor data |}.

Definition generateName (row : t) : QString :=
  if negb (isEmpty (InviteLinkData.title (_data row))) then
    InviteLinkData.title (_data row)
  else
    let result := InviteLinkData.url (_data row) in
    replace_with_empty (qs "t.me/joinchat/")
      (replace_with_empty (qs "t.me/+")
        (replace_with_empty (qs "https://") result)).

(** [Row::update(data)]; the trailing [_delegate->rowUpdateRow(this)] is
    the event the caller records. *)
Definition update `{Lang} (data : InviteLinkData.t) (row : t) : t :=
  let row := {| base := base row; _data := data; _color := _color row |} in
  let row := {| base := base row; _data := _data row;
                _color := ComputeColor data |} in
  let row := {| base := PeerListRow.setCustomStatus (ComputeStatus data)
                          (base row);
                _data := _data row; _color := _color row |} in
  {| base := PeerListRow.refreshName (generateName row) (base row);
     _data := _data row; _color := _color row |}.
End Row.

#[global] Instance UserData_eq_dec : EqDecision UserData.t.
Proof. solve_decision. Defined.
#[global] Instance ChatData_eq_dec : EqDecision ChatData.t.
Proof. solve_decision. Defined.
#[global] Instance ChannelData_eq_dec : EqDecision ChannelData.t.
Proof. solve_decision. Defined.
#[global] Instance PeerKind_eq_dec : EqDecision PeerData.Kind.
Proof. solve_decision. Defined.
#[global] Instance PeerData_eq_dec : EqDecision PeerData.t.
Proof. solve_decision. Defined.

Definition PeerData_encode (p : PeerData.t) : Z * (nat * (bool * bool)) :=
  (PeerData.id p,
   match PeerData.kind p with
   | PeerData.User u => (0%nat, (UserData.isBot u, false))
   | PeerData.Chat c => (1%nat, (ChatData.canHaveInviteLink c, false))
   | PeerData.Channel c =>
       (2%nat, (ChannelData.canHaveInviteLink c, ChannelData.isMegagroup c))
   | PeerData.Other => (3%nat, (false, false))
   end).

Definition PeerData_decode (x : Z * (nat * (bool * bool))) : PeerData.t :=
  let '(i, (tag, (a, b))) := x in
  {| PeerData.id := i;
     PeerData.kind :=
       match tag with
       | 0%nat => PeerData.User {| UserData.isBot := a |}
       | 1%nat => PeerData.Chat {| ChatData.canHaveInviteLink := a |}
       | 2%nat => PeerData.Channel {| ChannelData.canHaveInviteLink := a;
                                      ChannelData.isMegagroup := b |}
       | _ => PeerData.Other
       end |}.

#[global] Instance PeerData_countable : Countable PeerData.t.
Proof.
  apply (inj_countable' PeerData_encode PeerData_decode).
  intros [i [[u]|[c]|[c m]|]]; reflexivity.
Defined.

(** ** The list host *)

(** Modelled from the spec: the list/dialog host of boxes/peer_list_box.h,
    which this file only calls ("append/update/remove row, refresh, show
    transient toast notification"). The host keeps the displayed rows in
    order; a row pointer is the position of the row in that order. Appending
    puts the row at the tail, removing takes one row out and keeps the order
    of the others, and every notification is recorded in [events]. *)
Module PeerListDelegate.
Record t (R : Type) := { rows : list R; events : list Event }.
Arguments rows {R} _.
Arguments events {R} _.

Definition empty {R} : t R := {| rows := []; events := [] |}.

Definition notify {R} (event : Event) (d : t R) : t R :=
  {| rows := rows d; events := events d ++ [event] |}.

Definition peerListFullRowsCount {R} (d : t R) : nat := length (rows d).

Definition peerListRowAt {R} (index : nat) (d : t R) : Result R :=
  match rows d !! index with
  | Some row => Ok row
  | None => Fatal (ExpectsFailed "index >= 0 && index < count")
  end.

Definition peerListAppendRow {R} (row : R) (d : t R) : t R :=
  {| rows := rows d ++ [row]; events := events d |}.

Definition peerListRemoveRow {R} (index : nat) (d : t R) : t R :=
  {| rows := delete index (rows d); events := events d |}.

(** Writes through a row pointer. *)
Definition modifyRow {R} (index : nat) (f : R -> R) (d : t R) : t R :=
  {| rows := alter f index (rows d); events := events d |}.

Definition peerListUpdateRow {R} (rowId : Z) (d : t R) : t R :=
  notify (PeerListUpdateRow rowId) d.

Definition peerListRefreshRows {R} (d : t R) : t R :=
  notify PeerListRefreshRows d.

Definition peerListFindRow (id : Z) (d : t PeerListRow.t)
  : option PeerListRow.t :=
  snd <$> list_find (fun row => PeerListRow.id row = id) (rows d).

Definition peerListSetRowChecked (index : nat) (checked : bool)
    (d : t PeerListRow.t) : t PeerListRow.t :=
  modifyRow index (PeerListRow.setChecked checked) d.
End PeerListDelegate.

(** ** LinksController *)

Module LinksController.
Import PeerListDelegate.

Definition Delegate := PeerListDelegate.t Row.t.

Definition appendRow `{Lang} (data : InviteLinkData.t) (d : Delegate)
  : Delegate :=
  peerListAppendRow (Row.new data) d.

(** [static_cast<Row*>(row.get())->update(data)] on the row at [index],
    with the [rowUpdateRow] call that ends [Row::update]. *)
Definition updateRowAt `{Lang} (index : nat) (data : InviteLinkData.t)
    (d : Delegate) : Result Delegate :=
  row ← peerListRowAt index d;
  let d := modifyRow index (Row.update data) d in
  Ok (peerListUpdateRow (Row.id row) d).

(** The first loop of [rebuild]: [while (i < rows.size())]. *)
Fixpoint rebuild_fill `{Lang} (budget : nat) (rows : list InviteLinkData.t)
    (i count : nat) (d : Delegate) : Result (nat * Delegate) :=
  match rows !! i with
  | None => Ok (i, d)
  | Some data =>
      match budget with
      | O => Fatal LoopBudget
      | S budget' =>
          d' ← (if (i <? count)%nat
                then updateRowAt i data d
                else Ok (appendRow data d));
          rebuild_fill budget' rows (S i) count d'
      end
  end.

(** The second loop of [rebuild]: [while (i < count)]. *)
Fixpoint rebuild_trim (budget : nat) (i count : nat) (d : Delegate)
  : Result Delegate :=
  if (i <? count)%nat then
    match budget with
    | O => Fatal LoopBudget
    | S budget' =>
        _ ← peerListRowAt i d;
        rebuild_trim budget' i (count - 1) (peerListRemoveRow i d)
    end
  else Ok d.

Definition rebuild `{Lang} (rows : list InviteLinkData.t) (d : Delegate)
  : Result Delegate :=
  let i := 0%nat in
  let count := peerListFullRowsCount d in
  '(i, d) ← rebuild_fill (length rows) rows i count d;
  d ← rebuild_trim count i count d;
  Ok (peerListRefreshRows d).

(** [delegate()->peerListFindRow(id)] on the links list: the first displayed
    row with the identity, and its position. *)
Definition findRow (id : Z) (d : Delegate) : option (nat * Row.t) :=
  list_find (fun row => Row.id row = id) (rows d).

Definition removeRow (link : QString) (d : Delegate) : bool * Delegate :=
  match findRow (ComputeRowId link) d with
  | Some (index, _) => (true, peerListRemoveRow index d)
  | None => (false, d)
  end.

(** [rowClicked(row)], the clicked row given by its position: the arguments
    of the [ShowLinkBox] that is shown. *)
Definition rowClicked (currentFilter : ChatFilter.t) (index : nat)
    (d : Delegate) : option (ChatFilter.t * InviteLinkData.t) :=
  match rows d !! index with
  | Some row =>
      let link := Row.data row in
      Some (currentFilter, link)
  | None => None
  end.

(** The identity of a row is the one its url gives. *)
Definition id_matches_url (row : Row.t) : Prop :=
  Row.id row = ComputeRowId (InviteLinkData.url (Row.data row)).
End LinksController.

(** ** LinkController *)

(** [map.emplace(key, value)]: no effect when the key is present. *)
Definition emplace `{Countable K} {V} (key : K) (value : V) (m : gmap K V)
  : gmap K V :=
  match m !! key with
  | Some _ => m
  | None => <[key := value]> m
  end.

Module LinkController.
Import PeerListDelegate.

Definition Delegate := PeerListDelegate.t PeerListRow.t.

Record t := {
  _data : InviteLinkData.t;
  _filterTitle : QString;
  _filterChats : list History.t;
  _denied : gmap PeerData.t QString;
  _selected : gset PeerData.t;
  _initial : gset PeerData.t;
  _link : QString;
  _hasChanges : bool;
}.

(** [LinkController::LinkController(window, filter, data)]. *)
Definition new (filter : ChatFilter.t) (data : InviteLinkData.t) : t :=
  {| _data := data;
     _filterTitle := ChatFilter.title filter;
     _filterChats := ChatFilter.always filter;
     _denied := ∅;
     _selected := ∅;
     _initial := ∅;
     _link := InviteLinkData.url data;
     _hasChanges := false |}.

Definition set_denied (denied : gmap PeerData.t QString) (c : t) : t :=
  {| _data := _data c; _filterTitle := _filterTitle c;
     _filterChats := _filterChats c; _denied := denied;
     _selected := _selected c; _initial := _initial c;
     _link := _link c; _hasChanges := _hasChanges c |}.

Definition set_selected (selected : gset PeerData.t) (c : t) : t :=
  {| _data := _data c; _filterTitle := _filterTitle c;
     _filterChats := _filterChats c; _denied := _denied c;
     _selected := selected; _initial := _initial c;
     _link := _link c; _hasChanges := _hasChanges c |}.

Definition set_initial (initial : gset PeerData.t) (c : t) : t :=
  {| _data := _data c; _filterTitle := _filterTitle c;
     _filterChats := _filterChats c; _denied := _denied c;
     _selected := _selected c; _initial := initial;
     _link := _link c; _hasChanges := _hasChanges c |}.

Definition set_hasChanges (has : bool) (c : t) : t :=
  {| _data := _data c; _filterTitle := _filterTitle c;
     _filterChats := _filterChats c; _denied := _denied c;
     _selected := _selected c; _initial := _initial c;
     _link := _link c; _hasChanges := has |}.

Definition setupAboveWidget (c : t) (d : Delegate) : Delegate :=
  notify (PeerListSetAboveWidget
            (negb (isEmpty (InviteLinkData.url (_data c))))) d.

Definition setupBelowWidget (c : t) (d : Delegate) : Delegate :=
  notify PeerListSetBelowWidget d.

(** The body of the loop over [_data.chats] in [prepare]. *)
Definition prepare_chat (s : t * Delegate) (history : History.t)
  : t * Delegate :=
  let '(c, d) := s in
  let peer := History.peer history in
  let row := PeerListRow.of_peer peer in
  let raw := peerListFullRowsCount d in
  let d := peerListAppendRow row d in
  let d := peerListSetRowChecked raw true d in
  (set_initial ({[peer]} ∪ _initial c) c, d).

(** The body of the loop over [_filterChats] in [prepare]. *)
Definition prepare_filter_chat `{Lang} (s : t * Delegate)
    (history : History.t) : Result (t * Delegate) :=
  let '(c, d) := s in
  match peerListFindRow (PeerData.id (History.peer history)) d with
  | Some _ => Ok (c, d)
  | None =>
      let peer := History.peer history in
      let row := PeerListRow.of_peer peer in
      let raw := peerListFullRowsCount d in
      let d := peerListAppendRow row d in
      error ← ErrorForSharing history;
      match error with
      | Some error =>
          let d := modifyRow raw
                     (PeerListRow.setCustomStatus (status error)) d in
          Ok (set_denied (emplace peer (toast error) (_denied c)) c, d)
      | None =>
          if isEmpty (InviteLinkData.url (_data c))
          then Ok (set_denied (emplace peer [] (_denied c)) c, d)
          else Ok (c, d)
      end
  end.

Fixpoint prepare_filter_chats `{Lang} (s : t * Delegate)
    (chats : list History.t) : Result (t * Delegate) :=
  match chats with
  | [] => Ok s
  | history :: chats' =>
      s' ← prepare_filter_chat s history;
      prepare_filter_chats s' chats'
  end.

Definition prepare `{Lang} (c : t) (d : Delegate) : Result (t * Delegate) :=
  _ ← Expects (negb (isEmpty (InviteLinkData.url (_data c)))
               || bool_decide (InviteLinkData.chats (_data c) = []))
              "!_data.url.isEmpty() || _data.chats.empty()";
  let d := setupAboveWidget c d in
  let d := setupBelowWidget c d in
  let s := fold_left prepare_chat (InviteLinkData.chats (_data c)) (c, d) in
  '(c, d) ← prepare_filter_chats s (_filterChats c);
  let d := peerListRefreshRows d in
  Ok (set_selected (_initial c) c, d).

(** [rowClicked(row)], the clicked row given by its position. *)
Definition rowClicked (s : t * Delegate) (index : nat) : t * Delegate :=
  let '(c, d) := s in
  match rows d !! index with
  | None => s
  | Some row =>
      match PeerListRow.peer row with
      | None => s
      | Some peer =>
          match _denied c !! peer with
          | Some reason =>
              if negb (isEmpty reason)
              then (c, notify (ShowMultilineToast reason) d)
              else (c, d)
          | None =>
              let checked := PeerListRow.checked row in
              let selected := _selected c in
              let d := peerListSetRowChecked index (negb checked) d in
              let selected :=
                if checked then selected ∖ {[peer]}
                else {[peer]} ∪ selected in
              let has := bool_decide (_initial c ≠ selected) in
              let c := set_selected selected c in
              (set_hasChanges has c, d)
          end
      end
  end.

Definition hasChangesValue (c : t) : bool := _hasChanges c.
Definition selected (c : t) : gset PeerData.t := _selected c.

(** A sequence of clicks, each given by the position of the clicked row. *)
Definition rowsClicked (s : t * Delegate) (clicks : list nat) : t * Delegate :=
  fold_left rowClicked clicks s.

(** What [rowClicked] keeps true: [_hasChanges] says whether the selection
    differs from the initial one. *)
Definition changes_tracked (c : t) : Prop :=
  _hasChanges c = bool_decide (_initial c ≠ _selected c).

(** What holds of a link without url: every row shows a denied chat. *)
Definition all_denied (s : t * Delegate) : Prop :=
  ∀ row, row ∈ rows (snd s) →
         ∃ p, PeerListRow.peer row = Some p ∧ is_Some (_denied (fst s) !! p).

(** What the loop over [_filterChats] keeps true: the first row stays where
    it is, and no chat with its id gets denied. *)
Definition first_row_kept (row0 : PeerListRow.t) (s : t * Delegate) : Prop :=
  (∃ rest, rows (snd s) = row0 :: rest)
  ∧ ∀ p, is_Some (_denied (fst s) !! p) →
         PeerData.id p ≠ PeerListRow.id row0.
End LinkController.

(** ** Module-level operations *)

Definition keep_sharable (error : option Errors) (history : History.t)
    (rest : list PeerData.t) : list PeerData.t :=
  match error with
  | None => History.peer history :: rest
  | Some _ => rest
  end.

(** The pipeline [filter | transform(&History::peer) | to_vector] over a
    sequence of histories. *)
Fixpoint CollectChats `{Lang} (histories : list History.t)
  : Result (list PeerData.t) :=
  match histories with
  | [] => Ok []
  | history :: histories' =>
      error ← ErrorForSharing history;
      rest ← CollectChats histories';
      Ok (keep_sharable error history rest)
  end.

Definition CollectFilterLinkChats `{Lang} (filter : ChatFilter.t)
  : Result (list PeerData.t) :=
  CollectChats (ChatFilter.always filter).

(** [filter.flags() & ~Flag::Community], as a truth value. *)
Definition other_flags `{FilterFlags} (flags : Z) : bool :=
  negb (Z.land flags (Z.lnot Flag_Community) =? 0).

Definition GoodForExportFilterLink `{Lang} `{FilterFlags}
    (filter : ChatFilter.t) : bool * list Event :=
  if negb (bool_decide (ChatFilter.never filter = []))
     || other_flags (ChatFilter.flags filter)
  then (false, [ShowMultilineToast (tr lng_filters_link_cant)])
  else (true, []).

Definition EditLinkChats (link : InviteLinkData.t) (peers : gset PeerData.t)
  : Result (list Event) :=
  _ ← Expects (negb (bool_decide (peers = ∅))) "!peers.empty()";
  _ ← Expects (negb (InviteLinkData.id link =? 0)) "link.id != 0";
  _ ← Expects (negb (isEmpty (InviteLinkData.url link)))
        "!link.url.isEmpty()";
  Ok [SendRequest (MTPcommunities_EditExportedInvite
                     (InviteLinkData.id link)
                     (InviteLinkData.url link)
                     (elements peers))].

(** ** ShowLinkBox *)

Module ShowLinkBox.
Inductive Callback := Save | Close.

Record Button := { text : LangKey; clicked : Callback }.

Record Box := { buttons : list Button }.

Definition clearButtons (box : Box) : Box := {| buttons := [] |}.

Definition addButton (text : LangKey) (clicked : Callback) (box : Box)
  : Box :=
  {| buttons := buttons box ++ [{| text := text; clicked := clicked |}] |}.

(** The subscriber of [raw->hasChangesValue()]. *)
Definition on_hasChanges (has : bool) (box : Box) : Box :=
  let box := clearButtons box in
  if has then
    let box := addButton lng_settings_save Save box in
    addButton lng_cancel Close box
  else
    addButton lng_about_done Close box.

(** What a button does when pressed. *)
Definition press `{Lang} (link : InviteLinkData.t)
    (raw : LinkController.t) (callback : Callback) : Result (list Event) :=
  match callback with
  | Save =>
      let chosen := LinkController.selected raw in
      if bool_decide (chosen = ∅)
      then Ok ShowEmptyLinkError
      else EditLinkChats link chosen
  | Close => Ok [CloseBox]
  end.
End ShowLinkBox.

(** The reconciliation as the specification words it, to compare [rebuild]
    with: positions present in both lists hold the displayed row updated
    with the snapshot entry, positions only in the snapshot hold a fresh
    row, and displayed rows past the snapshot are gone. *)
Fixpoint reconcile `{Lang} (displayed : list Row.t)
    (snapshot : list InviteLinkData.t) : list Row.t :=
  match snapshot, displayed with
  | [], _ => []
  | data :: snapshot', row :: displayed' =>
      Row.update data row :: reconcile displayed' snapshot'
  | data :: snapshot', [] => Row.new data :: reconcile [] snapshot'
  end.

(** The [rowUpdateRow] notifications of the rows updated in place. *)
Definition update_events (touched : list Row.t) : list Event :=
  (fun row => PeerListUpdateRow (Row.id row)) <$> touched.

(** Whether [ErrorForSharing] reports no denial for the chat. *)
Definition sharable `{Lang} (history : History.t) : bool :=
  match ErrorForSharing history with
  | Ok None => true
  | _ => false
  end.

(** ** LinkChatsController *)

Module LinkChatsController.
Import PeerListDelegate.

Definition Delegate := PeerListDelegate.t PeerListRow.t.

Record t := { _id : FilterId; _data : InviteLinkData.t }.

(** The body of the loop in [prepare]. *)
Definition prepare_chat (d : Delegate) (history : History.t) : Delegate :=
  peerListAppendRow (PeerListRow.of_peer (History.peer history)) d.

Definition prepare (c : t) (d : Delegate) : Delegate :=
  let d := fold_left prepare_chat (InviteLinkData.chats (_data c)) d in
  peerListRefreshRows d.

Definition rowClicked (s : t * Delegate) (index : nat) : t * Delegate := s.
End LinkChatsController.

(** ** ExportFilterLink *)

(** The types of the export reply and the link store of
    data_chat_filters.h: [add id invite] is
    [session->data().chatsFilters().add(id, invite)]. *)
Class FiltersStore := {
  MTPDialogFilter : Type;
  MTPExportedCommunityInvite : Type;
  add : FilterId -> MTPExportedCommunityInvite -> InviteLinkData.t;
}.

Module ExportFilterLink.
Record MTPcommunities_ExportCommunityInvite := {
  community : FilterId;
  title : QString;
  peers : list PeerData.t;
}.

(** What the request comes back with: [.done] or [.fail]. *)
Inductive Reply `{FiltersStore} :=
| Done (vfilter : MTPDialogFilter) (vinvite : MTPExportedCommunityInvite)
| Fail.

(** What the reply handlers do to the store. *)
Inductive StoreCall `{FiltersStore} :=
| Apply (id : FilterId) (vfilter : MTPDialogFilter)
| Add (id : FilterId) (vinvite : MTPExportedCommunityInvite).

(** The reply handlers: the store calls made, and the link handed to the
    [done] callback. *)
Definition on_reply `{FiltersStore} (id : FilterId) (reply : Reply)
  : list StoreCall * InviteLinkData.t :=
  match reply with
  | Done vfilter vinvite =>
      let link := add id vinvite in
      ([Apply id vfilter; Add id vinvite], link)
  | Fail =>
      ([], {| InviteLinkData.id := id; InviteLinkData.url := [];
              InviteLinkData.title := []; InviteLinkData.chats := [] |})
  end.

(** [ExportFilterLink(id, peers, done)]: the request sent. *)
Definition send (id : FilterId) (peers : list PeerData.t)
  : Result MTPcommunities_ExportCommunityInvite :=
  _ ← Expects (negb (bool_decide (peers = []))) "!peers.empty()";
  Ok {| community := id; title := []; peers := peers |}.
End ExportFilterLink.

(** ** What holds of the controllers *)

(** Every code unit of the string fits a [ushort]. *)
Definition well_formed (s : QString) : Prop :=
  Forall (fun c => 0 <= c < 65536) s.

(** The id of the peer of a history. *)
Definition peer_id (history : History.t) : Z :=
  PeerData.id (History.peer history).

Module Prepared.
Import PeerListDelegate LinkController.

(** The row of a chat of the link, as [prepare] leaves it. *)
Definition checked_row (history : History.t) : PeerListRow.t :=
  PeerListRow.setChecked true (PeerListRow.of_peer (History.peer history)).

(** A chat of the filter that [ErrorForSharing] lets through. *)
Definition offered `{Lang} (c : LinkController.t) (p : PeerData.t) : Prop :=
  ∃ h, h ∈ _filterChats c ∧ History.peer h = p ∧ sharable h = true.

(** Every row shows a peer under the peer's id, and the peer is a chat of
    the link, a denied chat, or a chat of the filter that can be shared. *)
Definition rows_known `{Lang} (s : LinkController.t * Delegate) : Prop :=
  ∀ row, row ∈ rows (snd s) →
    ∃ p, PeerListRow.peer row = Some p
         ∧ PeerListRow.id row = PeerData.id p
         ∧ (p ∈ _initial (fst s)
            ∨ is_Some (_denied (fst s) !! p)
            ∨ offered (fst s) p).

(** No selected chat is denied, and every selected chat is a chat of the
    link or a chat of the filter that can be shared. *)
Definition selection_allowed `{Lang} (s : LinkController.t * Delegate)
  : Prop :=
  ∀ p, p ∈ _selected (fst s) →
    _denied (fst s) !! p = None
    ∧ (p ∈ _initial (fst s) ∨ offered (fst s) p).

(** The check marks show the selection. *)
Definition marks_selection (s : LinkController.t * Delegate) : Prop :=
  ∀ row p, row ∈ rows (snd s) → PeerListRow.peer row = Some p →
    (PeerListRow.checked row = true ↔ p ∈ _selected (fst s)).

Definition distinct_rows (s : LinkController.t * Delegate) : Prop :=
  NoDup (PeerListRow.id <$> rows (snd s)).

(** Every selected chat has a row. *)
Definition selection_shown (s : LinkController.t * Delegate) : Prop :=
  ∀ p, p ∈ _selected (fst s) →
       ∃ row, row ∈ rows (snd s) ∧ PeerListRow.peer row = Some p.

(** The peer ids of the chats of the link. *)
Definition chat_ids (c : LinkController.t) : list Z :=
  peer_id <$> InviteLinkData.chats (_data c).

(** A row that [prepare] adds for a chat of the filter: unchecked, of a
    chat that is no chat of the link, and either denied or open to
    sharing under a link that exists. *)
Definition filter_row `{Lang} (c : LinkController.t) (row : PeerListRow.t)
  : Prop :=
  PeerListRow.checked row = false
  ∧ ∃ h, h ∈ _filterChats c
         ∧ PeerListRow.peer row = Some (History.peer h)
         ∧ PeerListRow.id row = peer_id h
         ∧ (peer_id h ∉ chat_ids c)
         ∧ (is_Some (_denied c !! History.peer h)
            ∨ (sharable h = true ∧ InviteLinkData.url (_data c) ≠ [])).

(** Why a chat is denied: [ErrorForSharing] gave the reason, or the link
    has no url and the reason is empty. *)
Definition denial_explained `{Lang} (c : LinkController.t) : Prop :=
  ∀ p reason, _denied c !! p = Some reason →
    ∃ h, h ∈ _filterChats c ∧ History.peer h = p
         ∧ (peer_id h ∉ chat_ids c)
         ∧ ((∃ e, ErrorForSharing h = Ok (Some e) ∧ reason = toast e)
            ∨ (ErrorForSharing h = Ok None
               ∧ InviteLinkData.url (_data c) = [] ∧ reason = [])).

(** The rows as [prepare] leaves them: the checked rows of the link's
    chats, then rows of the filter's chats, with a row for every denied
    chat. *)
Definition prepared_rows `{Lang} (s : LinkController.t * Delegate) : Prop :=
  ∃ extra,
    rows (snd s)
    = (checked_row <$> InviteLinkData.chats (_data (fst s))) ++ extra
    ∧ Forall (filter_row (fst s)) extra
    ∧ ∀ p, is_Some (_denied (fst s) !! p) →
           ∃ row, row ∈ extra ∧ PeerListRow.peer row = Some p.
End Prepared.

(** ** Sample inputs *)

Module Sample.
Definition key_name (k : LangKey) : string :=
  match k with
  | lng_filters_link_bot_status => "lng_filters_link_bot_status"
  | lng_filters_link_bot_error => "lng_filters_link_bot_error"
  | lng_filters_link_private_status => "lng_filters_link_private_status"
  | lng_filters_link_private_error => "lng_filters_link_private_error"
  | lng_filters_link_noadmin_status => "lng_filters_link_noadmin_status"
  | lng_filters_link_noadmin_group_error =>
      "lng_filters_link_noadmin_group_error"
  | lng_filters_link_noadmin_channel_error =>
      "lng_filters_link_noadmin_channel_error"
  | lng_filters_empty => "lng_filters_empty"
  | lng_filters_link_cant => "lng_filters_link_cant"
  | lng_filters_chats_count => "lng_filters_chats_count"
  | lng_settings_save => "lng_settings_save"
  | lng_cancel => "lng_cancel"
  | lng_about_done => "lng_about_done"
  end.

(** A language pack that shows every phrase by its key, and a count by as
    many asterisks after it. *)
Definition lang : Lang :=
  {| tr k := qs (key_name k);
     tr_count k n := qs (key_name k) ++ qs ":" ++ replicate n 0x2A |}.

Definition flags : FilterFlags := {| Flag_Community := 0x100 |}.

Definition bot : PeerData.t :=
  {| PeerData.id := 1;
     PeerData.kind := PeerData.User {| UserData.isBot := true |} |}.
Definition person : PeerData.t :=
  {| PeerData.id := 2;
     PeerData.kind := PeerData.User {| UserData.isBot := false |} |}.
Definition group (id : Z) (admin : bool) : PeerData.t :=
  {| PeerData.id := id;
     PeerData.kind :=
       PeerData.Chat {| ChatData.canHaveInviteLink := admin |} |}.
Definition channel (id : Z) (admin mega : bool) : PeerData.t :=
  {| PeerData.id := id;
     PeerData.kind :=
       PeerData.Channel {| ChannelData.canHaveInviteLink := admin;
                           ChannelData.isMegagroup := mega |} |}.
Definition stranger : PeerData.t :=
  {| PeerData.id := 9; PeerData.kind := PeerData.Other |}.

Definition history (p : PeerData.t) : History.t := {| History.peer := p |}.

Definition link (url title : string) (chats : list PeerData.t)
  : InviteLinkData.t :=
  {| InviteLinkData.id := 2;
     InviteLinkData.url := qs url;
     InviteLinkData.title := qs title;
     InviteLinkData.chats := history <$> chats |}.

Definition filter (flags : Z) (always never : list PeerData.t)
  : ChatFilter.t :=
  {| ChatFilter.id := 2;
     ChatFilter.title := qs "Work";
     ChatFilter.always := history <$> always;
     ChatFilter.never := history <$> never;
     ChatFilter.flags := flags |}.

(** A saved link with one chat, in a filter that also holds a bot and
    another group; [shared_state] is the controller after [prepare]. *)
Definition shared_link : InviteLinkData.t :=
  link "https://t.me/+abc" "" [group 5 true].
Definition work_filter : ChatFilter.t :=
  filter 0 [group 5 true; bot; group 6 true] [].
Definition shared_state : LinkController.t * LinkController.Delegate :=
  ({| LinkController._data := shared_link;
      LinkController._filterTitle := qs "Work";
      LinkController._filterChats :=
        history <$> [group 5 true; bot; group 6 true];
      LinkController._denied := {[ bot := qs "lng_filters_link_bot_error" ]};
      LinkController._selected := {[ group 5 true ]};
      LinkController._initial := {[ group 5 true ]};
      LinkController._link := qs "https://t.me/+abc";
      LinkController._hasChanges := false |},
   {| PeerListDelegate.rows :=
        [PeerListRow.setChecked true (PeerListRow.of_peer (group 5 true));
         PeerListRow.setCustomStatus (qs "lng_filters_link_bot_status")
           (PeerListRow.of_peer bot);
         PeerListRow.of_peer (group 6 true)];
      PeerListDelegate.events :=
        [PeerListSetAboveWidget true; PeerListSetBelowWidget;
         PeerListRefreshRows] |}).

(** A link that is not created yet, in a filter with one sharable group;
    [draft_state] is the controller after [prepare]. *)
Definition draft_link : InviteLinkData.t := link "" "" [].
Definition draft_filter : ChatFilter.t := filter 0 [group 5 true] [].
Definition draft_state : LinkController.t * LinkController.Delegate :=
  ({| LinkController._data := draft_link;
      LinkController._filterTitle := qs "Work";
      LinkController._filterChats := history <$> [group 5 true];
      LinkController._denied := {[ group 5 true := [] ]};
      LinkController._selected := ∅;
      LinkController._initial := ∅;
      LinkController._link := [];
      LinkController._hasChanges := false |},
   {| PeerListDelegate.rows := [PeerListRow.of_peer (group 5 true)];
      PeerListDelegate.events :=
        [PeerListSetAboveWidget false; PeerListSetBelowWidget;
         PeerListRefreshRows] |}).

(** A store whose invites are the urls of the links they add. *)
Definition store : FiltersStore :=
  {| MTPDialogFilter := unit;
     MTPExportedCommunityInvite := QString;
     add id invite :=
       {| InviteLinkData.id := id; InviteLinkData.url := invite;
          InviteLinkData.title := []; InviteLinkData.chats := [] |} |}.
End Sample.

(** * Properties *)

(** ** XXH64 agrees with the published test values *)

Example XXH64_empty : XXH.XXH64 [] 0 = 0xEF46DB3751D8E999.
Proof. vm_compute. reflexivity. Qed.

Example XXH64_a : XXH.XXH64 (qs "a") 0 = 0xD24EC4F1A98C6E5B.
Proof. vm_compute. reflexivity. Qed.

Example XXH64_abc : XXH.XXH64 (qs "abc") 0 = 0x44BC2CF5AD770999.
Proof. vm_compute. reflexivity. Qed.

Example XXH64_long :
  XXH.XXH64 (qs "Nobody inspects the spammish repetition") 0
  = 0xFBCEA83C8A378BF1.
Proof. vm_compute. reflexivity. Qed.

Lemma lxor_below (n a b : Z) :
  0 <= n -> 0 <= a < 2 ^ n -> 0 <= b < 2 ^ n -> 0 <= Z.lxor a b < 2 ^ n.
Proof.
  intros Hn Ha Hb.
  assert (Hnn : 0 <= Z.lxor a b) by (apply Z.lxor_nonneg; lia).
  split; [exact Hnn|].
  destruct (Z.eq_dec (Z.lxor a b) 0) as [->|Hz]; [lia|].
  assert (0 < n).
  { destruct (Z.eq_dec n 0) as [->|]; [|lia].
    assert (a = 0) by lia. assert (b = 0) by lia. subst. now elim Hz. }
  apply Z.log2_lt_pow2; [lia|].
  pose proof (Z.log2_lxor a b ltac:(lia) ltac:(lia)) as Hl.
  assert (Z.log2 a < n).
  { destruct (Z.eq_dec a 0) as [->|]; [simpl; lia|]. apply Z.log2_lt_pow2; lia. }
  assert (Z.log2 b < n).
  { destruct (Z.eq_dec b 0) as [->|]; [simpl; lia|]. apply Z.log2_lt_pow2; lia. }
  lia.
Qed.

Lemma wrap64_range (x : Z) : 0 <= XXH.wrap64 x < 2 ^ 64.
Proof. unfold XXH.wrap64. apply Z.mod_pos_bound. lia. Qed.

Lemma avalanche_range (h : Z) : 0 <= XXH.avalanche h < 2 ^ 64.
Proof.
  unfold XXH.avalanche. cbv zeta.
  set (x := XXH.wrap64 _).
  pose proof (wrap64_range
    (Z.lxor (XXH.wrap64 (Z.lxor h (Z.shiftr h 33) * XXH.PRIME64_2))
       (Z.shiftr (XXH.wrap64 (Z.lxor h (Z.shiftr h 33) * XXH.PRIME64_2)) 29)
     * XXH.PRIME64_3)) as Hx.
  fold x in Hx.
  apply lxor_below; [lia|exact Hx|].
  rewrite Z.shiftr_div_pow2 by lia.
  split; [apply Z.div_pos; lia|].
  apply Z.div_lt_upper_bound; lia.
Qed.

Lemma XXH64_range (input : list Z) (seed : Z) :
  0 <= XXH.XXH64 input seed < 2 ^ 64.
Proof.
  unfold XXH.XXH64, XXH.finalize.
  repeat match goal with
         | |- context [let '(_, _) := ?e in _] => destruct e
         end.
  apply avalanche_range.
Qed.

(** ** Link identity *)

(** C2. The row identity is a function of the url alone: equal urls give
    equal identities, two links with the same url give rows with the same
    identity whatever their other fields, the identity is the 64-bit XXH64
    of the url's UTF-16 code units, and it depends on their order. *)
Theorem ComputeRowId_deterministic `{Lang} :
  (∀ link1 link2 : QString,
     link1 = link2 → ComputeRowId link1 = ComputeRowId link2)
  ∧ (∀ d1 d2 : InviteLinkData.t,
       InviteLinkData.url d1 = InviteLinkData.url d2 →
       Row.id (Row.new d1) = Row.id (Row.new d2))
  ∧ (∀ d : InviteLinkData.t,
       Row.id (Row.new d)
       = XXH.XXH64 (utf16_bytes (InviteLinkData.url d)) 0
       ∧ 0 ≤ Row.id (Row.new d) < 2 ^ 64)
  ∧ (qs "ab" ≡ₚ qs "ba" ∧ ComputeRowId (qs "ab") ≠ ComputeRowId (qs "ba")).
Proof.
  split; [intros ? ? ->; reflexivity|].
  split.
  { intros d1 d2 Hurl. unfold Row.id, Row.new. simpl.
    unfold ComputeRowId_data. now rewrite Hurl. }
  split.
  { intros d. split; [reflexivity|].
    unfold Row.id, Row.new. simpl. apply XXH64_range. }
  split.
  - simpl. apply perm_swap.
  - vm_compute. discriminate.
Qed.

Lemma ComputeRowId_deterministic_witness :
  Row.id (@Row.new Sample.lang (Sample.link "https://t.me/+abc" "" []))
  = Row.id (@Row.new Sample.lang
              (Sample.link "https://t.me/+abc" "Team"
                 [Sample.group 5 true; Sample.channel 6 true false])).
Proof.
  apply (proj1 (proj2 (@ComputeRowId_deterministic Sample.lang))).
  reflexivity.
Defined.

(** C9. [Row::update] stores the new data, colour, status text and name,
    and leaves the identity given at construction as it was, whatever url
    the new data has. *)
Theorem Row_update_keeps_identity `{Lang}
    (row : Row.t) (data0 data : InviteLinkData.t) :
  Row.id (Row.update data row) = Row.id row
  ∧ Row.id (Row.update data (Row.new data0))
    = ComputeRowId (InviteLinkData.url data0)
  ∧ Row.data (Row.update data row) = data
  ∧ Row._color (Row.update data row) = ComputeColor data
  ∧ PeerListRow.customStatus (Row.base (Row.update data row))
    = ComputeStatus data
  ∧ PeerListRow.name (Row.base (Row.update data row))
    = (if isEmpty (InviteLinkData.title data)
       then replace_with_empty (qs "t.me/joinchat/")
              (replace_with_empty (qs "t.me/+")
                 (replace_with_empty (qs "https://")
                    (InviteLinkData.url data)))
       else InviteLinkData.title data)
  ∧ PeerListRow.peer (Row.base (Row.update data row))
    = PeerListRow.peer (Row.base row)
  ∧ PeerListRow.checked (Row.base (Row.update data row))
    = PeerListRow.checked (Row.base row).
Proof.
  unfold Row.update, Row.id, Row.data, Row.generateName. simpl.
  repeat split; try reflexivity.
  destruct (isEmpty (InviteLinkData.title data)); reflexivity.
Qed.

(** The identity of an updated row can differ from the identity its new
    url would give. *)
Example Row_update_stale_identity :
  let row := @Row.update Sample.lang (Sample.link "https://t.me/+xyz" "" [])
               (@Row.new Sample.lang (Sample.link "https://t.me/+abc" "" [])) in
  Row.id row = ComputeRowId (qs "https://t.me/+abc")
  ∧ Row.id row ≠ ComputeRowId (InviteLinkData.url (Row.data row))
  ∧ PeerListRow.name (Row.base row) = qs "xyz".
Proof. vm_compute. repeat split; congruence. Qed.

(** ** Sharing eligibility *)

(** C3. [ErrorForSharing] by the kind of the history's peer: the bot phrases
    for a bot, the private-chat phrases for another user, the no-admin status
    with the group phrase for a basic group or a megagroup that cannot have
    an invite link, with the channel phrase for a broadcast channel that
    cannot, no denial for a group or channel that can, and a fatal
    [Unexpected] for any other peer. *)
Theorem ErrorForSharing_rules `{Lang} (history : History.t) :
  (∀ user, PeerData.kind (History.peer history) = PeerData.User user →
     UserData.isBot user = true →
     ErrorForSharing history
     = Ok (Some {| status := tr lng_filters_link_bot_status;
                   toast := tr lng_filters_link_bot_error |}))
  ∧ (∀ user, PeerData.kind (History.peer history) = PeerData.User user →
       UserData.isBot user = false →
       ErrorForSharing history
       = Ok (Some {| status := tr lng_filters_link_private_status;
                     toast := tr lng_filters_link_private_error |}))
  ∧ (∀ chat, PeerData.kind (History.peer history) = PeerData.Chat chat →
       ChatData.canHaveInviteLink chat = false →
       ErrorForSharing history
       = Ok (Some {| status := tr lng_filters_link_noadmin_status;
                     toast := tr lng_filters_link_noadmin_group_error |}))
  ∧ (∀ channel,
       PeerData.kind (History.peer history) = PeerData.Channel channel →
       ChannelData.canHaveInviteLink channel = false →
       ChannelData.isMegagroup channel = true →
       ErrorForSharing history
       = Ok (Some {| status := tr lng_filters_link_noadmin_status;
                     toast := tr lng_filters_link_noadmin_group_error |}))
  ∧ (∀ channel,
       PeerData.kind (History.peer history) = PeerData.Channel channel →
       ChannelData.canHaveInviteLink channel = false →
       ChannelData.isMegagroup channel = false →
       ErrorForSharing history
       = Ok (Some {| status := tr lng_filters_link_noadmin_status;
                     toast := tr lng_filters_link_noadmin_channel_error |}))
  ∧ (∀ chat, PeerData.kind (History.peer history) = PeerData.Chat chat →
       ChatData.canHaveInviteLink chat = true →
       ErrorForSharing history = Ok None)
  ∧ (∀ channel,
       PeerData.kind (History.peer history) = PeerData.Channel channel →
       ChannelData.canHaveInviteLink channel = true →
       ErrorForSharing history = Ok None)
  ∧ (PeerData.kind (History.peer history) = PeerData.Other →
       ErrorForSharing history
       = Fatal (UnexpectedValue "Peer type in ErrorForSharing.")).
Proof.
  unfold ErrorForSharing, PeerData.asUser, PeerData.asChat, PeerData.asChannel.
  repeat split; intros; 
    repeat match goal with
           | E : PeerData.kind _ = _ |- _ => rewrite E; clear E
           | E : _ = true |- _ => rewrite E; clear E
           | E : _ = false |- _ => rewrite E; clear E
           end; reflexivity.
Qed.

Lemma ErrorForSharing_rules_witness :
  @ErrorForSharing Sample.lang (Sample.history Sample.bot)
  = Ok (Some {| status := qs "lng_filters_link_bot_status";
                toast := qs "lng_filters_link_bot_error" |})
  ∧ @ErrorForSharing Sample.lang (Sample.history (Sample.channel 7 false false))
    = Ok (Some {| status := qs "lng_filters_link_noadmin_status";
                  toast := qs "lng_filters_link_noadmin_channel_error" |})
  ∧ @ErrorForSharing Sample.lang (Sample.history (Sample.group 8 true))
    = Ok None
  ∧ @ErrorForSharing Sample.lang (Sample.history Sample.stranger)
    = Fatal (UnexpectedValue "Peer type in ErrorForSharing.").
Proof.
  pose proof (@ErrorForSharing_rules Sample.lang) as R.
  split; [|split; [|split]].
  - destruct (R (Sample.history Sample.bot)) as (Hbot & _).
    apply (Hbot {| UserData.isBot := true |}); reflexivity.
  - destruct (R (Sample.history (Sample.channel 7 false false)))
      as (_ & _ & _ & _ & Hch & _).
    apply (Hch {| ChannelData.canHaveInviteLink := false;
                  ChannelData.isMegagroup := false |}); reflexivity.
  - destruct (R (Sample.history (Sample.group 8 true)))
      as (_ & _ & _ & _ & _ & Hok & _).
    apply (Hok {| ChatData.canHaveInviteLink := true |}); reflexivity.
  - destruct (R (Sample.history Sample.stranger))
      as (_ & _ & _ & _ & _ & _ & _ & Hother).
    apply Hother; reflexivity.
Defined.

(** ** Export eligibility of a filter *)

Lemma land_lnot_zero (flags allowed : Z) :
  Z.land flags (Z.lnot allowed) = 0
  ↔ ¬ ∃ n, 0 ≤ n ∧ Z.testbit flags n = true ∧ Z.testbit allowed n = false.
Proof.
  split.
  - intros Hz (n & Hn & Hf & Ha).
    assert (Hb : Z.testbit (Z.land flags (Z.lnot allowed)) n = true).
    { rewrite Z.land_spec, Z.lnot_spec by lia. now rewrite Hf, Ha. }
    rewrite Hz, Z.bits_0 in Hb. discriminate.
  - intros Hno. apply Z.bits_inj'. intros n Hn.
    rewrite Z.land_spec, Z.lnot_spec, Z.bits_0 by lia.
    destruct (Z.testbit flags n) eqn:Hf; [|reflexivity].
    destruct (Z.testbit allowed n) eqn:Ha; [reflexivity|].
    exfalso. apply Hno. now exists n.
Qed.

Lemma nonzero_has_bit (x : Z) :
  x ≠ 0 → ∃ n, 0 ≤ n ∧ Z.testbit x n = true.
Proof.
  intros Hx.
  destruct (Z.lt_trichotomy x 0) as [Hneg|[->|Hpos]]; [|congruence|].
  - apply Z.bits_iff_neg_ex in Hneg. destruct Hneg as (k & Hk).
    exists (Z.max 0 k + 1). split; [lia|]. apply Hk. lia.
  - exists (Z.log2 x). split; [apply Z.log2_nonneg|]. now apply Z.bit_log2.
Qed.

Lemma other_flags_true `{FilterFlags} (flags : Z) :
  other_flags flags = true
  ↔ ∃ n, 0 ≤ n ∧ Z.testbit flags n = true
         ∧ Z.testbit Flag_Community n = false.
Proof.
  unfold other_flags. rewrite negb_true_iff, Z.eqb_neq.
  split.
  - intros Hz. destruct (nonzero_has_bit _ Hz) as (n & Hn & Hb).
    rewrite Z.land_spec, Z.lnot_spec in Hb by lia.
    apply andb_true_iff in Hb. destruct Hb as [Hf Ha].
    apply negb_true_iff in Ha. now exists n.
  - intros Hex Hz. apply land_lnot_zero in Hz. contradiction.
Qed.

(** C7. [GoodForExportFilterLink] answers false, with the cannot-export
    toast, exactly when the filter has a never-list entry or a flag bit set
    outside the Community flag; otherwise it answers true and shows
    nothing. Neither way does it send a request. *)
Theorem GoodForExportFilterLink_rejects `{Lang} `{FilterFlags}
    (f : ChatFilter.t) :
  let excluded :=
    ChatFilter.never f ≠ []
    ∨ ∃ n, 0 ≤ n ∧ Z.testbit (ChatFilter.flags f) n = true
           ∧ Z.testbit Flag_Community n = false in
  (excluded ↔ fst (GoodForExportFilterLink f) = false)
  ∧ (excluded →
     GoodForExportFilterLink f
     = (false, [ShowMultilineToast (tr lng_filters_link_cant)]))
  ∧ (¬ excluded → GoodForExportFilterLink f = (true, []))
  ∧ (∀ request, SendRequest request ∉ snd (GoodForExportFilterLink f)).
Proof.
  cbv zeta. unfold GoodForExportFilterLink.
  destruct (negb (bool_decide (ChatFilter.never f = []))
            || other_flags (ChatFilter.flags f)) eqn:E.
  - assert (Hex : ChatFilter.never f ≠ []
                  ∨ ∃ n, 0 ≤ n ∧ Z.testbit (ChatFilter.flags f) n = true
                         ∧ Z.testbit Flag_Community n = false).
    { apply orb_true_iff in E. destruct E as [E|E].
      - left. apply negb_true_iff, bool_decide_eq_false in E. exact E.
      - right. now apply other_flags_true. }
    simpl. repeat split; try tauto.
    intros request Hin. apply list_elem_of_singleton in Hin. discriminate.
  - assert (Hno : ¬ (ChatFilter.never f ≠ []
                  ∨ ∃ n, 0 ≤ n ∧ Z.testbit (ChatFilter.flags f) n = true
                         ∧ Z.testbit Flag_Community n = false)).
    { apply orb_false_iff in E. destruct E as [E1 E2].
      apply negb_false_iff, bool_decide_eq_true in E1.
      intros [Hn|Hf]; [contradiction|].
      apply other_flags_true in Hf. congruence. }
    simpl. repeat split; try tauto; try discriminate.
    intros request Hin. apply not_elem_of_nil in Hin. exact Hin.
Qed.

Lemma GoodForExportFilterLink_rejects_witness :
  @GoodForExportFilterLink Sample.lang Sample.flags
    (Sample.filter 0x104 [Sample.group 5 true] [])
  = (false, [ShowMultilineToast (qs "lng_filters_link_cant")])
  ∧ @GoodForExportFilterLink Sample.lang Sample.flags
      (Sample.filter 0x100 [Sample.group 5 true] [])
    = (true, []).
Proof.
  split.
  - apply (proj1 (proj2 (@GoodForExportFilterLink_rejects
                           Sample.lang Sample.flags
                           (Sample.filter 0x104 [Sample.group 5 true] [])))).
    right. exists 2. split; [lia|split; reflexivity].
  - apply (proj1 (proj2 (proj2 (@GoodForExportFilterLink_rejects
                           Sample.lang Sample.flags
                           (Sample.filter 0x100 [Sample.group 5 true] []))))).
    intros [Hn|(n & Hn & Hf & Hc)]; [now apply Hn|].
    change (Z.testbit 0x100 n = true) in Hf.
    change (Z.testbit 0x100 n = false) in Hc.
    congruence.
Defined.

(** ** Collecting the chats of a filter *)

Lemma sharable_true `{Lang} (history : History.t) :
  sharable history = true ↔ ErrorForSharing history = Ok None.
Proof.
  unfold sharable.
  destruct (ErrorForSharing history) as [[e|]|]; split;
    congruence || reflexivity || discriminate.
Qed.

Lemma sharable_kind `{Lang} (history : History.t) :
  sharable history = true
  ↔ (∃ chat, PeerData.kind (History.peer history) = PeerData.Chat chat
             ∧ ChatData.canHaveInviteLink chat = true)
    ∨ (∃ channel,
         PeerData.kind (History.peer history) = PeerData.Channel channel
         ∧ ChannelData.canHaveInviteLink channel = true).
Proof.
  unfold sharable, ErrorForSharing, PeerData.asUser, PeerData.asChat,
    PeerData.asChannel.
  destruct (PeerData.kind (History.peer history)) as [[b]|[a]|[a m]|]; simpl.
  - destruct b; split; try discriminate;
      intros [(c & E & _)|(c & E & _)]; discriminate.
  - destruct a; simpl; split; try discriminate.
    + intros _. left. eexists. split; reflexivity.
    + reflexivity.
    + intros [(c & E & Hc)|(c & E & _)]; [|discriminate].
      injection E as <-. discriminate.
  - destruct a; simpl; split; try discriminate.
    + intros _. right. eexists. split; reflexivity.
    + reflexivity.
    + intros [(c & E & _)|(c & E & Hc)]; [discriminate|].
      injection E as <-. discriminate.
  - split; try discriminate.
    intros [(c & E & _)|(c & E & _)]; discriminate.
Qed.

Lemma CollectChats_known `{Lang} (histories : list History.t) :
  (∀ h, h ∈ histories → PeerData.kind (History.peer h) ≠ PeerData.Other) →
  CollectChats histories
  = Ok (History.peer <$> List.filter sharable histories).
Proof.
  induction histories as [|h rest IH]; intros Hknown; [reflexivity|].
  simpl. unfold sharable at 1.
  assert (Hh : PeerData.kind (History.peer h) ≠ PeerData.Other)
    by (apply Hknown; left).
  rewrite IH by (intros h' Hin; apply Hknown; now right).
  destruct (ErrorForSharing h) as [[e|]|flt] eqn:E; try reflexivity.
  exfalso. apply Hh.
  unfold ErrorForSharing, PeerData.asUser, PeerData.asChat,
    PeerData.asChannel in E.
  destruct (PeerData.kind (History.peer h)) as [[b]|[a]|[a m]|];
    simpl in E; try reflexivity; try discriminate.
  - destruct a; discriminate.
  - destruct a; discriminate.
Qed.

Lemma CollectChats_unknown `{Lang} (histories : list History.t) :
  (∃ h, h ∈ histories ∧ PeerData.kind (History.peer h) = PeerData.Other) →
  CollectChats histories
  = Fatal (UnexpectedValue "Peer type in ErrorForSharing.").
Proof.
  induction histories as [|h rest IH]; intros (h' & Hin & Hother).
  - now apply not_elem_of_nil in Hin.
  - simpl.
    destruct (decide (PeerData.kind (History.peer h) = PeerData.Other))
      as [Hh|Hh].
    + unfold ErrorForSharing, PeerData.asUser, PeerData.asChat,
        PeerData.asChannel. rewrite Hh. reflexivity.
    + apply elem_of_cons in Hin. destruct Hin as [->|Hin]; [contradiction|].
      rewrite IH by (exists h'; split; assumption).
      destruct (ErrorForSharing h) as [e|flt] eqn:E; [reflexivity|].
      exfalso. apply Hh.
      unfold ErrorForSharing, PeerData.asUser, PeerData.asChat,
        PeerData.asChannel in E.
      destruct (PeerData.kind (History.peer h)) as [[b]|[a]|[a m]|];
        simpl in E; try reflexivity; try discriminate;
        destruct a; discriminate.
Qed.

(** C10. For a filter whose always-included chats are users, groups and
    channels, [CollectFilterLinkChats] returns the peers of exactly those
    chats for which [ErrorForSharing] reports no denial, in the filter's
    order; these are the groups and channels that can have an invite link,
    so bots, other users, and groups and channels that cannot are left
    out. A chat of any other kind is the fatal case of [ErrorForSharing]. *)
Theorem CollectFilterLinkChats_sharable `{Lang} (f : ChatFilter.t) :
  ((∀ h, h ∈ ChatFilter.always f →
         PeerData.kind (History.peer h) ≠ PeerData.Other) →
   CollectFilterLinkChats f
   = Ok (History.peer <$> List.filter sharable (ChatFilter.always f)))
  ∧ ((∃ h, h ∈ ChatFilter.always f
           ∧ PeerData.kind (History.peer h) = PeerData.Other) →
     CollectFilterLinkChats f
     = Fatal (UnexpectedValue "Peer type in ErrorForSharing."))
  ∧ (∀ h, sharable h = true ↔ ErrorForSharing h = Ok None)
  ∧ (∀ h, sharable h = true
          ↔ (∃ chat, PeerData.kind (History.peer h) = PeerData.Chat chat
                     ∧ ChatData.canHaveInviteLink chat = true)
            ∨ (∃ channel,
                 PeerData.kind (History.peer h) = PeerData.Channel channel
                 ∧ ChannelData.canHaveInviteLink channel = true)).
Proof.
  split; [|split; [|split]].
  - intros Hknown. unfold CollectFilterLinkChats. now apply CollectChats_known.
  - intros Hother. unfold CollectFilterLinkChats.
    now apply CollectChats_unknown.
  - apply sharable_true.
  - apply sharable_kind.
Qed.

Lemma CollectFilterLinkChats_sharable_witness :
  @CollectFilterLinkChats Sample.lang
    (Sample.filter 0
       [Sample.bot; Sample.group 5 true; Sample.person;
        Sample.channel 6 false true; Sample.channel 7 true false;
        Sample.group 8 false] [])
  = Ok [Sample.group 5 true; Sample.channel 7 true false].
Proof.
  apply (proj1 (@CollectFilterLinkChats_sharable Sample.lang
                  (Sample.filter 0
                     [Sample.bot; Sample.group 5 true; Sample.person;
                      Sample.channel 6 false true; Sample.channel 7 true false;
                      Sample.group 8 false] []))).
  intros h Hin. simpl in Hin.
  repeat (apply elem_of_cons in Hin; destruct Hin as [->|Hin];
          [discriminate|]).
  now apply not_elem_of_nil in Hin.
Defined.

(** ** Reconciling the links list *)

Section Rebuild.
Context `{Lang}.
Import PeerListDelegate.

Lemma rebuild_fill_spec (snapshot : list InviteLinkData.t) :
  ∀ (budget i count : nat) (done pending : list Row.t) (ev : list Event),
    length done = i →
    (count - i)%nat = length pending →
    (length snapshot - i ≤ budget)%nat →
    LinksController.rebuild_fill budget snapshot i count
      {| rows := done ++ pending; events := ev |}
    = Ok (Nat.max i (length snapshot),
          {| rows := done ++ reconcile pending (drop i snapshot)
                       ++ drop (length snapshot - i) pending;
             events := ev ++ update_events
                               (take (length snapshot - i) pending) |}).
Proof.
  induction budget as [|budget IH]; intros i count done pending ev Hi Hc Hb.
  - assert (Hge : (length snapshot ≤ i)%nat) by lia.
    simpl. rewrite (lookup_ge_None_2 snapshot i Hge).
    rewrite (drop_ge snapshot i Hge).
    replace (length snapshot - i)%nat with 0%nat by lia.
    rewrite Nat.max_l by lia. simpl.
    now rewrite drop_0, !app_nil_r.
  - simpl. destruct (snapshot !! i) as [data|] eqn:Hdata.
    + pose proof (lookup_lt_Some _ _ _ Hdata) as Hlt.
      rewrite (drop_S _ _ _ Hdata).
      replace (length snapshot - i)%nat
        with (S (length snapshot - S i)) by lia.
      destruct pending as [|row pending'].
      * assert (Hnot : (i <? count)%nat = false)
          by (apply Nat.ltb_ge; simpl in Hc; lia).
        rewrite Hnot. simpl.
        unfold LinksController.appendRow, peerListAppendRow. simpl.
        rewrite app_nil_r.
        rewrite <- (app_nil_r (done ++ [Row.new data])).
        rewrite (IH (S i) count (done ++ [Row.new data]) [] ev);
          [|rewrite length_app; simpl; lia|simpl in *; lia|lia].
        rewrite Nat.max_r by lia. rewrite (Nat.max_r i) by lia.
        rewrite drop_nil, take_nil. simpl.
        now rewrite <- !app_assoc.
      * assert (Hyes : (i <? count)%nat = true)
          by (apply Nat.ltb_lt; simpl in Hc; lia).
        rewrite Hyes.
        unfold LinksController.updateRowAt, peerListRowAt. simpl.
        assert (Hrow : (done ++ row :: pending') !! i = Some row).
        { rewrite lookup_app_r by lia.
          replace (i - length done)%nat with 0%nat by lia. reflexivity. }
        rewrite Hrow. simpl.
        unfold modifyRow, peerListUpdateRow, notify. simpl.
        assert (Halter : alter (Row.update data) i (done ++ row :: pending')
                         = (done ++ [Row.update data row]) ++ pending').
        { rewrite alter_app_r_alt by lia.
          replace (i - length done)%nat with 0%nat by lia.
          simpl. now rewrite <- app_assoc. }
        rewrite Halter.
        rewrite (IH (S i) count (done ++ [Row.update data row]) pending'
                    (ev ++ [PeerListUpdateRow (Row.id row)]));
          [|rewrite length_app; simpl; lia|simpl in *; lia|lia].
        rewrite Nat.max_r by lia. rewrite (Nat.max_r i) by lia.
        simpl. unfold update_events. simpl.
        now rewrite <- !app_assoc.
    + apply lookup_ge_None_1 in Hdata.
      rewrite (drop_ge snapshot i Hdata).
      replace (length snapshot - i)%nat with 0%nat by lia.
      rewrite Nat.max_l by lia. simpl.
      now rewrite drop_0, !app_nil_r.
Qed.

Lemma rebuild_trim_spec :
  ∀ (budget i count : nat) (kept extra : list Row.t) (ev : list Event),
    length kept = i →
    (count - i)%nat = length extra →
    (length extra ≤ budget)%nat →
    LinksController.rebuild_trim budget i count
      {| rows := kept ++ extra; events := ev |}
    = Ok {| rows := kept; events := ev |}.
Proof.
  induction budget as [|budget IH]; intros i count kept extra ev Hi Hc Hb.
  - destruct extra; [|simpl in Hb; lia].
    simpl. replace (i <? count)%nat with false
      by (symmetry; apply Nat.ltb_ge; simpl in Hc; lia).
    now rewrite app_nil_r.
  - simpl. destruct extra as [|row extra'].
    + replace (i <? count)%nat with false
        by (symmetry; apply Nat.ltb_ge; simpl in Hc; lia).
      now rewrite app_nil_r.
    + replace (i <? count)%nat with true
        by (symmetry; apply Nat.ltb_lt; simpl in Hc; lia).
      unfold peerListRowAt, peerListRemoveRow. simpl.
      assert (Hrow : (kept ++ row :: extra') !! i = Some row).
      { rewrite lookup_app_r by lia.
        replace (i - length kept)%nat with 0%nat by lia. reflexivity. }
      rewrite Hrow. simpl.
      assert (Hdel : delete i (kept ++ row :: extra') = kept ++ extra').
      { rewrite <- Hi. apply delete_middle. }
      rewrite Hdel.
      apply IH; [assumption|simpl in *; lia|simpl in Hb; lia].
Qed.

Lemma reconcile_length (displayed : list Row.t)
    (snapshot : list InviteLinkData.t) :
  length (reconcile displayed snapshot) = length snapshot.
Proof.
  revert displayed.
  induction snapshot as [|data snapshot IH]; intros [|row displayed];
    simpl; try reflexivity; now rewrite IH.
Qed.



Lemma reconcile_data (displayed : list Row.t)
    (snapshot : list InviteLinkData.t) :
  Row.data <$> reconcile displayed snapshot = snapshot.
Proof.
  revert displayed.
  induction snapshot as [|data snapshot IH]; intros [|row displayed];
    simpl; try reflexivity; now rewrite IH.
Qed.

Lemma rebuild_result (snapshot : list InviteLinkData.t)
    (d : LinksController.Delegate) :
  LinksController.rebuild snapshot d
  = Ok {| rows := reconcile (rows d) snapshot;
          events := events d
                    ++ update_events (take (length snapshot) (rows d))
                    ++ [PeerListRefreshRows] |}.
Proof.
  unfold LinksController.rebuild, peerListFullRowsCount.
  destruct d as [displayed ev]. simpl.
  pose proof (rebuild_fill_spec snapshot (length snapshot) 0
                (length displayed) [] displayed ev
                eq_refl ltac:(lia) ltac:(lia)) as Hfill.
  change ([] ++ displayed) with displayed in Hfill.
  rewrite Hfill. clear Hfill.
  simpl. rewrite Nat.sub_0_r, drop_0.
  rewrite (rebuild_trim_spec (length displayed) (length snapshot)
             (length displayed) (reconcile displayed snapshot)
             (drop (length snapshot) displayed));
    [|apply reconcile_length|rewrite length_drop; lia
     |rewrite length_drop; lia].
  simpl. unfold peerListRefreshRows, notify. simpl.
  now rewrite <- app_assoc.
Qed.

End Rebuild.

(** Three displayed rows against a snapshot of two links, and one displayed
    row against a snapshot of three. *)
Example rebuild_samples :
  let a := Sample.link "https://t.me/+a" "" [] in
  let b := Sample.link "https://t.me/+b" "Team" [Sample.group 5 true] in
  let c := Sample.link "https://t.me/+c" "" [] in
  let row := @Row.new Sample.lang in
  let upd := @Row.update Sample.lang in
  @LinksController.rebuild Sample.lang [b; c]
    {| PeerListDelegate.rows := [row a; row b; row c];
       PeerListDelegate.events := [] |}
  = Ok {| PeerListDelegate.rows := [upd b (row a); upd c (row b)];
          PeerListDelegate.events :=
            [PeerListUpdateRow (ComputeRowId (qs "https://t.me/+a"));
             PeerListUpdateRow (ComputeRowId (qs "https://t.me/+b"));
             PeerListRefreshRows] |}
  ∧ @LinksController.rebuild Sample.lang [b; c; a]
      {| PeerListDelegate.rows := [row a];
         PeerListDelegate.events := [] |}
    = Ok {| PeerListDelegate.rows := [upd b (row a); row c; row a];
            PeerListDelegate.events :=
              [PeerListUpdateRow (ComputeRowId (qs "https://t.me/+a"));
               PeerListRefreshRows] |}.
Proof. vm_compute. split; reflexivity. Qed.

(** ** The per-link chat selection *)

Section Selection.
Context `{lang : Lang}.
Import PeerListDelegate LinkController.

Lemma prepare_chat_fold (chats : list History.t) :
  ∀ (c : LinkController.t) (d : Delegate),
    fst (fold_left prepare_chat chats (c, d))
    = set_initial (list_to_set (History.peer <$> chats) ∪ _initial c) c.
Proof.
  induction chats as [|h chats IH]; intros c d; simpl.
  - destruct c; unfold set_initial; simpl. f_equal. set_solver.
  - rewrite IH. unfold set_initial; simpl. f_equal. set_solver.
Qed.

Lemma prepare_filter_chat_frame (s s' : LinkController.t * Delegate)
    (history : History.t) :
  prepare_filter_chat s history = Ok s' →
  _initial (fst s') = _initial (fst s)
  ∧ _selected (fst s') = _selected (fst s)
  ∧ _hasChanges (fst s') = _hasChanges (fst s)
  ∧ _data (fst s') = _data (fst s).
Proof.
  destruct s as [c d]. unfold prepare_filter_chat.
  destruct (peerListFindRow _ d); [intros [= <-]; auto|].
  destruct (ErrorForSharing history) as [[e|]|flt]; simpl;
    [intros [= <-]; auto| |discriminate].
  destruct (isEmpty _); intros [= <-]; auto.
Qed.

Lemma prepare_filter_chats_frame (chats : list History.t) :
  ∀ s s' : LinkController.t * Delegate,
    prepare_filter_chats s chats = Ok s' →
    _initial (fst s') = _initial (fst s)
    ∧ _selected (fst s') = _selected (fst s)
    ∧ _hasChanges (fst s') = _hasChanges (fst s)
    ∧ _data (fst s') = _data (fst s).
Proof.
  induction chats as [|h chats IH]; intros s s'; simpl.
  - intros [= <-]. auto.
  - destruct (prepare_filter_chat s h) as [s1|flt] eqn:E; [|discriminate].
    simpl. intros Hrest.
    destruct (prepare_filter_chat_frame _ _ _ E) as (I1 & S1 & H1 & D1).
    destruct (IH _ _ Hrest) as (I2 & S2 & H2 & D2).
    repeat split; congruence.
Qed.

Lemma prepare_filter_chats_fault (chats : list History.t) :
  ∀ (s : LinkController.t * Delegate) (flt : Fault),
    prepare_filter_chats s chats = Fatal flt →
    flt = UnexpectedValue "Peer type in ErrorForSharing.".
Proof.
  induction chats as [|h chats IH]; intros s flt; simpl; [discriminate|].
  destruct (prepare_filter_chat s h) as [s1|flt1] eqn:E; simpl.
  - apply IH.
  - intros [= <-]. destruct s as [c d]. unfold prepare_filter_chat in E.
    destruct (peerListFindRow _ d); [discriminate|].
    unfold ErrorForSharing in E.
    repeat match type of E with
           | context [match ?x with _ => _ end] => destruct x; simpl in E
           end; try discriminate.
    all: now injection E as <-.
Qed.

Lemma prepare_prepared (c c' : LinkController.t) (d d' : Delegate) :
  prepare c d = Ok (c', d') →
  _initial c'
  = list_to_set (History.peer <$> InviteLinkData.chats (_data c)) ∪ _initial c
  ∧ _selected c' = _initial c'
  ∧ _hasChanges c' = _hasChanges c
  ∧ _data c' = _data c.
Proof.
  unfold prepare.
  destruct (Expects _ _) as [[]|flt]; simpl; [|discriminate].
  destruct (prepare_filter_chats _ _) as [[c1 d1]|flt] eqn:E; simpl;
    [|discriminate].
  intros [= <- <-]. simpl.
  destruct (prepare_filter_chats_frame _ _ _ E) as (I1 & S1 & H1 & D1).
  simpl in *. rewrite prepare_chat_fold in I1, H1, D1. simpl in *.
  repeat split; assumption.
Qed.

Lemma rowClicked_initial (s : LinkController.t * Delegate) (index : nat) :
  _initial (fst (rowClicked s index)) = _initial (fst s).
Proof.
  destruct s as [c d]. unfold rowClicked.
  destruct (rows d !! index) as [row|]; [|reflexivity].
  destruct (PeerListRow.peer row) as [p|]; [|reflexivity].
  destruct (_denied c !! p) as [reason|]; [|reflexivity].
  destruct (negb (isEmpty reason)); reflexivity.
Qed.

Lemma rowClicked_tracked (s : LinkController.t * Delegate) (index : nat) :
  changes_tracked (fst s) → changes_tracked (fst (rowClicked s index)).
Proof.
  destruct s as [c d]. unfold rowClicked, changes_tracked.
  destruct (rows d !! index) as [row|]; [|auto].
  destruct (PeerListRow.peer row) as [p|]; [|auto].
  destruct (_denied c !! p) as [reason|]; [|reflexivity].
  destruct (negb (isEmpty reason)); auto.
Qed.

Lemma rowsClicked_tracked (clicks : list nat) :
  ∀ s : LinkController.t * Delegate,
    changes_tracked (fst s) →
    changes_tracked (fst (rowsClicked s clicks))
    ∧ _initial (fst (rowsClicked s clicks)) = _initial (fst s).
Proof.
  unfold rowsClicked.
  induction clicks as [|i clicks IH]; intros s Hs; simpl; [auto|].
  destruct (IH (rowClicked s i) (rowClicked_tracked s i Hs)) as [Ht Hi].
  split; [exact Ht|]. rewrite Hi. apply rowClicked_initial.
Qed.

End Selection.


Example shared_state_prepared :
  @LinkController.prepare Sample.lang
    (LinkController.new Sample.work_filter Sample.shared_link)
    PeerListDelegate.empty
  = Ok Sample.shared_state.
Proof. vm_compute. reflexivity. Qed.

Example draft_state_prepared :
  @LinkController.prepare Sample.lang
    (LinkController.new Sample.draft_filter Sample.draft_link)
    PeerListDelegate.empty
  = Ok Sample.draft_state.
Proof. vm_compute. reflexivity. Qed.

Section Editor.
Context `{lang : Lang}.
Import PeerListDelegate LinkController.

(** C5, amended. [prepare] fails its precondition exactly when the link has
    an empty url and a chat: a link without url must have no chats. A link
    with a url and no chats passes the check. *)
Theorem prepare_precondition (c : LinkController.t) (d : Delegate) :
  prepare c d
  = Fatal (ExpectsFailed "!_data.url.isEmpty() || _data.chats.empty()")
  ↔ InviteLinkData.url (_data c) = []
    ∧ InviteLinkData.chats (_data c) ≠ [].
Proof.
  unfold prepare, Expects.
  destruct (InviteLinkData.url (_data c)) as [|u url] eqn:Hurl; simpl.
  - destruct (decide (InviteLinkData.chats (_data c) = [])) as [Hc|Hc].
    + rewrite bool_decide_eq_true_2 by exact Hc. simpl.
      split; [|tauto]. intros Hf. exfalso.
      destruct (prepare_filter_chats _ _) as [[c1 d1]|flt] eqn:E;
        simpl in Hf; [discriminate|].
      apply prepare_filter_chats_fault in E. congruence.
    + rewrite bool_decide_eq_false_2 by exact Hc. simpl. tauto.
  - split; [|intros [? _]; discriminate]. intros Hf. exfalso.
    destruct (prepare_filter_chats _ _) as [[c1 d1]|flt] eqn:E;
      simpl in Hf; [discriminate|].
    apply prepare_filter_chats_fault in E. congruence.
Qed.

(** C8, amended. A click on a denied chat changes nothing in the
    controller and no row; it shows the denial reason as a toast when the
    reason is not empty, and shows nothing when it is empty. *)
Theorem rowClicked_denied (c : LinkController.t) (d : Delegate)
    (index : nat) (row : PeerListRow.t) (peer : PeerData.t)
    (reason : QString) :
  rows d !! index = Some row →
  PeerListRow.peer row = Some peer →
  _denied c !! peer = Some reason →
  rowClicked (c, d) index
  = (c, if isEmpty reason then d else notify (ShowMultilineToast reason) d)
  ∧ rows (snd (rowClicked (c, d) index)) = rows d
  ∧ _selected (fst (rowClicked (c, d) index)) = _selected c
  ∧ _hasChanges (fst (rowClicked (c, d) index)) = _hasChanges c
  ∧ events (snd (rowClicked (c, d) index))
    = events d ++ (if isEmpty reason then []
                   else [ShowMultilineToast reason]).
Proof.
  intros Hrow Hpeer Hdenied. unfold rowClicked.
  rewrite Hrow, Hpeer, Hdenied.
  destruct (isEmpty reason); simpl; rewrite ?app_nil_r; auto.
Qed.

End Editor.

Lemma rowClicked_denied_witness :
  LinkController.rowClicked Sample.shared_state 1
  = (fst Sample.shared_state,
     PeerListDelegate.notify
       (ShowMultilineToast (qs "lng_filters_link_bot_error"))
       (snd Sample.shared_state)).
Proof.
  apply (rowClicked_denied (fst Sample.shared_state)
           (snd Sample.shared_state) 1
           (PeerListRow.setCustomStatus (qs "lng_filters_link_bot_status")
              (PeerListRow.of_peer Sample.bot))
           Sample.bot (qs "lng_filters_link_bot_error")).
  - reflexivity.
  - reflexivity.
  - vm_compute. reflexivity.
Defined.

(** A link with a url and no chats breaks the precondition as the
    specification words it, and [prepare] accepts it. *)
Lemma prepare_accepts_url_without_chats :
  ¬ (∀ (c : LinkController.t) (d : LinkController.Delegate),
       InviteLinkData.chats (LinkController._data c) = [] →
       InviteLinkData.url (LinkController._data c) ≠ [] →
       is_Ok (@LinkController.prepare Sample.lang c d) = false).
Proof.
  intros Hclaim.
  specialize (Hclaim
    (LinkController.new Sample.work_filter
       (Sample.link "https://t.me/+abc" "" []))
    PeerListDelegate.empty eq_refl ltac:(discriminate)).
  vm_compute in Hclaim. discriminate.
Qed.

(** A chat denied without a reason shows no toast when clicked. *)
Lemma rowClicked_denied_silent :
  ¬ (∀ (c : LinkController.t) (d : LinkController.Delegate) (index : nat)
       (row : PeerListRow.t) (peer : PeerData.t) (reason : QString),
       PeerListDelegate.rows d !! index = Some row →
       PeerListRow.peer row = Some peer →
       LinkController._denied c !! peer = Some reason →
       LinkController.rowClicked (c, d) index
       = (c, PeerListDelegate.notify (ShowMultilineToast reason) d)).
Proof.
  intros Hclaim.
  specialize (Hclaim (fst Sample.draft_state) (snd Sample.draft_state) 0%nat
                (PeerListRow.of_peer (Sample.group 5 true))
                (Sample.group 5 true) [] eq_refl eq_refl).
  assert (Hd : LinkController._denied (fst Sample.draft_state)
               !! Sample.group 5 true = Some [])
    by (vm_compute; reflexivity).
  specialize (Hclaim Hd).
  apply (f_equal (fun s => length (PeerListDelegate.events (snd s))))
    in Hclaim.
  vm_compute in Hclaim. discriminate.
Qed.

Section Toggle.
Context `{lang : Lang}.
Import PeerListDelegate LinkController.

Lemma prepare_filter_chat_first_row (row0 : PeerListRow.t)
    (s s' : LinkController.t * Delegate) (history : History.t) :
  first_row_kept row0 s →
  prepare_filter_chat s history = Ok s' →
  first_row_kept row0 s'.
Proof.
  destruct s as [c d]. intros [[rest Hrows] Hden]. simpl in *.
  unfold prepare_filter_chat, peerListFindRow.
  destruct (list_find _ (rows d)) as [found|] eqn:Hfind; simpl;
    [intros [= <-]; split; eauto|].
  apply list_find_None in Hfind. rewrite Hrows in Hfind.
  apply Forall_cons in Hfind. destruct Hfind as [Hid _].
  assert (Hkeys : ∀ reason p,
            is_Some (emplace (History.peer history) reason (_denied c) !! p) →
            PeerData.id p ≠ PeerListRow.id row0).
  { intros reason p. unfold emplace.
    destruct (_denied c !! History.peer history); [apply Hden|].
    destruct (decide (History.peer history = p)) as [<-|Hne].
    - intros _. congruence.
    - rewrite lookup_insert_ne by exact Hne. apply Hden. }
  destruct (ErrorForSharing history) as [[e|]|flt]; simpl; [| |discriminate].
  - intros [= <-]. split; simpl.
    + unfold peerListFullRowsCount. simpl. rewrite Hrows. simpl.
      eexists. reflexivity.
    + apply Hkeys.
  - destruct (isEmpty _); intros [= <-]; split; simpl;
      try (rewrite Hrows; simpl; eexists; reflexivity);
      [apply Hkeys|apply Hden].
Qed.

Lemma prepare_filter_chats_first_row (row0 : PeerListRow.t)
    (chats : list History.t) :
  ∀ s s' : LinkController.t * Delegate,
    first_row_kept row0 s →
    prepare_filter_chats s chats = Ok s' →
    first_row_kept row0 s'.
Proof.
  induction chats as [|h chats IH]; intros s s' Hs; simpl.
  - now intros [= <-].
  - destruct (prepare_filter_chat s h) as [s1|flt] eqn:E; [|discriminate].
    simpl. apply IH. eapply prepare_filter_chat_first_row; eassumption.
Qed.

Lemma prepare_single_chat (f : ChatFilter.t) (data : InviteLinkData.t)
    (h : History.t) (s : LinkController.t * Delegate) :
  InviteLinkData.chats data = [h] →
  prepare (new f data) empty = Ok s →
  (∃ rest,
     rows (snd s)
     = PeerListRow.setChecked true (PeerListRow.of_peer (History.peer h))
       :: rest)
  ∧ _denied (fst s) !! History.peer h = None
  ∧ _selected (fst s) = {[History.peer h]}
  ∧ _initial (fst s) = {[History.peer h]}
  ∧ _hasChanges (fst s) = false.
Proof.
  intros Hchats Hprep.
  destruct s as [c d].
  destruct (prepare_prepared _ _ _ _ Hprep) as (Hi & Hs & Hh & _).
  simpl in Hi, Hh. rewrite Hchats in Hi. simpl in Hi.
  assert (Hone : _initial c = {[History.peer h]}) by (rewrite Hi; set_solver).
  unfold prepare in Hprep.
  destruct (Expects _ _) as [[]|flt]; simpl in Hprep; [|discriminate].
  rewrite Hchats in Hprep. simpl in Hprep.
  destruct (prepare_filter_chats _ _) as [[c1 d1]|flt] eqn:E;
    simpl in Hprep; [|discriminate].
  injection Hprep as <- <-.
  apply (prepare_filter_chats_first_row
           (PeerListRow.setChecked true
              (PeerListRow.of_peer (History.peer h)))) in E.
  - destruct E as [[rest Hrows] Hden]. simpl in *.
    repeat split; try congruence.
    + exists rest. exact Hrows.
    + destruct (_denied c1 !! History.peer h) eqn:Hl; [|reflexivity].
      exfalso. apply (Hden (History.peer h)); [eauto|reflexivity].
  - split; simpl.
    + eexists. reflexivity.
    + intros p [x Hx]. rewrite lookup_empty in Hx. discriminate.
Qed.

Lemma emplace_keeps (p q : PeerData.t) (reason : QString)
    (denied : gmap PeerData.t QString) :
  is_Some (denied !! q) → is_Some (emplace p reason denied !! q).
Proof.
  unfold emplace. intros Hq.
  destruct (denied !! p) eqn:Hp; [exact Hq|].
  destruct (decide (p = q)) as [<-|Hne].
  - rewrite Hp in Hq. now destruct Hq.
  - now rewrite lookup_insert_ne.
Qed.

Lemma emplace_has (p : PeerData.t) (reason : QString)
    (denied : gmap PeerData.t QString) :
  is_Some (emplace p reason denied !! p).
Proof.
  unfold emplace. destruct (denied !! p) eqn:Hp; [rewrite Hp; eauto|].
  rewrite lookup_insert_eq. eauto.
Qed.

Lemma prepare_filter_chat_all_denied (s s' : LinkController.t * Delegate)
    (history : History.t) :
  InviteLinkData.url (_data (fst s)) = [] →
  all_denied s →
  prepare_filter_chat s history = Ok s' →
  all_denied s'.
Proof.
  destruct s as [c d]. simpl. intros Hurl Hall.
  unfold prepare_filter_chat.
  destruct (peerListFindRow _ d); [now intros [= <-]|].
  destruct (ErrorForSharing history) as [[e|]|flt]; simpl; [| |discriminate].
  - intros [= <-]. intros row Hin. simpl in *.
    unfold peerListFullRowsCount in Hin. simpl in Hin.
    rewrite alter_app_r_alt in Hin by lia.
    rewrite Nat.sub_diag in Hin. simpl in Hin.
    apply elem_of_app in Hin. destruct Hin as [Hin|Hin].
    + destruct (Hall row Hin) as (p & Hp & Hd).
      exists p. split; [exact Hp|]. now apply emplace_keeps.
    + apply list_elem_of_singleton in Hin. subst row. simpl.
      eexists. split; [reflexivity|]. apply emplace_has.
  - rewrite Hurl. simpl. intros [= <-]. intros row Hin. simpl in *.
    apply elem_of_app in Hin. destruct Hin as [Hin|Hin].
    + destruct (Hall row Hin) as (p & Hp & Hd).
      exists p. split; [exact Hp|]. now apply emplace_keeps.
    + apply list_elem_of_singleton in Hin. subst row. simpl.
      eexists. split; [reflexivity|]. apply emplace_has.
Qed.

Lemma prepare_filter_chats_all_denied (chats : list History.t) :
  ∀ s s' : LinkController.t * Delegate,
    InviteLinkData.url (_data (fst s)) = [] →
    all_denied s →
    prepare_filter_chats s chats = Ok s' →
    all_denied s'.
Proof.
  induction chats as [|h chats IH]; intros s s' Hurl Hall; simpl.
  - now intros [= <-].
  - destruct (prepare_filter_chat s h) as [s1|flt] eqn:E; [|discriminate].
    simpl. apply IH.
    + destruct (prepare_filter_chat_frame _ _ _ E) as (_ & _ & _ & Hd).
      now rewrite Hd.
    + eapply prepare_filter_chat_all_denied; eassumption.
Qed.

Lemma rowClicked_all_denied (s : LinkController.t * Delegate) (index : nat) :
  all_denied s →
  fst (rowClicked s index) = fst s ∧ all_denied (rowClicked s index).
Proof.
  destruct s as [c d]. intros Hall. unfold rowClicked.
  destruct (rows d !! index) as [row|] eqn:Hrow; [|auto].
  destruct (Hall row) as (p & Hp & [reason Hd]).
  { apply list_elem_of_lookup. eauto. }
  rewrite Hp. simpl in Hd. rewrite Hd.
  destruct (negb (isEmpty reason)); auto.
Qed.

(** A link without url never gets changes: all its rows are denied, so no
    click reaches the selection. *)
Lemma draft_never_changes (f : ChatFilter.t) (data : InviteLinkData.t)
    (s : LinkController.t * Delegate) (clicks : list nat) :
  InviteLinkData.url data = [] →
  prepare (new f data) empty = Ok s →
  fst (rowsClicked s clicks) = fst s
  ∧ _hasChanges (fst (rowsClicked s clicks)) = false.
Proof.
  intros Hurl Hprep.
  assert (Hall : all_denied s).
  { unfold prepare in Hprep. simpl in Hprep. rewrite Hurl in Hprep.
    simpl in Hprep. unfold Expects in Hprep.
    destruct (decide (InviteLinkData.chats data = [])) as [Hc|Hc].
    - rewrite bool_decide_eq_true_2 in Hprep by exact Hc. simpl in Hprep.
      rewrite Hc in Hprep. simpl in Hprep.
      destruct (prepare_filter_chats _ _) as [[c1 d1]|flt] eqn:E;
        simpl in Hprep; [|discriminate].
      injection Hprep as <-.
      apply prepare_filter_chats_all_denied in E.
      + intros row Hin. apply (E row Hin).
      + exact Hurl.
      + intros row Hin. simpl in Hin. now apply not_elem_of_nil in Hin.
    - rewrite bool_decide_eq_false_2 in Hprep by exact Hc. discriminate. }
  assert (Hfalse : _hasChanges (fst s) = false).
  { destruct s as [c d].
    now destruct (prepare_prepared _ _ _ _ Hprep) as (_ & _ & Hh & _). }
  clear Hprep. unfold rowsClicked.
  revert s Hall Hfalse.
  induction clicks as [|i clicks IH]; intros s Hall Hfalse; simpl; [auto|].
  destruct (rowClicked_all_denied s i Hall) as [Hsame Hall'].
  destruct (IH (rowClicked s i) Hall') as [Hc Hh]; [now rewrite Hsame|].
  split; [now rewrite Hc|exact Hh].
Qed.

(** C4. From the state [prepare] leaves, after any sequence of row clicks,
    [_hasChanges] is false exactly when the selection equals the initial
    selection, which is the set of the link's chats and never changes.
    For a link with one chat, a click on its row empties the selection and
    raises [_hasChanges]; a second click restores the selection, the rows
    and [_hasChanges = false]. *)
Theorem hasChanges_tracks_selection (f : ChatFilter.t)
    (data : InviteLinkData.t) (d0 : Delegate)
    (s : LinkController.t * Delegate) (clicks : list nat) :
  prepare (new f data) d0 = Ok s →
  (_hasChanges (fst (rowsClicked s clicks)) = false
   ↔ _selected (fst (rowsClicked s clicks))
     = _initial (fst (rowsClicked s clicks)))
  ∧ _initial (fst (rowsClicked s clicks))
    = list_to_set (History.peer <$> InviteLinkData.chats data)
  ∧ _selected (fst s) = _initial (fst s)
  ∧ _hasChanges (fst s) = false
  ∧ (∀ h, InviteLinkData.chats data = [h] → d0 = empty →
       _selected (fst (rowClicked s 0)) = ∅
       ∧ _hasChanges (fst (rowClicked s 0)) = true
       ∧ _selected (fst (rowClicked (rowClicked s 0) 0)) = {[History.peer h]}
       ∧ _hasChanges (fst (rowClicked (rowClicked s 0) 0)) = false
       ∧ rows (snd (rowClicked (rowClicked s 0) 0)) = rows (snd s)).
Proof.
  intros Hprep. destruct s as [c d].
  destruct (prepare_prepared _ _ _ _ Hprep) as (Hi & Hs & Hh & Hd).
  simpl in Hi, Hh, Hd.
  assert (Htracked : changes_tracked (fst (c, d))).
  { unfold changes_tracked. simpl. rewrite Hh, Hs.
    symmetry. apply bool_decide_eq_false_2. auto. }
  destruct (rowsClicked_tracked clicks (c, d) Htracked) as [Ht Hinit].
  split; [|split; [|split; [|split]]].
  - rewrite Ht. rewrite bool_decide_eq_false. split.
    + intros Hnn. destruct (decide (_selected (fst (rowsClicked (c, d) clicks))
                                    = _initial (fst (rowsClicked (c, d) clicks))))
        as [?|Hne]; [assumption|].
      exfalso. apply Hnn. congruence.
    + intros -> Hne. now apply Hne.
  - rewrite Hinit. simpl. rewrite Hi. set_solver.
  - exact Hs.
  - exact Hh.
  - intros h Hchats ->.
    destruct (prepare_single_chat f data h (c, d) Hchats Hprep)
      as ([rest Hrows] & Hden & Hsel & Hini & _).
    simpl in Hrows, Hden, Hsel, Hini.
    assert (Hempty : ({[History.peer h]} ∖ {[History.peer h]}
                      : gset PeerData.t) = ∅) by set_solver.
    assert (Hback : ({[History.peer h]} ∪ ∅ : gset PeerData.t)
                    = {[History.peer h]}) by set_solver.
    assert (H1 : rowClicked (c, d) 0
                 = (set_hasChanges true (set_selected ∅ c),
                    {| rows := PeerListRow.setChecked false
                                 (PeerListRow.of_peer (History.peer h))
                               :: rest;
                       events := events d |})).
    { unfold rowClicked. rewrite Hrows. simpl. rewrite Hden. simpl.
      rewrite Hsel, Hini, Hempty.
      rewrite bool_decide_eq_true_2 by set_solver.
      unfold peerListSetRowChecked, modifyRow. rewrite Hrows. reflexivity. }
    rewrite H1.
    assert (H2 : rowClicked
                   (set_hasChanges true (set_selected ∅ c),
                    {| rows := PeerListRow.setChecked false
                                 (PeerListRow.of_peer (History.peer h))
                               :: rest;
                       events := events d |}) 0
                 = (set_hasChanges false
                      (set_selected {[History.peer h]}
                         (set_hasChanges true (set_selected ∅ c))),
                    {| rows := rows d; events := events d |})).
    { unfold rowClicked. simpl. rewrite Hden. simpl.
      rewrite Hini, Hback.
      rewrite bool_decide_eq_false_2 by auto.
      unfold peerListSetRowChecked, modifyRow. simpl.
      rewrite Hrows. reflexivity. }
    rewrite H2. simpl. auto.
Qed.

End Toggle.

Lemma hasChanges_tracks_selection_witness :
  LinkController._hasChanges
    (fst (LinkController.rowsClicked Sample.shared_state [0; 2; 1; 2; 0]%nat))
  = false
  ↔ LinkController._selected
      (fst (LinkController.rowsClicked Sample.shared_state [0; 2; 1; 2; 0]%nat))
    = LinkController._initial
        (fst (LinkController.rowsClicked Sample.shared_state
                [0; 2; 1; 2; 0]%nat)).
Proof.
  apply (@hasChanges_tracks_selection Sample.lang Sample.work_filter
           Sample.shared_link PeerListDelegate.empty Sample.shared_state
           [0; 2; 1; 2; 0]%nat).
  vm_compute. reflexivity.
Defined.

(** Adding a second chat to the selection is a change; taking it out again
    is none. *)
Example shared_state_clicks :
  LinkController._hasChanges
    (fst (LinkController.rowsClicked Sample.shared_state [2]%nat)) = true
  ∧ LinkController._selected
      (fst (LinkController.rowsClicked Sample.shared_state [2]%nat))
    = {[Sample.group 5 true; Sample.group 6 true]}
  ∧ LinkController._hasChanges
      (fst (LinkController.rowsClicked Sample.shared_state [2; 2]%nat))
    = false
  ∧ LinkController.rowsClicked Sample.shared_state [2; 0; 0; 2]%nat
    = Sample.shared_state.
Proof. vm_compute. repeat split; reflexivity. Qed.

(** ** The footer of the link box *)

Section Footer.
Context `{lang : Lang}.
Import ShowLinkBox.

(** C6. Pressing Save with an empty selection shows the empty-selection
    toast and sends nothing; with a chosen chat it calls [EditLinkChats]
    with the selection, which sends the edit request for an existing link.
    The box holds Save and Cancel exactly when [hasChanges] is true, and
    otherwise the single Done button, which closes the box. Whenever the
    controller of the box has changes, the link has a url. *)
Theorem ShowLinkBox_footer (link : InviteLinkData.t)
    (raw : LinkController.t) (box : Box) :
  (LinkController.selected raw = ∅ →
   press link raw Save = Ok [ShowMultilineToast (tr lng_filters_empty)]
   ∧ ∀ events request,
       press link raw Save = Ok events → SendRequest request ∉ events)
  ∧ (LinkController.selected raw ≠ ∅ →
     press link raw Save = EditLinkChats link (LinkController.selected raw)
     ∧ (InviteLinkData.id link ≠ 0 → InviteLinkData.url link ≠ [] →
        press link raw Save
        = Ok [SendRequest
                (MTPcommunities_EditExportedInvite
                   (InviteLinkData.id link) (InviteLinkData.url link)
                   (elements (LinkController.selected raw)))]))
  ∧ buttons (on_hasChanges (LinkController.hasChangesValue raw) box)
    = (if LinkController._hasChanges raw
       then [{| text := lng_settings_save; clicked := Save |};
             {| text := lng_cancel; clicked := Close |}]
       else [{| text := lng_about_done; clicked := Close |}])
  ∧ (LinkController._hasChanges raw = true
     ↔ ∃ b, b ∈ buttons (on_hasChanges (LinkController.hasChangesValue raw)
                           box)
            ∧ clicked b = Save)
  ∧ press link raw Close = Ok [CloseBox]
  ∧ (∀ f s clicks,
       LinkController.prepare (LinkController.new f link)
         PeerListDelegate.empty = Ok s →
       raw = fst (LinkController.rowsClicked s clicks) →
       LinkController._hasChanges raw = true →
       InviteLinkData.url link ≠ []).
Proof.
  split; [|split; [|split; [|split; [|split]]]].
  - intros Hempty. unfold press. rewrite bool_decide_eq_true_2 by exact Hempty.
    split; [reflexivity|].
    intros events request [= <-] Hin. unfold ShowEmptyLinkError in Hin.
    apply list_elem_of_singleton in Hin. discriminate.
  - intros Hsome. unfold press.
    rewrite bool_decide_eq_false_2 by exact Hsome.
    split; [reflexivity|]. intros Hid Hurl.
    unfold EditLinkChats, Expects.
    rewrite bool_decide_eq_false_2 by exact Hsome. simpl.
    destruct (InviteLinkData.id link =? 0) eqn:E;
      [apply Z.eqb_eq in E; contradiction|]. simpl.
    destruct (InviteLinkData.url link); [contradiction|reflexivity].
  - unfold on_hasChanges, LinkController.hasChangesValue.
    destruct (LinkController._hasChanges raw); reflexivity.
  - unfold on_hasChanges, LinkController.hasChangesValue.
    destruct (LinkController._hasChanges raw); simpl; split.
    + intros _. eexists. split; [left|reflexivity].
    + reflexivity.
    + discriminate.
    + intros (b & Hin & Hsave). apply list_elem_of_singleton in Hin.
      subst b. discriminate.
  - reflexivity.
  - intros f s clicks Hprep -> Hhas Hurl.
    destruct (draft_never_changes f link s clicks Hurl Hprep) as [_ Hno].
    congruence.
Qed.

End Footer.

Lemma ShowLinkBox_footer_witness :
  @ShowLinkBox.press Sample.lang Sample.shared_link
    (fst (LinkController.rowsClicked Sample.shared_state [0]%nat))
    ShowLinkBox.Save
  = Ok [ShowMultilineToast (qs "lng_filters_empty")]
  ∧ @ShowLinkBox.press Sample.lang Sample.shared_link
      (fst (LinkController.rowsClicked Sample.shared_state [0; 2]%nat))
      ShowLinkBox.Save
    = Ok [SendRequest
            (MTPcommunities_EditExportedInvite 2 (qs "https://t.me/+abc")
               [Sample.group 6 true])].
Proof.
  split.
  - apply (proj1 (@ShowLinkBox_footer Sample.lang Sample.shared_link
                    (fst (LinkController.rowsClicked Sample.shared_state
                            [0]%nat))
                    {| ShowLinkBox.buttons := [] |})).
    vm_compute. reflexivity.
  - assert (Hsel : LinkController.selected
                     (fst (LinkController.rowsClicked Sample.shared_state
                             [0; 2]%nat))
                   = {[Sample.group 6 true]}) by (vm_compute; reflexivity).
    assert (Hel : elements ({[Sample.group 6 true]} : gset PeerData.t)
                  = [Sample.group 6 true]) by apply elements_singleton.
    rewrite <- Hel, <- Hsel.
    apply (proj1 (proj2 (@ShowLinkBox_footer Sample.lang Sample.shared_link
                    (fst (LinkController.rowsClicked Sample.shared_state
                            [0; 2]%nat))
                    {| ShowLinkBox.buttons := [] |}))).
    + rewrite Hsel. intros Habs.
      assert (Sample.group 6 true ∈ (∅ : gset PeerData.t))
        by (rewrite <- Habs; set_solver).
      set_solver.
    + discriminate.
    + discriminate.
Defined.

(** * Further properties *)

(** ** The bytes that are hashed *)

Lemma utf16_unit (c : Z) :
  0 <= c < 65536 →
  Z.land c 255 + 256 * Z.land (Z.shiftr c 8) 255 = c.
Proof.
  intros Hc.
  change 255 with (Z.ones 8).
  rewrite !Z.land_ones, Z.shiftr_div_pow2 by lia.
  change (2 ^ 8) with 256.
  assert (0 <= c / 256 < 256)
    by (split; [apply Z.div_pos; lia|apply Z.div_lt_upper_bound; lia]).
  rewrite (Z.mod_small (c / 256)) by lia.
  pose proof (Z.div_mod c 256 ltac:(lia)). lia.
Qed.

Lemma utf16_byte_range (c : Z) :
  0 <= Z.land c 255 < 256 ∧ 0 <= Z.land (Z.shiftr c 8) 255 < 256.
Proof.
  change 255 with (Z.ones 8).
  rewrite !Z.land_ones by lia. change (2 ^ 8) with 256.
  split; apply Z.mod_pos_bound; lia.
Qed.

(** X1. The bytes handed to XXH64 are two per code unit, each a byte, and
    for strings of 16-bit code units they determine the string: two
    different urls are hashed from different bytes. *)
Theorem utf16_bytes_faithful (link1 link2 : QString) :
  well_formed link1 → well_formed link2 →
  length (utf16_bytes link1) = (2 * length link1)%nat
  ∧ Forall (fun b => 0 <= b < 256) (utf16_bytes link1)
  ∧ (utf16_bytes link1 = utf16_bytes link2 → link1 = link2).
Proof.
  intros Hwf1 Hwf2. split; [|split].
  - clear. induction link1 as [|c s IH]; simpl; [reflexivity|].
    rewrite IH. lia.
  - clear. induction link1 as [|c s IH]; simpl; [constructor|].
    destruct (utf16_byte_range c) as [Hlo Hhi].
    constructor; [exact Hlo|]. constructor; [exact Hhi|exact IH].
  - revert link2 Hwf2.
    induction Hwf1 as [|c s Hc Hs IH]; intros link2 Hwf2;
      destruct Hwf2 as [|c' s' Hc' Hs']; simpl; try discriminate;
      [reflexivity|].
    intros [= Hlo Hhi Hrest].
    f_equal; [|now apply IH].
    rewrite <- (utf16_unit c Hc), <- (utf16_unit c' Hc'). congruence.
Qed.

Lemma utf16_bytes_faithful_witness :
  length (utf16_bytes (qs "https://t.me/+abc")) = 34%nat.
Proof.
  apply (proj1 (utf16_bytes_faithful (qs "https://t.me/+abc") (qs "x")
                  ltac:(repeat constructor; simpl; lia)
                  ltac:(repeat constructor; simpl; lia))).
Defined.

(** ** The name of a links row *)

Lemma startsWith_app (p s : QString) : startsWith p (p ++ s) = true.
Proof.
  induction p as [|c p IH]; simpl; [reflexivity|].
  now rewrite Z.eqb_refl, IH.
Qed.

Lemma startsWith_true (p s : QString) :
  startsWith p s = true → ∃ t, s = p ++ t.
Proof.
  revert s. induction p as [|c p IH]; intros s; simpl.
  - intros _. now exists s.
  - destruct s as [|c' s]; [discriminate|].
    intros Hb. apply andb_true_iff in Hb. destruct Hb as [Hc Hp].
    apply Z.eqb_eq in Hc. subst c'.
    destruct (IH s Hp) as [t ->]. now exists t.
Qed.

(** A code unit of [before] that [s] lacks keeps [before] out of [s]. *)
Lemma remove_from_lacking (before s : QString) (c : QChar) :
  c ∈ before → c ∉ s → remove_from before s O = s.
Proof.
  intros Hin. induction s as [|x s IH]; intros Hout; [reflexivity|].
  simpl. destruct (startsWith before (x :: s)) eqn:Hsw.
  - exfalso. apply startsWith_true in Hsw. destruct Hsw as [t Ht].
    apply Hout. rewrite Ht. apply elem_of_app. now left.
  - f_equal. apply IH. intros Hc. apply Hout. now right.
Qed.

Lemma remove_from_skip (before pre s : QString) :
  remove_from before (pre ++ s) (length pre) = remove_from before s O.
Proof.
  induction pre as [|c pre IH]; [reflexivity|]. simpl. exact IH.
Qed.

Lemma remove_from_prefix (before s : QString) :
  before ≠ [] →
  remove_from before (before ++ s) O = remove_from before s O.
Proof.
  destruct before as [|c before]; [congruence|]. intros _.
  change ((c :: before) ++ s) with (c :: (before ++ s)).
  cbn [remove_from].
  change (c :: before ++ s) with ((c :: before) ++ s).
  rewrite startsWith_app.
  replace (length (c :: before) - 1)%nat with (length before)
    by (simpl; lia).
  apply remove_from_skip.
Qed.

Lemma slash_in_https : 47 ∈ qs "https://".
Proof.
  simpl. repeat first [apply list_elem_of_here | apply list_elem_of_further].
Qed.

Lemma slash_in_plus : 47 ∈ qs "t.me/+".
Proof.
  simpl. repeat first [apply list_elem_of_here | apply list_elem_of_further].
Qed.

Lemma slash_in_joinchat : 47 ∈ qs "t.me/joinchat/".
Proof.
  simpl. repeat first [apply list_elem_of_here | apply list_elem_of_further].
Qed.

Lemma remove_from_mismatch (before s : QString) (c : QChar) :
  startsWith before (c :: s) = false →
  remove_from before (c :: s) O = c :: remove_from before s O.
Proof. intros Hsw. cbn [remove_from]. now rewrite Hsw. Qed.

Lemma sanitize_plus (slug : QString) :
  47 ∉ slug →
  replace_with_empty (qs "t.me/joinchat/")
    (replace_with_empty (qs "t.me/+")
       (replace_with_empty (qs "https://") (qs "https://t.me/+" ++ slug)))
  = slug.
Proof.
  intros Hslug. unfold replace_with_empty.
  change (isEmpty (qs "https://")) with false.
  change (isEmpty (qs "t.me/+")) with false.
  change (isEmpty (qs "t.me/joinchat/")) with false. cbv iota.
  change (qs "https://t.me/+" ++ slug)
    with (qs "https://" ++ (qs "t.me/+" ++ slug)).
  rewrite remove_from_prefix by discriminate.
  change (qs "t.me/+" ++ slug)
    with (116 :: 46 :: 109 :: 101 :: 47 :: 43 :: slug) at 1.
  rewrite !(remove_from_mismatch (qs "https://")) by reflexivity.
  rewrite (remove_from_lacking _ slug 47 slash_in_https Hslug).
  change (116 :: 46 :: 109 :: 101 :: 47 :: 43 :: slug)
    with (qs "t.me/+" ++ slug).
  rewrite remove_from_prefix by discriminate.
  rewrite (remove_from_lacking _ slug 47 slash_in_plus Hslug).
  apply (remove_from_lacking _ slug 47 slash_in_joinchat Hslug).
Qed.

Lemma sanitize_joinchat (slug : QString) :
  47 ∉ slug →
  replace_with_empty (qs "t.me/joinchat/")
    (replace_with_empty (qs "t.me/+")
       (replace_with_empty (qs "https://")
          (qs "https://t.me/joinchat/" ++ slug)))
  = slug.
Proof.
  intros Hslug. unfold replace_with_empty.
  change (isEmpty (qs "https://")) with false.
  change (isEmpty (qs "t.me/+")) with false.
  change (isEmpty (qs "t.me/joinchat/")) with false. cbv iota.
  change (qs "https://t.me/joinchat/" ++ slug)
    with (qs "https://" ++ (qs "t.me/joinchat/" ++ slug)).
  rewrite remove_from_prefix by discriminate.
  change (qs "t.me/joinchat/" ++ slug)
    with (116 :: 46 :: 109 :: 101 :: 47 :: 106 :: 111 :: 105 :: 110 :: 99
          :: 104 :: 97 :: 116 :: 47 :: slug) at 1.
  rewrite !(remove_from_mismatch (qs "https://")) by reflexivity.
  rewrite (remove_from_lacking _ slug 47 slash_in_https Hslug).
  rewrite !(remove_from_mismatch (qs "t.me/+")) by reflexivity.
  rewrite (remove_from_lacking _ slug 47 slash_in_plus Hslug).
  change (116 :: 46 :: 109 :: 101 :: 47 :: 106 :: 111 :: 105 :: 110 :: 99
          :: 104 :: 97 :: 116 :: 47 :: slug)
    with (qs "t.me/joinchat/" ++ slug).
  rewrite remove_from_prefix by discriminate.
  apply (remove_from_lacking _ slug 47 slash_in_joinchat Hslug).
Qed.

Lemma update_name `{Lang} (row : Row.t) (data : InviteLinkData.t) :
  PeerListRow.name (Row.base (Row.update data row))
  = Row.generateName (Row.update data row)
  ∧ Row.generateName (Row.update data row)
    = (if negb (isEmpty (InviteLinkData.title data))
       then InviteLinkData.title data
       else replace_with_empty (qs "t.me/joinchat/")
              (replace_with_empty (qs "t.me/+")
                 (replace_with_empty (qs "https://")
                    (InviteLinkData.url data)))).
Proof. split; reflexivity. Qed.

(** X2. A links row with a title is named by the title. Without a title it
    is named by what follows [https://t.me/+] or [https://t.me/joinchat/]
    in its url, when that part has no slash. [Row::update] stores this
    name. *)
Theorem generateName_slug `{Lang} (row : Row.t) (data : InviteLinkData.t)
    (slug : QString) :
  47 ∉ slug →
  (InviteLinkData.title data ≠ [] →
   PeerListRow.name (Row.base (Row.update data row))
   = InviteLinkData.title data)
  ∧ (InviteLinkData.title data = [] →
     InviteLinkData.url data = qs "https://t.me/+" ++ slug
     ∨ InviteLinkData.url data = qs "https://t.me/joinchat/" ++ slug →
     PeerListRow.name (Row.base (Row.update data row)) = slug
     ∧ Row.generateName (Row.update data row) = slug).
Proof.
  intros Hslug. destruct (update_name row data) as [-> ->]. split.
  - intros Htitle. destruct (InviteLinkData.title data); [congruence|].
    reflexivity.
  - intros -> [-> | ->]; cbn [isEmpty negb].
    + rewrite sanitize_plus by exact Hslug. auto.
    + rewrite sanitize_joinchat by exact Hslug. auto.
Qed.

Lemma generateName_slug_witness :
  PeerListRow.name
    (Row.base (@Row.update Sample.lang
                 (Sample.link "https://t.me/joinchat/AbC-1" "" [])
                 (@Row.new Sample.lang (Sample.link "" "Old" []))))
  = qs "AbC-1".
Proof.
  refine (proj1 (proj2 (@generateName_slug Sample.lang
            (@Row.new Sample.lang (Sample.link "" "Old" []))
            (Sample.link "https://t.me/joinchat/AbC-1" "" [])
            (qs "AbC-1") _) eq_refl (or_intror eq_refl))).
  simpl. intros Hin.
  repeat (apply elem_of_cons in Hin; destruct Hin as [Hin|Hin];
          [discriminate|]).
  now apply not_elem_of_nil in Hin.
Defined.

(** The replacement does not look at its own result again: a pattern that
    only comes together by a removal stays. *)
Example generateName_no_rescan :
  Row.generateName
    (@Row.new Sample.lang (Sample.link "t.met.me/+/+abc" "" []))
  = qs "t.me/+abc".
Proof. vm_compute. reflexivity. Qed.

(** ** The links list after [rebuild] *)

Section LinksList.
Context `{lang : Lang}.
Import PeerListDelegate.

Lemma reconcile_ids (displayed : list Row.t)
    (snapshot : list InviteLinkData.t) :
  Row.id <$> reconcile displayed snapshot
  = take (length snapshot) (Row.id <$> displayed)
    ++ (ComputeRowId_data <$> drop (length displayed) snapshot).
Proof.
  revert displayed.
  induction snapshot as [|data snapshot IH]; intros [|row displayed];
    simpl; try reflexivity.
  - f_equal. specialize (IH []). rewrite fmap_nil, take_nil in IH.
    exact IH.
  - f_equal. apply IH.
Qed.

Lemma reconcile_matches (displayed : list Row.t)
    (snapshot : list InviteLinkData.t) :
  Forall LinksController.id_matches_url displayed →
  (∀ i row data, displayed !! i = Some row → snapshot !! i = Some data →
                 InviteLinkData.url data = InviteLinkData.url (Row.data row)) →
  Forall LinksController.id_matches_url (reconcile displayed snapshot).
Proof.
  revert displayed.
  induction snapshot as [|data snapshot IH]; intros [|row displayed] Hall Hurl;
    simpl; try constructor.
  - reflexivity.
  - apply (IH []); [constructor|]. intros i row data' Hrow. discriminate.
  - apply Forall_cons in Hall. destruct Hall as [Hrow _].
    unfold LinksController.id_matches_url in *.
    change (Row.id (Row.update data row)) with (Row.id row).
    change (Row.data (Row.update data row)) with data.
    rewrite Hrow. f_equal. symmetry. apply (Hurl 0%nat); reflexivity.
  - apply Forall_cons in Hall. destruct Hall as [_ Hall].
    apply IH; [exact Hall|].
    intros i row' data' Hr Hd. apply (Hurl (S i)); assumption.
Qed.

(** X3. After [rebuild] the rows carry the snapshot, entry by entry, and a
    click on the row at a position shows the link box for the snapshot
    entry at that position and the current filter; there is nothing to
    click past the snapshot. *)
Theorem rebuild_then_rowClicked (snapshot : list InviteLinkData.t)
    (d : LinksController.Delegate) (currentFilter : ChatFilter.t) :
  ∃ d' : LinksController.Delegate,
    LinksController.rebuild snapshot d = Ok d'
    ∧ Row.data <$> rows d' = snapshot
    ∧ ∀ index,
        LinksController.rowClicked currentFilter index d'
        = (fun link => (currentFilter, link)) <$> snapshot !! index.
Proof.
  eexists. split; [apply rebuild_result|]. simpl.
  split; [apply reconcile_data|].
  intros index. unfold LinksController.rowClicked. simpl.
  rewrite <- (reconcile_data (rows d) snapshot) at 2.
  rewrite list_lookup_fmap.
  destruct (reconcile (rows d) snapshot !! index); reflexivity.
Qed.

(** X4. [rebuild] keeps the identity of every row it keeps and gives a new
    row the identity of its url. So when the identities matched the urls
    before, and the snapshot keeps the url at every position that was
    displayed, they match afterwards; a list built from an empty one always
    matches. *)
Theorem rebuild_identities (snapshot : list InviteLinkData.t)
    (d : LinksController.Delegate) :
  ∃ d' : LinksController.Delegate,
    LinksController.rebuild snapshot d = Ok d'
    ∧ Row.id <$> rows d'
      = take (length snapshot) (Row.id <$> rows d)
        ++ ((fun data => ComputeRowId (InviteLinkData.url data))
              <$> drop (length (rows d)) snapshot)
    ∧ (Forall LinksController.id_matches_url (rows d) →
       (∀ i row data, rows d !! i = Some row → snapshot !! i = Some data →
          InviteLinkData.url data = InviteLinkData.url (Row.data row)) →
       Forall LinksController.id_matches_url (rows d'))
    ∧ (rows d = [] → Forall LinksController.id_matches_url (rows d')).
Proof.
  eexists. split; [apply rebuild_result|]. simpl.
  split; [apply reconcile_ids|]. split.
  - apply reconcile_matches.
  - intros ->. apply reconcile_matches; [constructor|].
    intros i row data Hrow. discriminate.
Qed.

Lemma findRow_none (id : Z) (d : LinksController.Delegate) :
  LinksController.findRow id d = None
  ↔ ∀ row, row ∈ rows d → Row.id row ≠ id.
Proof.
  unfold LinksController.findRow. rewrite list_find_None, Forall_forall.
  reflexivity.
Qed.

(** X5. [removeRow] answers false and changes nothing exactly when no row
    has the identity of the url. Otherwise it takes out the first row with
    that identity and keeps the others in order. It undoes [appendRow] on a
    list that had no row of that identity, and it finds every displayed row
    whose identity matches its url. *)
Theorem removeRow_first (link : QString) (d : LinksController.Delegate) :
  (fst (LinksController.removeRow link d) = false
   ↔ ∀ row, row ∈ rows d → Row.id row ≠ ComputeRowId link)
  ∧ (fst (LinksController.removeRow link d) = false →
     snd (LinksController.removeRow link d) = d)
  ∧ (fst (LinksController.removeRow link d) = true →
     ∃ before row after,
       rows d = before ++ row :: after
       ∧ Row.id row = ComputeRowId link
       ∧ (∀ r, r ∈ before → Row.id r ≠ ComputeRowId link)
       ∧ rows (snd (LinksController.removeRow link d)) = before ++ after
       ∧ events (snd (LinksController.removeRow link d)) = events d)
  ∧ (∀ data,
       link = InviteLinkData.url data →
       (∀ row, row ∈ rows d → Row.id row ≠ ComputeRowId link) →
       LinksController.removeRow link (LinksController.appendRow data d)
       = (true, d))
  ∧ (∀ row, row ∈ rows d → LinksController.id_matches_url row →
       fst (LinksController.removeRow
              (InviteLinkData.url (Row.data row)) d) = true).
Proof.
  split; [|split; [|split; [|split]]].
  - unfold LinksController.removeRow.
    destruct (LinksController.findRow _ d) as [[i row]|] eqn:Hfind; simpl.
    + split; [discriminate|]. intros Hno. exfalso.
      apply list_find_Some in Hfind. destruct Hfind as (Hrow & Hid & _).
      apply (Hno row); [|exact Hid]. apply list_elem_of_lookup. eauto.
    + split; [|reflexivity]. intros _. now apply findRow_none.
  - unfold LinksController.removeRow.
    destruct (LinksController.findRow _ d) as [[i row]|]; simpl;
      [discriminate|reflexivity].
  - unfold LinksController.removeRow.
    destruct (LinksController.findRow _ d) as [[i row]|] eqn:Hfind; simpl;
      [|discriminate].
    intros _. apply list_find_Some in Hfind.
    destruct Hfind as (Hrow & Hid & Hfirst).
    exists (take i (rows d)), row, (drop (S i) (rows d)).
    split; [symmetry; now apply take_drop_middle|].
    split; [exact Hid|]. split; [|split; [apply delete_take_drop|reflexivity]].
    intros r Hin. apply list_elem_of_lookup in Hin. destruct Hin as [j Hj].
    pose proof (lookup_lt_Some _ _ _ Hj) as Hlt.
    rewrite length_take in Hlt.
    rewrite lookup_take_lt in Hj by lia.
    apply (Hfirst j r Hj). lia.
  - intros data -> Hno. unfold LinksController.removeRow.
    destruct (LinksController.findRow _ _) as [[i row]|] eqn:Hfind.
    + apply list_find_Some in Hfind. destruct Hfind as (Hrow & Hid & Hfirst).
      simpl in Hrow.
      destruct (decide (i < length (rows d))%nat) as [Hlt|Hge].
      * rewrite lookup_app_l in Hrow by exact Hlt. exfalso.
        apply (Hno row); [|exact Hid]. apply list_elem_of_lookup. eauto.
      * pose proof (lookup_lt_Some _ _ _ Hrow) as Hlen.
        rewrite length_app in Hlen. simpl in Hlen.
        assert (i = length (rows d)) by lia. subst i.
        f_equal. unfold peerListRemoveRow, LinksController.appendRow,
          peerListAppendRow. simpl.
        destruct d as [displayed ev]. simpl. f_equal.
        rewrite delete_middle. apply app_nil_r.
    + exfalso. pose proof (proj1 (findRow_none _ _) Hfind) as Hnone.
      apply (Hnone (Row.new data)); [|reflexivity].
      simpl. apply elem_of_app. right. left.
  - intros row Hin Hmatch. unfold LinksController.removeRow.
    destruct (LinksController.findRow _ d) as [[i r]|] eqn:Hfind;
      [reflexivity|].
    exfalso. pose proof (proj1 (findRow_none _ _) Hfind) as Hnone.
    apply (Hnone row Hin). exact Hmatch.
Qed.

End LinksList.

Lemma rebuild_identities_witness :
  ∃ d' : LinksController.Delegate,
    @LinksController.rebuild Sample.lang
      [Sample.link "https://t.me/+a" "" [];
       Sample.link "https://t.me/+b" "Team" [Sample.group 5 true]]
      PeerListDelegate.empty = Ok d'
    ∧ Forall LinksController.id_matches_url (PeerListDelegate.rows d').
Proof.
  destruct (@rebuild_identities Sample.lang
              [Sample.link "https://t.me/+a" "" [];
               Sample.link "https://t.me/+b" "Team" [Sample.group 5 true]]
              PeerListDelegate.empty) as (d' & Hok & _ & _ & Hempty).
  exists d'. split; [exact Hok|]. apply Hempty. reflexivity.
Defined.

Lemma removeRow_first_witness :
  @LinksController.removeRow (qs "https://t.me/+b")
    (@LinksController.appendRow Sample.lang
       (Sample.link "https://t.me/+b" "" [])
       {| PeerListDelegate.rows :=
            [@Row.new Sample.lang (Sample.link "https://t.me/+a" "" [])];
          PeerListDelegate.events := [] |})
  = (true,
     {| PeerListDelegate.rows :=
          [@Row.new Sample.lang (Sample.link "https://t.me/+a" "" [])];
        PeerListDelegate.events := [] |}).
Proof.
  apply (proj1 (proj2 (proj2 (proj2 (@removeRow_first Sample.lang
           (qs "https://t.me/+b")
           {| PeerListDelegate.rows :=
                [@Row.new Sample.lang (Sample.link "https://t.me/+a" "" [])];
              PeerListDelegate.events := [] |}))))
           (Sample.link "https://t.me/+b" "" []) eq_refl).
  intros row Hin. apply list_elem_of_singleton in Hin. subst row.
  vm_compute. discriminate.
Defined.

(** A row whose url changed in place keeps its old identity, so
    [removeRow] does not find it under the url it shows. *)
Example removeRow_after_url_change :
  ∃ d' : LinksController.Delegate,
    @LinksController.rebuild Sample.lang
      [Sample.link "https://t.me/+b" "" []]
      {| PeerListDelegate.rows :=
           [@Row.new Sample.lang (Sample.link "https://t.me/+a" "" [])];
         PeerListDelegate.events := [] |} = Ok d'
    ∧ Row.data <$> PeerListDelegate.rows d'
      = [Sample.link "https://t.me/+b" "" []]
    ∧ fst (LinksController.removeRow (qs "https://t.me/+b") d') = false
    ∧ fst (LinksController.removeRow (qs "https://t.me/+a") d') = true.
Proof. eexists. split; [vm_compute; reflexivity|]. vm_compute. auto. Qed.

(** ** The chats of one link *)

Lemma LinkChats_fold (chats : list History.t) :
  ∀ d : LinkChatsController.Delegate,
    fold_left LinkChatsController.prepare_chat chats d
    = {| PeerListDelegate.rows :=
           PeerListDelegate.rows d
           ++ ((fun h => PeerListRow.of_peer (History.peer h)) <$> chats);
         PeerListDelegate.events := PeerListDelegate.events d |}.
Proof.
  induction chats as [|h chats IH]; intros [displayed ev]; simpl.
  - now rewrite app_nil_r.
  - rewrite IH. simpl. now rewrite <- app_assoc.
Qed.

(** X6. [LinkChatsController::prepare] adds one unchecked row per chat of
    the link, in the link's order and under the chat's peer id, after the
    rows already shown, and asks for one refresh; it never denies, checks
    or drops a chat, and a click on a row changes nothing. *)
Theorem LinkChats_prepare_rows (c : LinkChatsController.t)
    (d : LinkChatsController.Delegate) (clicks : list nat) :
  let d' := LinkChatsController.prepare c d in
  PeerListRow.peer <$> PeerListDelegate.rows d'
  = (PeerListRow.peer <$> PeerListDelegate.rows d)
    ++ ((fun h => Some (History.peer h))
          <$> InviteLinkData.chats (LinkChatsController._data c))
  ∧ PeerListRow.id <$> drop (length (PeerListDelegate.rows d))
                         (PeerListDelegate.rows d')
    = peer_id <$> InviteLinkData.chats (LinkChatsController._data c)
  ∧ Forall (fun row => PeerListRow.checked row = false
                       ∧ PeerListRow.customStatus row = [])
      (drop (length (PeerListDelegate.rows d)) (PeerListDelegate.rows d'))
  ∧ take (length (PeerListDelegate.rows d)) (PeerListDelegate.rows d')
    = PeerListDelegate.rows d
  ∧ PeerListDelegate.events d'
    = PeerListDelegate.events d ++ [PeerListRefreshRows]
  ∧ fold_left LinkChatsController.rowClicked clicks (c, d') = (c, d').
Proof.
  cbv zeta. unfold LinkChatsController.prepare. rewrite LinkChats_fold.
  simpl. split; [|split; [|split; [|split; [|split]]]].
  - rewrite fmap_app, <- list_fmap_compose. reflexivity.
  - rewrite drop_app_length, <- list_fmap_compose. reflexivity.
  - rewrite drop_app_length. apply Forall_fmap, Forall_forall.
    intros h _. split; reflexivity.
  - now rewrite take_app_length.
  - reflexivity.
  - induction clicks as [|i clicks IH]; [reflexivity|exact IH].
Qed.

(** ** The rows and the denied chats after [prepare] *)

Section PreparedState.
Context `{lang : Lang}.
Import PeerListDelegate LinkController Prepared.

Lemma alter_last {A} (f : A → A) (l : list A) (x : A) :
  alter f (length l) (l ++ [x]) = l ++ [f x].
Proof.
  rewrite alter_app_r_alt by lia. now rewrite Nat.sub_diag.
Qed.

Lemma prepare_chat_rows (chats : list History.t) :
  ∀ (c : LinkController.t) (d : Delegate),
    snd (fold_left prepare_chat chats (c, d))
    = {| rows := rows d ++ (checked_row <$> chats); events := events d |}.
Proof.
  induction chats as [|h chats IH]; intros c [displayed ev]; simpl.
  - now rewrite app_nil_r.
  - rewrite IH. simpl.
    unfold peerListFullRowsCount. simpl. rewrite alter_last.
    now rewrite <- app_assoc.
Qed.

Lemma filter_row_denied_more (c : LinkController.t)
    (denied : gmap PeerData.t QString) (row : PeerListRow.t) :
  (∀ p, is_Some (_denied c !! p) → is_Some (denied !! p)) →
  filter_row c row → filter_row (set_denied denied c) row.
Proof.
  intros Hmore (Hch & h & Hin & Hp & Hid & Hout & Hwhy).
  split; [exact Hch|]. exists h. simpl.
  repeat split; try assumption.
  destruct Hwhy as [Hd|Hs]; [left; now apply Hmore|right; exact Hs].
Qed.

Lemma emplace_lookup (p q : PeerData.t) (reason r : QString)
    (denied : gmap PeerData.t QString) :
  emplace p reason denied !! q = Some r →
  denied !! q = Some r ∨ (denied !! p = None ∧ q = p ∧ r = reason).
Proof.
  unfold emplace. destruct (denied !! p) eqn:Hp; [auto|].
  destruct (decide (p = q)) as [<-|Hne].
  - rewrite lookup_insert_eq. intros [= <-]. auto.
  - rewrite lookup_insert_ne by exact Hne. auto.
Qed.

Lemma find_none_fresh (id : Z) (d : Delegate) :
  peerListFindRow id d = None →
  Forall (fun row => PeerListRow.id row ≠ id) (rows d).
Proof.
  unfold peerListFindRow.
  destruct (list_find _ (rows d)) as [found|] eqn:Hfind; [discriminate|].
  intros _. now apply list_find_None in Hfind.
Qed.

Lemma checked_row_ids (chats : list History.t) :
  PeerListRow.id <$> (checked_row <$> chats) = peer_id <$> chats.
Proof. rewrite <- list_fmap_compose. reflexivity. Qed.

Lemma extend_rows (c : LinkController.t) (d : Delegate)
    (denied : gmap PeerData.t QString) (row : PeerListRow.t) :
  prepared_rows (c, d) →
  (∀ q, is_Some (_denied c !! q) → is_Some (denied !! q)) →
  (∀ q, is_Some (denied !! q) →
        is_Some (_denied c !! q) ∨ PeerListRow.peer row = Some q) →
  filter_row (set_denied denied c) row →
  prepared_rows (set_denied denied c,
                 {| rows := rows d ++ [row]; events := events d |}).
Proof.
  intros (extra & Hrows & Hextra & Hshown) Hmore Hnew Hrow. simpl in *.
  exists (extra ++ [row]). simpl. split; [|split].
  - rewrite Hrows. now rewrite <- app_assoc.
  - apply Forall_app. split; [|now constructor].
    eapply Forall_impl; [exact Hextra|].
    intros r Hr. now apply filter_row_denied_more.
  - intros q Hq. destruct (Hnew q Hq) as [Hold|Hpeer].
    + destruct (Hshown q Hold) as (r & Hin & Hp).
      exists r. split; [apply elem_of_app; now left|exact Hp].
    + exists row. split; [apply elem_of_app; right; left|exact Hpeer].
Qed.

Lemma extend_distinct (d : Delegate) (row : PeerListRow.t) :
  Forall (fun r => PeerListRow.id r ≠ PeerListRow.id row) (rows d) →
  NoDup (PeerListRow.id <$> rows d) →
  NoDup (PeerListRow.id <$> (rows d ++ [row])).
Proof.
  intros Hfresh Hnd. rewrite fmap_app. apply NoDup_app.
  split; [exact Hnd|]. split; [|apply NoDup_singleton].
  intros x Hin Hx. apply list_elem_of_singleton in Hx. subst x.
  apply list_elem_of_fmap in Hin. destruct Hin as (r & Hid & Hin).
  rewrite Forall_forall in Hfresh. apply (Hfresh r Hin). now symmetry.
Qed.

(** One round of the loop over the filter's chats keeps the shape of the
    rows, the reasons of the denials and the distinct row ids. *)
Lemma prepare_filter_chat_shape (s s' : LinkController.t * Delegate)
    (h : History.t) :
  h ∈ _filterChats (fst s) →
  prepared_rows s → denial_explained (fst s) →
  prepare_filter_chat s h = Ok s' →
  prepared_rows s' ∧ denial_explained (fst s')
  ∧ _filterChats (fst s') = _filterChats (fst s)
  ∧ (distinct_rows s → distinct_rows s')
  ∧ events (snd s') = events (snd s).
Proof.
  destruct s as [c d]. simpl. intros Hh Hprep Hwhy.
  unfold prepare_filter_chat.
  destruct (peerListFindRow (PeerData.id (History.peer h)) d) eqn:Hfind.
  { intros [= <-]. simpl. repeat split; auto. }
  apply find_none_fresh in Hfind.
  assert (Hout : peer_id h ∉ chat_ids c).
  { destruct Hprep as (extra & Hrows & _). simpl in Hrows.
    rewrite Hrows, Forall_app in Hfind. destruct Hfind as [Hchk _].
    unfold chat_ids. rewrite <- checked_row_ids. intros Hin.
    apply list_elem_of_fmap in Hin. destruct Hin as (row & Hid & Hin).
    rewrite Forall_forall in Hchk. apply (Hchk row Hin). now symmetry. }
  unfold peerListFullRowsCount, peerListAppendRow, modifyRow. simpl.
  destruct (ErrorForSharing h) as [[e|]|flt] eqn:Herr; simpl;
    [| |discriminate].
  - rewrite alter_last. intros [= <-]. simpl.
    split; [|split; [|split; [reflexivity|split; [|reflexivity]]]].
    + apply extend_rows; [exact Hprep|intros q; apply emplace_keeps| |].
      * intros q [r Hq]. apply emplace_lookup in Hq.
        destruct Hq as [Hq|(_ & -> & _)]; [left; eauto|right; reflexivity].
      * split; [reflexivity|]. exists h. simpl.
        repeat split; try assumption. left. apply emplace_has.
    + intros q r Hq. simpl in Hq. apply emplace_lookup in Hq.
      destruct Hq as [Hq|(_ & -> & ->)]; [apply (Hwhy q r Hq)|].
      exists h. simpl. repeat split; try assumption. left. eauto.
    + unfold distinct_rows. simpl. apply extend_distinct. exact Hfind.
  - destruct (isEmpty (InviteLinkData.url (_data c))) eqn:Hurl;
      intros [= <-]; simpl.
    + assert (Hempty : InviteLinkData.url (_data c) = [])
        by (destruct (InviteLinkData.url (_data c)); [reflexivity|discriminate]).
      split; [|split; [|split; [reflexivity|split; [|reflexivity]]]].
      * apply extend_rows; [exact Hprep|intros q; apply emplace_keeps| |].
        -- intros q [r Hq]. apply emplace_lookup in Hq.
           destruct Hq as [Hq|(_ & -> & _)]; [left; eauto|right; reflexivity].
        -- split; [reflexivity|]. exists h. simpl.
           repeat split; try assumption. left. apply emplace_has.
      * intros q r Hq. simpl in Hq. apply emplace_lookup in Hq.
        destruct Hq as [Hq|(_ & -> & ->)]; [apply (Hwhy q r Hq)|].
        exists h. simpl. repeat split; try assumption. right. auto.
      * unfold distinct_rows. simpl. apply extend_distinct. exact Hfind.
    + assert (Hsome : InviteLinkData.url (_data c) ≠ [])
        by (intros E; rewrite E in Hurl; discriminate).
      assert (Hsame : set_denied (_denied c) c = c) by (now destruct c).
      split; [|split; [|split; [reflexivity|split; [|reflexivity]]]].
      * rewrite <- Hsame at 1.
        apply extend_rows; [exact Hprep|auto|auto|].
        rewrite Hsame. split; [reflexivity|]. exists h.
        repeat split; try assumption. right.
        split; [now apply sharable_true|exact Hsome].
      * exact Hwhy.
      * unfold distinct_rows. simpl. apply extend_distinct. exact Hfind.
Qed.

Lemma prepare_filter_chats_shape (chats : list History.t) :
  ∀ s s' : LinkController.t * Delegate,
    (∀ h, h ∈ chats → h ∈ _filterChats (fst s)) →
    prepared_rows s → denial_explained (fst s) →
    prepare_filter_chats s chats = Ok s' →
    prepared_rows s' ∧ denial_explained (fst s')
    ∧ _filterChats (fst s') = _filterChats (fst s)
    ∧ (distinct_rows s → distinct_rows s')
    ∧ events (snd s') = events (snd s).
Proof.
  induction chats as [|h chats IH]; intros s s' Hsub Hprep Hwhy; simpl.
  - intros [= <-]. repeat split; auto.
  - destruct (prepare_filter_chat s h) as [s1|flt] eqn:E; [|discriminate].
    simpl. intros Hrest.
    destruct (prepare_filter_chat_shape s s1 h) as (P1 & W1 & F1 & D1 & E1);
      [apply Hsub; left|assumption..|].
    destruct (IH s1 s') as (P2 & W2 & F2 & D2 & E2); try assumption.
    { intros h' Hin. rewrite F1. apply Hsub. now right. }
    repeat split; try assumption; try congruence. auto.
Qed.

Lemma Expects_ok (b : bool) (text : string) (u : unit) :
  Expects b text = Ok u → b = true.
Proof. unfold Expects. destruct b; [reflexivity|discriminate]. Qed.

(** The state [prepare] leaves when it starts from an empty list. *)
Lemma prepare_shape (f : ChatFilter.t) (data : InviteLinkData.t)
    (s : LinkController.t * Delegate) :
  prepare (new f data) empty = Ok s →
  prepared_rows s ∧ denial_explained (fst s)
  ∧ _filterChats (fst s) = ChatFilter.always f
  ∧ _data (fst s) = data
  ∧ (NoDup (peer_id <$> InviteLinkData.chats data) → distinct_rows s)
  ∧ events (snd s)
    = [PeerListSetAboveWidget (negb (isEmpty (InviteLinkData.url data)));
       PeerListSetBelowWidget; PeerListRefreshRows]
  ∧ _initial (fst s)
    = list_to_set (History.peer <$> InviteLinkData.chats data)
  ∧ _selected (fst s) = _initial (fst s)
  ∧ _hasChanges (fst s) = false.
Proof.
  intros Hprep. destruct s as [c d].
  destruct (prepare_prepared _ _ _ _ Hprep) as (Hi & Hs & Hh & Hd).
  simpl in Hi, Hh, Hd.
  unfold prepare in Hprep.
  destruct (Expects _ _) as [[]|flt]; simpl in Hprep; [|discriminate].
  set (d0 := setupBelowWidget (new f data)
               (setupAboveWidget (new f data) empty)) in Hprep.
  set (s1 := fold_left prepare_chat (InviteLinkData.chats data)
               (new f data, d0)) in Hprep.
  assert (Hc1 : fst s1
                = set_initial (list_to_set (History.peer
                                 <$> InviteLinkData.chats data)
                               ∪ _initial (new f data)) (new f data))
    by apply prepare_chat_fold.
  assert (Hd1 : snd s1
                = {| rows := rows d0 ++ (checked_row
                                           <$> InviteLinkData.chats data);
                     events := events d0 |})
    by apply prepare_chat_rows.
  destruct s1 as [c1 d1]. simpl in Hc1, Hd1. subst c1 d1.
  destruct (prepare_filter_chats _ _) as [[c2 d2]|flt] eqn:E;
    simpl in Hprep; [|discriminate].
  injection Hprep as <- <-.
  apply prepare_filter_chats_shape in E.
  - destruct E as (P2 & W2 & F2 & D2 & E2). simpl in *.
    split; [exact P2|]. split; [exact W2|]. split; [exact F2|].
    split; [exact Hd|]. split.
    + intros Hnd. apply D2. unfold distinct_rows. simpl.
      now rewrite checked_row_ids.
    + split; [now rewrite E2|]. split; [|auto].
      rewrite Hi. set_solver.
  - intros h Hin. exact Hin.
  - exists []. simpl. split; [now rewrite app_nil_r|].
    split; [constructor|]. intros p [x Hx].
    rewrite lookup_empty in Hx. discriminate.
  - intros p reason Hp. simpl in Hp. rewrite lookup_empty in Hp.
    discriminate.
Qed.

(** What follows for the rows, the selection and the check marks. *)
Lemma prepare_invariants (f : ChatFilter.t) (data : InviteLinkData.t)
    (s : LinkController.t * Delegate) :
  prepare (new f data) empty = Ok s →
  rows_known s ∧ selection_allowed s ∧ marks_selection s.
Proof.
  intros Hprep.
  destruct (prepare_shape f data s Hprep)
    as ((extra & Hrows & Hextra & Hshown) & Hwhy & Hfc & Hd & _ & _
        & Hi & Hs & _).
  assert (Hchat : ∀ h, h ∈ InviteLinkData.chats data →
                       History.peer h ∈ _initial (fst s)).
  { intros h Hin. rewrite Hi. apply elem_of_list_to_set.
    apply list_elem_of_fmap. eauto. }
  assert (Hnot : ∀ p, p ∈ _initial (fst s) →
                      PeerData.id p ∈ chat_ids (fst s)).
  { intros p Hp. rewrite Hi in Hp. apply elem_of_list_to_set in Hp.
    apply list_elem_of_fmap in Hp. destruct Hp as (h & -> & Hin).
    unfold chat_ids. rewrite Hd. apply list_elem_of_fmap. eauto. }
  rewrite Forall_forall in Hextra.
  split; [|split].
  - intros row Hin. rewrite Hrows, Hd in Hin. apply elem_of_app in Hin.
    destruct Hin as [Hin|Hin].
    + apply list_elem_of_fmap in Hin. destruct Hin as (h & -> & Hin).
      exists (History.peer h). split; [reflexivity|].
      split; [reflexivity|]. left. now apply Hchat.
    + destruct (Hextra row Hin) as (_ & h & Hh & Hp & Hid & _ & Hwhy').
      exists (History.peer h). split; [exact Hp|]. split; [exact Hid|].
      right. destruct Hwhy' as [Hden|[Hsh _]]; [now left|right].
      exists h. auto.
  - intros p Hp. rewrite Hs in Hp. split; [|now left].
    destruct (_denied (fst s) !! p) as [reason|] eqn:Hden; [|reflexivity].
    exfalso. destruct (Hwhy p reason Hden) as (h & _ & <- & Hout & _).
    apply Hout. now apply Hnot.
  - intros row p Hin Hp. rewrite Hs.
    rewrite Hrows, Hd in Hin. apply elem_of_app in Hin.
    destruct Hin as [Hin|Hin].
    + apply list_elem_of_fmap in Hin. destruct Hin as (h & -> & Hin).
      simpl in Hp. injection Hp as <-. simpl.
      split; [intros _; now apply Hchat|reflexivity].
    + destruct (Hextra row Hin) as (Hch & h & Hh & Hp' & Hid & Hout & _).
      rewrite Hch. split; [discriminate|]. intros Hini. exfalso.
      apply Hout. rewrite Hp' in Hp. injection Hp as <-. now apply Hnot.
Qed.

End PreparedState.

(** ** Clicks on the rows of a prepared link *)

Section Clicks.
Context `{lang : Lang}.
Import PeerListDelegate LinkController Prepared.

Lemma elem_of_alter_inv {A} (f : A → A) (i : nat) (l : list A) (x : A) :
  x ∈ alter f i l → x ∈ l ∨ ∃ y, l !! i = Some y ∧ x = f y.
Proof.
  intros Hin. apply list_elem_of_lookup in Hin. destruct Hin as [j Hj].
  destruct (decide (i = j)) as [Heq|Hne].
  - subst j. rewrite list_lookup_alter_eq in Hj.
    destruct (l !! i) as [y|] eqn:Hy; simpl in Hj; [|discriminate Hj].
    injection Hj as <-. right. eauto.
  - rewrite list_lookup_alter_ne in Hj by exact Hne.
    left. apply list_elem_of_lookup. eauto.
Qed.

Lemma fmap_alter_same {A B} (g : A → B) (f : A → A) (i : nat)
    (l : list A) :
  (∀ x, g (f x) = g x) → g <$> alter f i l = g <$> l.
Proof.
  intros Hsame. revert i.
  induction l as [|x l IH]; intros [|i]; simpl; try reflexivity.
  - now rewrite Hsame.
  - f_equal. apply IH.
Qed.

Lemma rowClicked_frame (s : LinkController.t * Delegate) (index : nat) :
  _denied (fst (rowClicked s index)) = _denied (fst s)
  ∧ _initial (fst (rowClicked s index)) = _initial (fst s)
  ∧ _filterChats (fst (rowClicked s index)) = _filterChats (fst s)
  ∧ _data (fst (rowClicked s index)) = _data (fst s)
  ∧ PeerListRow.id <$> rows (snd (rowClicked s index))
    = PeerListRow.id <$> rows (snd s)
  ∧ PeerListRow.peer <$> rows (snd (rowClicked s index))
    = PeerListRow.peer <$> rows (snd s).
Proof.
  destruct s as [c d]. unfold rowClicked.
  destruct (rows d !! index) as [row|]; [|auto 10].
  destruct (PeerListRow.peer row) as [p|]; [|auto 10].
  destruct (_denied c !! p) as [reason|].
  - destruct (negb (isEmpty reason)); simpl; auto 10.
  - simpl. repeat split; apply fmap_alter_same; reflexivity.
Qed.
(** A click either leaves the controller and the rows alone, or toggles
    the clicked row, which then shows a chat that is not denied. *)
Lemma rowClicked_cases (c : LinkController.t) (d : Delegate) (index : nat) :
  (fst (rowClicked (c, d) index) = c
   ∧ rows (snd (rowClicked (c, d) index)) = rows d)
  ∨ ∃ row p,
      rows d !! index = Some row ∧ PeerListRow.peer row = Some p
      ∧ _denied c !! p = None
      ∧ rowClicked (c, d) index
        = (set_hasChanges
             (bool_decide
                (_initial c ≠ (if PeerListRow.checked row
                               then _selected c ∖ {[p]}
                               else {[p]} ∪ _selected c)))
             (set_selected (if PeerListRow.checked row
                            then _selected c ∖ {[p]}
                            else {[p]} ∪ _selected c) c),
           {| rows := alter (PeerListRow.setChecked
                               (negb (PeerListRow.checked row)))
                        index (rows d);
              events := events d |}).
Proof.
  unfold rowClicked.
  destruct (rows d !! index) as [row|] eqn:Hrow; [|left; auto].
  destruct (PeerListRow.peer row) as [p|] eqn:Hp; [|left; auto].
  destruct (_denied c !! p) as [reason|] eqn:Hden.
  - left. destruct (negb (isEmpty reason)); auto.
  - right. exists row, p. repeat split; assumption.
Qed.

Lemma rowClicked_keeps (s : LinkController.t * Delegate) (index : nat) :
  rows_known s → selection_allowed s → selection_shown s →
  rows_known (rowClicked s index)
  ∧ selection_allowed (rowClicked s index)
  ∧ selection_shown (rowClicked s index).
Proof.
  destruct s as [c d]. intros Hknown Hallowed Hshown.
  destruct (rowClicked_cases c d index)
    as [[Hc Hr]|(row & p & Hrow & Hp & Hden & ->)].
  - unfold rows_known, selection_allowed, selection_shown.
    rewrite Hc, Hr. auto.
  - assert (Hin : row ∈ rows d) by (apply list_elem_of_lookup; eauto).
    split; [|split].
    + intros row' Hin'. simpl in Hin'.
      apply elem_of_alter_inv in Hin'.
      destruct Hin' as [Hold|(y & Hy & ->)].
      * destruct (Hknown row' Hold) as (q & Hq & Hid & Hwhy).
        exists q. auto.
      * assert (Hyin : y ∈ rows d) by (apply list_elem_of_lookup; eauto).
        destruct (Hknown y Hyin) as (q & Hq & Hid & Hwhy).
        exists q. auto.
    + intros q Hq. simpl in Hq. simpl.
      destruct (decide (q = p)) as [->|Hne].
      * split; [exact Hden|].
        destruct (Hknown row Hin) as (p' & Hp' & _ & Hwhy). simpl in Hwhy.
        rewrite Hp in Hp'. injection Hp' as <-.
        destruct Hwhy as [Hi|[Hd|Ho]]; [now left| |now right].
        rewrite Hden in Hd. now destruct Hd.
      * apply Hallowed. simpl.
        destruct (PeerListRow.checked row); set_solver.
    + intros q Hq. simpl in Hq. simpl.
      assert (Hhas : ∀ r, r ∈ rows d →
                ∃ r', r' ∈ alter (PeerListRow.setChecked
                                    (negb (PeerListRow.checked row)))
                             index (rows d)
                      ∧ PeerListRow.peer r' = PeerListRow.peer r).
      { intros r Hr. apply list_elem_of_lookup in Hr. destruct Hr as [j Hj].
        destruct (decide (index = j)) as [Heq|Hne].
        - subst j. eexists. split.
          + apply list_elem_of_lookup. exists index.
            rewrite list_lookup_alter_eq, Hj. reflexivity.
          + reflexivity.
        - exists r. split; [|reflexivity].
          apply list_elem_of_lookup. exists j.
          now rewrite list_lookup_alter_ne. }
      destruct (decide (q = p)) as [->|Hne].
      * destruct (Hhas row Hin) as (r' & Hr' & Hpeer).
        exists r'. split; [exact Hr'|]. now rewrite Hpeer.
      * destruct (Hshown q) as (r & Hr & Hpeer).
        { simpl. destruct (PeerListRow.checked row); set_solver. }
        destruct (Hhas r Hr) as (r' & Hr' & Hpeer').
        exists r'. split; [exact Hr'|]. now rewrite Hpeer'.
Qed.

Lemma rowClicked_sync (s : LinkController.t * Delegate) (index : nat) :
  rows_known s → distinct_rows s → marks_selection s →
  marks_selection (rowClicked s index) ∧ distinct_rows (rowClicked s index).
Proof.
  destruct s as [c d]. intros Hknown Hnd Hmarks.
  split.
  2:{ unfold distinct_rows.
      destruct (rowClicked_frame (c, d) index) as (_ & _ & _ & _ & -> & _).
      exact Hnd. }
  destruct (rowClicked_cases c d index)
    as [[Hc Hr]|(row & p & Hrow & Hp & Hden & ->)].
  - unfold marks_selection. rewrite Hc, Hr. exact Hmarks.
  - assert (Hin : row ∈ rows d) by (apply list_elem_of_lookup; eauto).
    intros row' q Hin' Hq. simpl in Hin', Hq |- *.
    apply list_elem_of_lookup in Hin'. destruct Hin' as [j Hj].
    destruct (decide (index = j)) as [Heq|Hne].
    + subst j. rewrite list_lookup_alter_eq, Hrow in Hj. simpl in Hj.
      injection Hj as <-. simpl in Hq. rewrite Hp in Hq.
      injection Hq as <-. simpl.
      pose proof (Hmarks row p Hin Hp) as Hm. simpl in Hm.
      destruct (PeerListRow.checked row); simpl; split; try discriminate;
        set_solver.
    + rewrite list_lookup_alter_ne in Hj by exact Hne.
      assert (Hrin : row' ∈ rows d) by (apply list_elem_of_lookup; eauto).
      assert (Hqp : q ≠ p).
      { intros ->.
        destruct (Hknown row Hin) as (p1 & Hp1 & Hid1 & _).
        destruct (Hknown row' Hrin) as (p2 & Hp2 & Hid2 & _).
        rewrite Hp in Hp1. rewrite Hq in Hp2.
        injection Hp1 as <-. injection Hp2 as <-.
        unfold distinct_rows in Hnd. simpl in Hnd.
        apply Hne.
        apply (NoDup_lookup _ index j (PeerData.id p) Hnd);
          rewrite list_lookup_fmap.
        - now rewrite Hrow, <- Hid1.
        - now rewrite Hj, <- Hid2. }
      pose proof (Hmarks row' q Hrin Hq) as Hm. simpl in Hm.
      rewrite Hm. destruct (PeerListRow.checked row); set_solver.
Qed.

(** All of it holds after every sequence of clicks. *)
Lemma rowsClicked_keeps (clicks : list nat) :
  ∀ s : LinkController.t * Delegate,
    rows_known s → selection_allowed s → selection_shown s →
    rows_known (rowsClicked s clicks)
    ∧ selection_allowed (rowsClicked s clicks)
    ∧ selection_shown (rowsClicked s clicks)
    ∧ _denied (fst (rowsClicked s clicks)) = _denied (fst s)
    ∧ _filterChats (fst (rowsClicked s clicks)) = _filterChats (fst s)
    ∧ _data (fst (rowsClicked s clicks)) = _data (fst s)
    ∧ PeerListRow.peer <$> rows (snd (rowsClicked s clicks))
      = PeerListRow.peer <$> rows (snd s).
Proof.
  unfold rowsClicked.
  induction clicks as [|i clicks IH]; intros s Hk Ha Hs; simpl.
  { split; [exact Hk|]. split; [exact Ha|]. split; [exact Hs|].
    repeat split; reflexivity. }
  destruct (rowClicked_keeps s i Hk Ha Hs) as (Hk1 & Ha1 & Hs1).
  destruct (rowClicked_frame s i) as (F1 & _ & F3 & F4 & _ & F6).
  destruct (IH (rowClicked s i) Hk1 Ha1 Hs1)
    as (R1 & R2 & R3 & R4 & R5 & R6 & R7).
  split; [exact R1|]. split; [exact R2|]. split; [exact R3|].
  repeat split; congruence.
Qed.

Lemma rowsClicked_sync (clicks : list nat) :
  ∀ s : LinkController.t * Delegate,
    rows_known s → selection_allowed s → selection_shown s →
    distinct_rows s → marks_selection s →
    marks_selection (rowsClicked s clicks)
    ∧ distinct_rows (rowsClicked s clicks).
Proof.
  unfold rowsClicked.
  induction clicks as [|i clicks IH]; intros s Hk Ha Hs Hnd Hm; simpl;
    [auto|].
  destruct (rowClicked_keeps s i Hk Ha Hs) as (Hk1 & Ha1 & Hs1).
  destruct (rowClicked_sync s i Hk Hnd Hm) as (Hm1 & Hnd1).
  now apply IH.
Qed.

Lemma prepared_selection_shown (f : ChatFilter.t) (data : InviteLinkData.t)
    (s : LinkController.t * Delegate) :
  prepare (new f data) empty = Ok s → selection_shown s.
Proof.
  intros Hprep.
  destruct (prepare_shape f data s Hprep)
    as ((extra & Hrows & _) & _ & _ & Hd & _ & _ & Hi & Hs & _).
  intros p Hp. rewrite Hs, Hi in Hp. apply elem_of_list_to_set in Hp.
  apply list_elem_of_fmap in Hp. destruct Hp as (h & -> & Hin).
  exists (checked_row h). split; [|reflexivity].
  rewrite Hrows, Hd. apply elem_of_app. left.
  apply list_elem_of_fmap. eauto.
Qed.

Lemma alter_back {A} (f g : A → A) (i : nat) (l : list A) :
  (∀ x, l !! i = Some x → f (g x) = x) → alter f i (alter g i l) = l.
Proof.
  intros Hback. revert i Hback.
  induction l as [|x l IH]; intros [|i] Hback; simpl; try reflexivity.
  - f_equal. now apply Hback.
  - f_equal. apply IH. intros y Hy. now apply Hback.
Qed.

(** Two clicks on a row bring back the controller and the rows, when the
    mark of the row shows whether its chat is selected. *)
Lemma rowClicked_twice (c : LinkController.t) (d : Delegate) (index : nat) :
  marks_selection (c, d) → changes_tracked c →
  fst (rowClicked (rowClicked (c, d) index) index) = c
  ∧ rows (snd (rowClicked (rowClicked (c, d) index) index)) = rows d
  ∧ ((∀ row p, rows d !! index = Some row →
               PeerListRow.peer row = Some p → _denied c !! p = None) →
     rowClicked (rowClicked (c, d) index) index = (c, d)).
Proof.
  intros Hmarks Htracked.
  unfold rowClicked at 2 4 6.
  destruct (rows d !! index) as [row|] eqn:Hrow.
  2:{ unfold rowClicked. rewrite Hrow. auto. }
  destruct (PeerListRow.peer row) as [p|] eqn:Hp.
  2:{ unfold rowClicked. rewrite Hrow, Hp. auto. }
  destruct (_denied c !! p) as [reason|] eqn:Hden.
  { split; [|split].
    - destruct (negb (isEmpty reason)); unfold rowClicked; simpl;
        rewrite Hrow, Hp, Hden; destruct (negb (isEmpty reason)); reflexivity.
    - destruct (negb (isEmpty reason)); unfold rowClicked; simpl;
        rewrite Hrow, Hp, Hden; destruct (negb (isEmpty reason)); reflexivity.
    - intros Hfree. specialize (Hfree row p eq_refl Hp). congruence. }
  assert (Hin : row ∈ rows d) by (apply list_elem_of_lookup; eauto).
  pose proof (Hmarks row p Hin Hp) as Hm. simpl in Hm.
  assert (Hwhole :
    rowClicked
      (set_hasChanges
         (bool_decide
            (_initial c ≠ (if PeerListRow.checked row
                           then _selected c ∖ {[p]}
                           else {[p]} ∪ _selected c)))
         (set_selected (if PeerListRow.checked row
                        then _selected c ∖ {[p]}
                        else {[p]} ∪ _selected c) c),
       peerListSetRowChecked index (negb (PeerListRow.checked row)) d)
      index = (c, d)).
  { unfold rowClicked. simpl.
    rewrite list_lookup_alter_eq, Hrow. simpl. rewrite Hp, Hden. simpl.
    assert (Hsel : (if negb (PeerListRow.checked row)
                    then (if PeerListRow.checked row
                          then _selected c ∖ {[p]}
                          else {[p]} ∪ _selected c) ∖ {[p]}
                    else {[p]} ∪ (if PeerListRow.checked row
                                  then _selected c ∖ {[p]}
                                  else {[p]} ∪ _selected c))
                   = _selected c).
    { destruct (PeerListRow.checked row); simpl.
      - assert (p ∈ _selected c) by now apply Hm.
        apply set_eq. intros x. rewrite elem_of_union, elem_of_difference,
          elem_of_singleton.
        destruct (decide (x = p)) as [->|]; tauto.
      - assert (p ∉ _selected c) by (intros Hx; apply Hm in Hx; discriminate).
        apply set_eq. intros x. rewrite elem_of_difference, elem_of_union,
          elem_of_singleton.
        destruct (decide (x = p)) as [->|]; tauto. }
    rewrite Hsel.
    unfold changes_tracked in Htracked. rewrite <- Htracked.
    f_equal.
    - destruct c. reflexivity.
    - unfold peerListSetRowChecked, modifyRow. simpl.
      rewrite alter_back.
      + destruct d. reflexivity.
      + intros x Hx. rewrite Hrow in Hx. injection Hx as <-.
        destruct row as [rid rpeer rchecked rstatus rname]. simpl.
        now rewrite negb_involutive. }
  cbv zeta. rewrite Hwhole. auto.
Qed.
End Clicks.

(** ** The link box, from [prepare] on *)

Section LinkBox.
Context `{lang : Lang}.
Import PeerListDelegate LinkController Prepared.

(** X7. Started on an empty list, [prepare] shows the chats of the link
    first, one checked row each in the link's order, and then unchecked
    rows of chats of the filter whose peer id is none of the link's. It
    notifies the two widgets and one refresh and shows no toast. When the
    link's chats have distinct peer ids, so have the rows. *)
Theorem prepare_rows (f : ChatFilter.t) (data : InviteLinkData.t)
    (s : LinkController.t * Delegate) :
  prepare (new f data) empty = Ok s →
  ∃ extra,
    rows (snd s) = (checked_row <$> InviteLinkData.chats data) ++ extra
    ∧ Forall (fun row =>
                PeerListRow.checked row = false
                ∧ ∃ h, h ∈ ChatFilter.always f
                       ∧ PeerListRow.peer row = Some (History.peer h)
                       ∧ PeerListRow.id row = peer_id h
                       ∧ (peer_id h ∉ peer_id <$> InviteLinkData.chats data))
        extra
    ∧ events (snd s)
      = [PeerListSetAboveWidget (negb (isEmpty (InviteLinkData.url data)));
         PeerListSetBelowWidget; PeerListRefreshRows]
    ∧ (NoDup (peer_id <$> InviteLinkData.chats data) →
       NoDup (PeerListRow.id <$> rows (snd s))).
Proof.
  intros Hprep.
  destruct (prepare_shape f data s Hprep)
    as ((extra & Hrows & Hextra & _) & _ & Hfc & Hd & Hnd & Hev & _).
  exists extra. rewrite Hd in Hrows. split; [exact Hrows|].
  split; [|split; [exact Hev|exact Hnd]].
  eapply Forall_impl; [exact Hextra|].
  intros row (Hch & h & Hh & Hp & Hid & Hout & _).
  split; [exact Hch|]. exists h. rewrite <- Hfc.
  unfold chat_ids in Hout. rewrite Hd in Hout. auto.
Qed.

(** X8. Every denial [prepare] records is explained: the denied chat is a
    chat of the filter that is no chat of the link and has an unchecked
    row, and its reason is the toast text of [ErrorForSharing], or it is
    empty, the chat can be shared and the link has no url. *)
Theorem prepare_denials (f : ChatFilter.t) (data : InviteLinkData.t)
    (s : LinkController.t * Delegate) (p : PeerData.t) (reason : QString) :
  prepare (new f data) empty = Ok s →
  _denied (fst s) !! p = Some reason →
  (∃ h, h ∈ ChatFilter.always f ∧ History.peer h = p
        ∧ (peer_id h ∉ peer_id <$> InviteLinkData.chats data)
        ∧ ((∃ e, ErrorForSharing h = Ok (Some e) ∧ reason = toast e)
           ∨ (ErrorForSharing h = Ok None
              ∧ InviteLinkData.url data = [] ∧ reason = [])))
  ∧ (p ∉ _selected (fst s))
  ∧ ∃ row, row ∈ rows (snd s) ∧ PeerListRow.peer row = Some p
           ∧ PeerListRow.checked row = false.
Proof.
  intros Hprep Hden.
  destruct (prepare_shape f data s Hprep)
    as ((extra & Hrows & Hextra & Hshown) & Hwhy & Hfc & Hd & _).
  destruct (prepare_invariants f data s Hprep) as (_ & Hallowed & _).
  split; [|split].
  - destruct (Hwhy p reason Hden) as (h & Hh & Hp & Hout & Hcase).
    exists h. rewrite <- Hfc. unfold chat_ids in Hout.
    rewrite Hd in Hout, Hcase. auto.
  - intros Hsel. destruct (Hallowed p Hsel) as [Hnone _]. congruence.
  - destruct (Hshown p) as (row & Hin & Hp); [eauto|].
    exists row. split; [rewrite Hrows; apply elem_of_app; now right|].
    split; [exact Hp|].
    rewrite Forall_forall in Hextra. now destruct (Hextra row Hin).
Qed.

(** A selected chat is not denied, and it is a chat of the link or a chat
    of the filter that can be shared. *)
Lemma selected_peer_allowed (f : ChatFilter.t) (data : InviteLinkData.t)
    (s : LinkController.t * Delegate) (clicks : list nat) (p : PeerData.t) :
  prepare (new f data) empty = Ok s →
  p ∈ _selected (fst (rowsClicked s clicks)) →
  _denied (fst s) !! p = None
  ∧ ((∃ h, h ∈ InviteLinkData.chats data ∧ History.peer h = p)
     ∨ (∃ h, h ∈ ChatFilter.always f ∧ History.peer h = p
             ∧ ErrorForSharing h = Ok None)).
Proof.
  intros Hprep Hsel.
  destruct (prepare_invariants f data s Hprep) as (Hk & Ha & _).
  pose proof (prepared_selection_shown f data s Hprep) as Hs.
  destruct (prepare_shape f data s Hprep)
    as (_ & _ & Hfc & _ & _ & _ & Hi & Hs0 & Hh0).
  destruct (rowsClicked_keeps clicks s Hk Ha Hs)
    as (_ & Ha' & _ & Hden & Hfc' & _).
  destruct (rowsClicked_tracked clicks s) as [_ Hinit].
  { unfold changes_tracked. rewrite Hh0, Hs0.
    symmetry. apply bool_decide_eq_false_2. auto. }
  destruct (Ha' p Hsel) as [Hnone Hwhy].
  split; [now rewrite <- Hden|].
  destruct Hwhy as [Hini|(h & Hh & Hp & Hsh)].
  - left. rewrite Hinit, Hi in Hini. apply elem_of_list_to_set in Hini.
    apply list_elem_of_fmap in Hini. destruct Hini as (h & -> & Hin).
    eauto.
  - right. exists h. rewrite Hfc', Hfc in Hh.
    split; [exact Hh|]. split; [exact Hp|]. now apply sharable_true.
Qed.

(** X9. Whatever rows are clicked after [prepare], a denied chat is never
    selected, and every selected chat is a chat of the link or a chat of
    the filter for which [ErrorForSharing] reports no denial. *)
Theorem selection_never_denied (f : ChatFilter.t) (data : InviteLinkData.t)
    (s : LinkController.t * Delegate) (clicks : list nat) (p : PeerData.t) :
  prepare (new f data) empty = Ok s →
  p ∈ _selected (fst (rowsClicked s clicks)) →
  _denied (fst (rowsClicked s clicks)) !! p = None
  ∧ _denied (fst s) !! p = None
  ∧ ((∃ h, h ∈ InviteLinkData.chats data ∧ History.peer h = p)
     ∨ (∃ h, h ∈ ChatFilter.always f ∧ History.peer h = p
             ∧ ErrorForSharing h = Ok None)).
Proof.
  intros Hprep Hsel.
  destruct (selected_peer_allowed f data s clicks p Hprep Hsel)
    as [Hnone Hwhy].
  destruct (prepare_invariants f data s Hprep) as (Hk & Ha & _).
  pose proof (prepared_selection_shown f data s Hprep) as Hs.
  destruct (rowsClicked_keeps clicks s Hk Ha Hs) as (_ & _ & _ & Hden & _).
  split; [now rewrite Hden|]. split; assumption.
Qed.

(** X10. When the chats of the link have distinct peer ids, the check
    marks show the selection after every sequence of clicks: a chat is
    selected exactly when it has a checked row, and no two rows share an
    id. *)
Theorem check_marks_show_selection (f : ChatFilter.t)
    (data : InviteLinkData.t) (s : LinkController.t * Delegate)
    (clicks : list nat) (p : PeerData.t) :
  NoDup (peer_id <$> InviteLinkData.chats data) →
  prepare (new f data) empty = Ok s →
  (p ∈ _selected (fst (rowsClicked s clicks))
   ↔ ∃ row, row ∈ rows (snd (rowsClicked s clicks))
            ∧ PeerListRow.peer row = Some p
            ∧ PeerListRow.checked row = true)
  ∧ NoDup (PeerListRow.id <$> rows (snd (rowsClicked s clicks))).
Proof.
  intros Hnd Hprep.
  destruct (prepare_invariants f data s Hprep) as (Hk & Ha & Hm).
  pose proof (prepared_selection_shown f data s Hprep) as Hs.
  destruct (prepare_shape f data s Hprep) as (_ & _ & _ & _ & Hd & _).
  destruct (rowsClicked_keeps clicks s Hk Ha Hs) as (_ & _ & Hs' & _).
  destruct (rowsClicked_sync clicks s Hk Ha Hs (Hd Hnd) Hm) as (Hm' & Hd').
  split; [|exact Hd'].
  split.
  - intros Hsel. destruct (Hs' p Hsel) as (row & Hin & Hp).
    exists row. split; [exact Hin|]. split; [exact Hp|].
    now apply (Hm' row p Hin Hp).
  - intros (row & Hin & Hp & Hch). now apply (Hm' row p Hin Hp).
Qed.

(** X11. When the chats of the link have distinct peer ids, a second click
    on a row undoes the first, in every state the clicks reach: the
    controller and the rows are as before, and nothing else changed unless
    the row shows a denied chat, whose toasts stay. *)
Theorem second_click_undoes (f : ChatFilter.t) (data : InviteLinkData.t)
    (s : LinkController.t * Delegate) (clicks : list nat) (index : nat) :
  NoDup (peer_id <$> InviteLinkData.chats data) →
  prepare (new f data) empty = Ok s →
  fst (rowClicked (rowClicked (rowsClicked s clicks) index) index)
  = fst (rowsClicked s clicks)
  ∧ rows (snd (rowClicked (rowClicked (rowsClicked s clicks) index) index))
    = rows (snd (rowsClicked s clicks))
  ∧ ((∀ row q, rows (snd (rowsClicked s clicks)) !! index = Some row →
               PeerListRow.peer row = Some q →
               _denied (fst (rowsClicked s clicks)) !! q = None) →
     rowClicked (rowClicked (rowsClicked s clicks) index) index
     = rowsClicked s clicks).
Proof.
  intros Hnd Hprep.
  destruct (prepare_invariants f data s Hprep) as (Hk & Ha & Hm).
  pose proof (prepared_selection_shown f data s Hprep) as Hs.
  destruct (prepare_shape f data s Hprep)
    as (_ & _ & _ & _ & Hd & _ & _ & Hs0 & Hh0).
  destruct (rowsClicked_sync clicks s Hk Ha Hs (Hd Hnd) Hm) as (Hm' & _).
  destruct (rowsClicked_tracked clicks s) as [Htr _].
  { unfold changes_tracked. rewrite Hh0, Hs0.
    symmetry. apply bool_decide_eq_false_2. auto. }
  destruct (rowsClicked s clicks) as [c d].
  apply rowClicked_twice; assumption.
Qed.

End LinkBox.

Lemma sample_chats_distinct :
  NoDup (peer_id <$> InviteLinkData.chats Sample.shared_link).
Proof. apply NoDup_singleton. Defined.

Lemma sample_prepared :
  @LinkController.prepare Sample.lang
    (LinkController.new Sample.work_filter Sample.shared_link)
    PeerListDelegate.empty
  = Ok Sample.shared_state.
Proof. vm_compute. reflexivity. Defined.

Lemma prepare_rows_witness :
  NoDup (PeerListRow.id <$> PeerListDelegate.rows (snd Sample.shared_state)).
Proof.
  destruct (@prepare_rows Sample.lang Sample.work_filter Sample.shared_link
              Sample.shared_state sample_prepared)
    as (extra & _ & _ & _ & Hnd).
  exact (Hnd sample_chats_distinct).
Defined.

Lemma prepare_denials_witness :
  Sample.bot ∉ LinkController._selected (fst Sample.shared_state).
Proof.
  refine (proj1 (proj2 (@prepare_denials Sample.lang Sample.work_filter
            Sample.shared_link Sample.shared_state Sample.bot
            (qs "lng_filters_link_bot_error") sample_prepared _))).
  vm_compute. reflexivity.
Defined.

Lemma selection_never_denied_witness :
  LinkController._denied (fst Sample.shared_state) !! Sample.group 6 true
  = None.
Proof.
  refine (proj1 (proj2 (@selection_never_denied Sample.lang
            Sample.work_filter Sample.shared_link Sample.shared_state
            [1; 2; 1; 0]%nat (Sample.group 6 true) sample_prepared _))).
  vm_compute. reflexivity.
Defined.

Lemma check_marks_show_selection_witness :
  NoDup (PeerListRow.id
           <$> PeerListDelegate.rows
                 (snd (LinkController.rowsClicked Sample.shared_state
                         [1; 2; 1; 0]%nat))).
Proof.
  exact (proj2 (@check_marks_show_selection Sample.lang Sample.work_filter
                  Sample.shared_link Sample.shared_state [1; 2; 1; 0]%nat
                  Sample.bot sample_chats_distinct sample_prepared)).
Defined.

Lemma second_click_undoes_witness :
  fst (LinkController.rowClicked
         (LinkController.rowClicked
            (LinkController.rowsClicked Sample.shared_state [2; 0]%nat)
            1%nat) 1%nat)
  = fst (LinkController.rowsClicked Sample.shared_state [2; 0]%nat).
Proof.
  exact (proj1 (@second_click_undoes Sample.lang Sample.work_filter
                  Sample.shared_link Sample.shared_state [2; 0]%nat 1%nat
                  sample_chats_distinct sample_prepared)).
Defined.

(** ** When [prepare] returns, and what it denies *)

Section PrepareOutcome.
Context `{lang : Lang}.
Import PeerListDelegate LinkController Prepared.

Lemma ErrorForSharing_known (h : History.t) :
  PeerData.kind (History.peer h) ≠ PeerData.Other →
  ∃ e, ErrorForSharing h = Ok e.
Proof.
  unfold ErrorForSharing, PeerData.asUser, PeerData.asChat,
    PeerData.asChannel.
  destruct (PeerData.kind (History.peer h)) as [[b]|[a]|[a m]|]; simpl;
    intros Hk; try (destruct a); try (now elim Hk); eauto.
Qed.

Lemma ErrorForSharing_fatal (h : History.t) (flt : Fault) :
  ErrorForSharing h = Fatal flt →
  PeerData.kind (History.peer h) = PeerData.Other.
Proof.
  intros Hf.
  destruct (decide (PeerData.kind (History.peer h) = PeerData.Other))
    as [Hk|Hk]; [exact Hk|].
  destruct (ErrorForSharing_known h Hk) as [e He]. congruence.
Qed.

Lemma prepare_filter_chats_ok (chats : list History.t) :
  ∀ s : LinkController.t * Delegate,
    (∀ h, h ∈ chats → PeerData.kind (History.peer h) ≠ PeerData.Other) →
    ∃ s', prepare_filter_chats s chats = Ok s'.
Proof.
  induction chats as [|h chats IH]; intros s Hknown; simpl; [eauto|].
  assert (∃ s1, prepare_filter_chat s h = Ok s1) as [s1 ->].
  { destruct s as [c d]. unfold prepare_filter_chat.
    destruct (peerListFindRow _ d); [eauto|].
    destruct (ErrorForSharing_known h) as [[e|] ->]; simpl;
      [apply Hknown; left|eauto|].
    destruct (isEmpty _); eauto. }
  simpl. apply IH. intros h' Hin. apply Hknown. now right.
Qed.

Lemma prepare_filter_chats_fatal (chats : list History.t) :
  ∀ (s : LinkController.t * Delegate) (flt : Fault),
    prepare_filter_chats s chats = Fatal flt →
    ∃ h, h ∈ chats ∧ PeerData.kind (History.peer h) = PeerData.Other.
Proof.
  induction chats as [|h chats IH]; intros s flt; simpl; [discriminate|].
  destruct (prepare_filter_chat s h) as [s1|flt1] eqn:E; simpl.
  - intros Hf. destruct (IH _ _ Hf) as (h' & Hin & Hk).
    exists h'. split; [now right|exact Hk].
  - intros _. exists h. split; [left|].
    destruct s as [c d]. unfold prepare_filter_chat in E.
    destruct (peerListFindRow _ d); [discriminate|].
    destruct (ErrorForSharing h) as [[e|]|flt2] eqn:Herr; simpl in E.
    + discriminate.
    + destruct (isEmpty _); discriminate.
    + eapply ErrorForSharing_fatal. exact Herr.
Qed.

(** X12. [prepare] returns when the link has a url or no chats and every
    chat of the filter is a user, a group or a channel. When it does not
    return, the fault is its own precondition, or it is the [Unexpected] of
    [ErrorForSharing] and the filter holds a chat of another kind. *)
Theorem prepare_outcome (f : ChatFilter.t) (data : InviteLinkData.t)
    (d : Delegate) :
  (InviteLinkData.url data ≠ [] ∨ InviteLinkData.chats data = [] →
   (∀ h, h ∈ ChatFilter.always f →
         PeerData.kind (History.peer h) ≠ PeerData.Other) →
   ∃ s, prepare (new f data) d = Ok s)
  ∧ (∀ flt, prepare (new f data) d = Fatal flt →
       (flt = ExpectsFailed "!_data.url.isEmpty() || _data.chats.empty()"
        ∧ InviteLinkData.url data = [] ∧ InviteLinkData.chats data ≠ [])
       ∨ (flt = UnexpectedValue "Peer type in ErrorForSharing."
          ∧ ∃ h, h ∈ ChatFilter.always f
                 ∧ PeerData.kind (History.peer h) = PeerData.Other)).
Proof.
  split.
  - intros Hpre Hknown. unfold prepare. simpl.
    assert (Hb : negb (isEmpty (InviteLinkData.url data))
                 || bool_decide (InviteLinkData.chats data = []) = true).
    { destruct Hpre as [Hurl|Hchats].
      - destruct (InviteLinkData.url data); [congruence|reflexivity].
      - rewrite (bool_decide_eq_true_2 _ Hchats). apply orb_true_r. }
    rewrite Hb. simpl.
    match goal with
    | |- context [prepare_filter_chats ?s0 ?l] =>
        destruct (prepare_filter_chats_ok l s0 Hknown) as [[c' d'] Hok]
    end.
    rewrite Hok. simpl. eauto.
  - intros flt. unfold prepare. simpl.
    destruct (negb (isEmpty (InviteLinkData.url data))
              || bool_decide (InviteLinkData.chats data = [])) eqn:Hb; simpl.
    + destruct (prepare_filter_chats _ _) as [[c' d']|flt'] eqn:E; simpl;
        [discriminate|].
      intros [= <-]. right.
      split; [eapply prepare_filter_chats_fault; exact E|].
      eapply prepare_filter_chats_fatal. exact E.
    + intros [= <-]. left. apply orb_false_iff in Hb. destruct Hb as [Hu Hc].
      split; [reflexivity|]. split.
      * destruct (InviteLinkData.url data); [reflexivity|discriminate].
      * now apply bool_decide_eq_false in Hc.
Qed.

End PrepareOutcome.

Lemma prepare_outcome_witness :
  ∃ s, @LinkController.prepare Sample.lang
         (LinkController.new Sample.work_filter Sample.shared_link)
         PeerListDelegate.empty = Ok s.
Proof.
  apply (proj1 (@prepare_outcome Sample.lang Sample.work_filter
                  Sample.shared_link PeerListDelegate.empty)).
  - left. discriminate.
  - intros h Hin. simpl in Hin.
    repeat (apply elem_of_cons in Hin; destruct Hin as [->|Hin];
            [discriminate|]).
    now apply not_elem_of_nil in Hin.
Defined.

Section Denials.
Context `{lang : Lang}.
Import PeerListDelegate LinkController Prepared.

(** One round of the loop, told apart: the chat has a row and nothing
    happens, or it gets a row and its denial is decided. *)
Lemma prepare_filter_chat_round (c : LinkController.t) (d : Delegate)
    (h : History.t) (s1 : LinkController.t * Delegate) :
  prepare_filter_chat (c, d) h = Ok s1 →
  (peer_id h ∈ PeerListRow.id <$> rows d ∧ s1 = (c, d))
  ∨ ((peer_id h ∉ PeerListRow.id <$> rows d)
     ∧ PeerListRow.id <$> rows (snd s1)
       = (PeerListRow.id <$> rows d) ++ [peer_id h]
     ∧ _data (fst s1) = _data c
     ∧ ∃ e, ErrorForSharing h = Ok e
            ∧ _denied (fst s1)
              = match e with
                | Some e => emplace (History.peer h) (toast e) (_denied c)
                | None =>
                    if isEmpty (InviteLinkData.url (_data c))
                    then emplace (History.peer h) [] (_denied c)
                    else _denied c
                end).
Proof.
  unfold prepare_filter_chat, peerListFindRow.
  destruct (list_find _ (rows d)) as [[i row]|] eqn:Hfind; simpl.
  - intros [= <-]. left. split; [|reflexivity].
    apply list_find_Some in Hfind. destruct Hfind as (Hrow & Hid & _).
    apply list_elem_of_fmap. exists row. split; [now symmetry|].
    apply list_elem_of_lookup. eauto.
  - intros Hstep. right.
    apply list_find_None in Hfind.
    split.
    { intros Hin. apply list_elem_of_fmap in Hin.
      destruct Hin as (row & Hid & Hin).
      rewrite Forall_forall in Hfind. apply (Hfind row Hin). now symmetry. }
    destruct (ErrorForSharing h) as [[e|]|flt]; simpl in Hstep;
      [| |discriminate].
    + injection Hstep as <-. simpl.
      split; [|split; [reflexivity|eauto]].
      unfold peerListFullRowsCount. simpl. rewrite alter_last.
      now rewrite fmap_app.
    + destruct (isEmpty (InviteLinkData.url (_data c))) eqn:Hurl;
        injection Hstep as <-; simpl.
      * split; [now rewrite fmap_app|]. split; [reflexivity|].
        exists None. split; reflexivity.
      * split; [now rewrite fmap_app|]. split; [reflexivity|].
        exists None. split; reflexivity.
Qed.

(** The loop never touches the denial of a chat whose id has a row. *)
Lemma prepare_filter_chats_settled (chats : list History.t) :
  ∀ (s s' : LinkController.t * Delegate) (p : PeerData.t),
    prepare_filter_chats s chats = Ok s' →
    PeerData.id p ∈ PeerListRow.id <$> rows (snd s) →
    _denied (fst s') !! p = _denied (fst s) !! p.
Proof.
  induction chats as [|h chats IH]; intros s s' p; simpl.
  - now intros [= <-].
  - destruct (prepare_filter_chat s h) as [s1|flt] eqn:E; [|discriminate].
    simpl. intros Hrest Hrow. destruct s as [c d].
    destruct (prepare_filter_chat_round c d h s1 E)
      as [[_ ->]|(Hfresh & Hids & _ & e & _ & Hden)].
    + now apply IH.
    + rewrite (IH s1 s' p Hrest).
      * rewrite Hden. simpl in Hrow.
        assert (Hne : History.peer h ≠ p)
          by (intros <-; now apply Hfresh).
        assert (Hother : ∀ reason,
                  emplace (History.peer h) reason (_denied c) !! p
                  = _denied c !! p).
        { intros reason. unfold emplace.
          destruct (_denied c !! History.peer h); [reflexivity|].
          now rewrite lookup_insert_ne. }
        destruct e as [e|]; [apply Hother|].
        simpl. destruct (isEmpty _); [apply Hother|reflexivity].
      * rewrite Hids. apply elem_of_app. now left.
Qed.

(** Every chat of the loop that is new to the list and comes once gets
    the denial [ErrorForSharing] and the url decide. *)
Lemma prepare_filter_chats_decided (chats : list History.t) :
  ∀ s s' : LinkController.t * Delegate,
    prepare_filter_chats s chats = Ok s' →
    NoDup (peer_id <$> chats) →
    (∀ p, is_Some (_denied (fst s) !! p) →
          PeerData.id p ∈ PeerListRow.id <$> rows (snd s)) →
    ∀ h, h ∈ chats → (peer_id h ∉ PeerListRow.id <$> rows (snd s)) →
      ∃ e, ErrorForSharing h = Ok e
           ∧ _denied (fst s') !! History.peer h
             = match e with
               | Some e => Some (toast e)
               | None => if isEmpty (InviteLinkData.url (_data (fst s)))
                         then Some [] else None
               end.
Proof.
  induction chats as [|h0 chats IH]; intros s s' Hloop Hnd Hkeys h Hin Hnew.
  { now apply not_elem_of_nil in Hin. }
  simpl in Hloop.
  destruct (prepare_filter_chat s h0) as [s1|flt] eqn:E; [|discriminate].
  simpl in Hloop. destruct s as [c d]. simpl in *.
  apply NoDup_cons in Hnd. destruct Hnd as [Hh0 Hnd].
  destruct (prepare_filter_chat_round c d h0 s1 E)
    as [[Hold ->]|(Hfresh & Hids & Hdata & e & Herr & Hden)].
  - apply elem_of_cons in Hin. destruct Hin as [->|Hin]; [contradiction|].
    apply (IH (c, d) s' Hloop Hnd Hkeys h Hin Hnew).
  - assert (Hnone : _denied c !! History.peer h0 = None).
    { destruct (_denied c !! History.peer h0) eqn:Hl; [|reflexivity].
      exfalso. apply Hfresh. apply Hkeys. eauto. }
    assert (Hkeys1 : ∀ p, is_Some (_denied (fst s1) !! p) →
                          PeerData.id p ∈ PeerListRow.id <$> rows (snd s1)).
    { intros p [r Hp]. rewrite Hids. rewrite Hden in Hp.
      assert (Hcase : ∀ reason,
                emplace (History.peer h0) reason (_denied c) !! p = Some r →
                PeerData.id p ∈ (PeerListRow.id <$> rows d) ++ [peer_id h0]).
      { intros reason Hl. apply emplace_lookup in Hl.
        destruct Hl as [Hl|(_ & -> & _)].
        - apply elem_of_app. left. apply Hkeys. eauto.
        - apply elem_of_app. right. left. }
      destruct e as [e|]; [eapply Hcase; exact Hp|].
      destruct (isEmpty _); [eapply Hcase; exact Hp|].
      apply elem_of_app. left. apply Hkeys. eauto. }
    apply elem_of_cons in Hin. destruct Hin as [->|Hin].
    + exists e. split; [exact Herr|].
      rewrite (prepare_filter_chats_settled chats s1 s' _ Hloop).
      * rewrite Hden.
        assert (Hput : ∀ reason,
                  emplace (History.peer h0) reason (_denied c)
                  !! History.peer h0 = Some reason).
        { intros reason. unfold emplace. rewrite Hnone.
          apply lookup_insert_eq. }
        destruct e as [e|]; [apply Hput|].
        destruct (isEmpty _); [apply Hput|exact Hnone].
      * rewrite Hids. apply elem_of_app. right. left.
    + destruct (IH s1 s' Hloop Hnd Hkeys1 h Hin) as (e' & Herr' & Hres).
      * rewrite Hids. intros Hx. apply elem_of_app in Hx.
        destruct Hx as [Hx|Hx]; [contradiction|].
        apply list_elem_of_singleton in Hx. apply Hh0.
        rewrite <- Hx. apply list_elem_of_fmap. eauto.
      * exists e'. split; [exact Herr'|]. now rewrite Hres, Hdata.
Qed.

End Denials.

Section DenialsDecided.
Context `{lang : Lang}.
Import PeerListDelegate LinkController Prepared.

(** What [prepare] decides for a chat of the filter that is no chat of the
    link. *)
Lemma new_chat_decided (f : ChatFilter.t) (data : InviteLinkData.t)
    (s : LinkController.t * Delegate) (h : History.t) :
  NoDup (peer_id <$> ChatFilter.always f) →
  prepare (new f data) empty = Ok s →
  h ∈ ChatFilter.always f →
  (peer_id h ∉ peer_id <$> InviteLinkData.chats data) →
  ∃ e, ErrorForSharing h = Ok e
       ∧ _denied (fst s) !! History.peer h
         = match e with
           | Some e => Some (toast e)
           | None => if isEmpty (InviteLinkData.url data)
                     then Some [] else None
           end.
Proof.
  intros Hnd Hprep Hin Hout.
  unfold prepare in Hprep.
  destruct (Expects _ _) as [[]|flt]; simpl in Hprep; [|discriminate].
  set (d0 := setupBelowWidget (new f data)
               (setupAboveWidget (new f data) empty)) in Hprep.
  set (s1 := fold_left prepare_chat (InviteLinkData.chats data)
               (new f data, d0)) in Hprep.
  assert (Hc1 : fst s1
                = set_initial (list_to_set (History.peer
                                 <$> InviteLinkData.chats data)
                               ∪ _initial (new f data)) (new f data))
    by apply prepare_chat_fold.
  assert (Hd1 : snd s1
                = {| rows := rows d0 ++ (checked_row
                                           <$> InviteLinkData.chats data);
                     events := events d0 |})
    by apply prepare_chat_rows.
  destruct (prepare_filter_chats s1 (ChatFilter.always f))
    as [[c2 d2]|flt] eqn:E; simpl in Hprep; [|discriminate].
  injection Hprep as <-. simpl.
  destruct (prepare_filter_chats_decided (ChatFilter.always f) s1 (c2, d2)
              E Hnd) with (h := h) as (e & Herr & Hres).
  - intros p [r Hp]. rewrite Hc1 in Hp. simpl in Hp.
    rewrite lookup_empty in Hp. discriminate.
  - exact Hin.
  - rewrite Hd1. simpl. now rewrite checked_row_ids.
  - exists e. split; [exact Herr|]. simpl in Hres. rewrite Hres.
    now rewrite Hc1.
Qed.

(** X13. With distinct peer ids in the filter, [prepare] decides every
    chat of the filter that is no chat of the link: it is denied with the
    toast text of [ErrorForSharing] when that reports a denial, denied
    with an empty reason when it reports none and the link has no url, and
    not denied otherwise. Under a link with a url the chats left free are
    exactly those [ErrorForSharing] lets through. *)
Theorem denial_decided (f : ChatFilter.t) (data : InviteLinkData.t)
    (s : LinkController.t * Delegate) (h : History.t) :
  NoDup (peer_id <$> ChatFilter.always f) →
  prepare (new f data) empty = Ok s →
  h ∈ ChatFilter.always f →
  (peer_id h ∉ peer_id <$> InviteLinkData.chats data) →
  (∃ e, ErrorForSharing h = Ok e
        ∧ _denied (fst s) !! History.peer h
          = match e with
            | Some e => Some (toast e)
            | None => if isEmpty (InviteLinkData.url data)
                      then Some [] else None
            end)
  ∧ (InviteLinkData.url data ≠ [] →
     (_denied (fst s) !! History.peer h = None ↔ sharable h = true)).
Proof.
  intros Hnd Hprep Hin Hout.
  pose proof (new_chat_decided f data s h Hnd Hprep Hin Hout) as Hmain.
  split; [exact Hmain|].
  intros Hurl. destruct Hmain as (e & Herr & Hres).
  rewrite Hres. unfold sharable. rewrite Herr.
  destruct e as [e|]; [split; discriminate|].
  destruct (InviteLinkData.url data); [congruence|]. simpl. tauto.
Qed.

Lemma CollectChats_inv (histories : list History.t) :
  ∀ peers, CollectChats histories = Ok peers →
    peers = History.peer <$> List.filter sharable histories
    ∧ ∀ h, h ∈ histories → ∃ e, ErrorForSharing h = Ok e.
Proof.
  induction histories as [|h rest IH]; intros peers; simpl.
  - intros [= <-]. split; [reflexivity|].
    intros h Hin. now apply not_elem_of_nil in Hin.
  - unfold sharable at 1.
    destruct (ErrorForSharing h) as [e|flt] eqn:Herr; simpl; [|discriminate].
    destruct (CollectChats rest) as [ps|flt] eqn:Hrest; simpl;
      [|discriminate].
    intros [= <-]. destruct (IH ps eq_refl) as [-> Hall].
    split.
    + destruct e; reflexivity.
    + intros h' Hin. apply elem_of_cons in Hin.
      destruct Hin as [->|Hin]; [eauto|now apply Hall].
Qed.

Lemma NoDup_fmap_inj {A B} (g : A → B) (l : list A) (x y : A) :
  NoDup (g <$> l) → x ∈ l → y ∈ l → g x = g y → x = y.
Proof.
  intros Hnd Hx Hy Hg.
  apply list_elem_of_lookup in Hx. destruct Hx as [i Hi].
  apply list_elem_of_lookup in Hy. destruct Hy as [j Hj].
  assert (i = j).
  { apply (NoDup_lookup _ i j (g x) Hnd); rewrite list_lookup_fmap.
    - now rewrite Hi.
    - rewrite Hj. simpl. now rewrite Hg. }
  subst j. congruence.
Qed.

(** X14. A link that holds exactly the chats [CollectFilterLinkChats]
    returns for the filter opens with these chats selected and checked,
    and with every other chat of the filter denied under the toast text of
    [ErrorForSharing]: no chat of the filter is left to add. *)
Theorem exported_link_box (f : ChatFilter.t) (data : InviteLinkData.t)
    (s : LinkController.t * Delegate) (peers : list PeerData.t) :
  NoDup (peer_id <$> ChatFilter.always f) →
  CollectFilterLinkChats f = Ok peers →
  History.peer <$> InviteLinkData.chats data = peers →
  prepare (new f data) empty = Ok s →
  _selected (fst s) = list_to_set peers
  ∧ ∀ h, h ∈ ChatFilter.always f →
      (sharable h = true →
       History.peer h ∈ _selected (fst s)
       ∧ _denied (fst s) !! History.peer h = None)
      ∧ (sharable h = false →
         (History.peer h ∉ _selected (fst s))
         ∧ ∃ e, ErrorForSharing h = Ok (Some e)
                ∧ _denied (fst s) !! History.peer h = Some (toast e)).
Proof.
  intros Hnd Hcollect Hchats Hprep.
  unfold CollectFilterLinkChats in Hcollect.
  destruct (CollectChats_inv _ _ Hcollect) as [Hpeers Hok].
  destruct (prepare_shape f data s Hprep)
    as (_ & _ & _ & _ & _ & _ & Hi & Hs & _).
  destruct (prepare_invariants f data s Hprep) as (_ & Hallowed & _).
  assert (Hsel : _selected (fst s) = list_to_set peers)
    by (now rewrite Hs, Hi, Hchats).
  split; [exact Hsel|].
  intros h Hin. split.
  - intros Hsh.
    assert (Hp : History.peer h ∈ _selected (fst s)).
    { rewrite Hsel, Hpeers. apply elem_of_list_to_set.
      apply list_elem_of_fmap. exists h. split; [reflexivity|].
      apply list_elem_of_In, filter_In. split; [|exact Hsh].
      now apply list_elem_of_In. }
    split; [exact Hp|]. now destruct (Hallowed _ Hp).
  - intros Hsh.
    assert (Hout : peer_id h ∉ peer_id <$> InviteLinkData.chats data).
    { intros Hx.
      assert (Hids : peer_id <$> InviteLinkData.chats data
                     = PeerData.id <$> peers).
      { rewrite <- Hchats, <- list_fmap_compose. reflexivity. }
      rewrite Hids, Hpeers, <- list_fmap_compose in Hx.
      apply list_elem_of_fmap in Hx. destruct Hx as (h' & Hid & Hin').
      apply list_elem_of_In, filter_In in Hin'. destruct Hin' as [Hin' Hsh'].
      apply list_elem_of_In in Hin'.
      assert (h = h') by (eapply NoDup_fmap_inj; eauto).
      subst h'. congruence. }
    destruct (new_chat_decided f data s h Hnd Hprep Hin Hout)
      as (e & Herr & Hres).
    unfold sharable in Hsh. rewrite Herr in Hsh.
    destruct e as [e|]; [|discriminate].
    split; [|eauto].
    intros Hp. destruct (Hallowed _ Hp) as [Hnone _]. congruence.
Qed.

End DenialsDecided.

Lemma sample_filter_distinct :
  NoDup (peer_id <$> ChatFilter.always Sample.work_filter).
Proof.
  simpl. repeat (apply NoDup_cons; split;
                 [intros Hin;
                  repeat (apply elem_of_cons in Hin;
                          destruct Hin as [Hin|Hin]; [discriminate|]);
                  now apply not_elem_of_nil in Hin|]).
  apply NoDup_nil. exact I.
Defined.

Lemma denial_decided_witness :
  LinkController._denied (fst Sample.shared_state) !! Sample.bot = None
  ↔ @sharable Sample.lang (Sample.history Sample.bot) = true.
Proof.
  refine (proj2 (@denial_decided Sample.lang Sample.work_filter
            Sample.shared_link Sample.shared_state
            (Sample.history Sample.bot)
            sample_filter_distinct sample_prepared _ _) _).
  - simpl. right. left.
  - simpl. intros Hin. apply list_elem_of_singleton in Hin. discriminate.
  - discriminate.
Defined.

Lemma exported_link_box_witness :
  ∃ s, @LinkController.prepare Sample.lang
         (LinkController.new Sample.work_filter
            (Sample.link "https://t.me/+abc" ""
               [Sample.group 5 true; Sample.group 6 true]))
         PeerListDelegate.empty = Ok s
       ∧ LinkController._selected (fst s)
         = list_to_set [Sample.group 5 true; Sample.group 6 true].
Proof.
  eexists. split; [vm_compute; reflexivity|].
  refine (proj1 (@exported_link_box Sample.lang Sample.work_filter
            (Sample.link "https://t.me/+abc" ""
               [Sample.group 5 true; Sample.group 6 true])
            _ [Sample.group 5 true; Sample.group 6 true]
            sample_filter_distinct _ _ _)).
  - vm_compute. reflexivity.
  - reflexivity.
  - vm_compute. reflexivity.
Defined.

(** ** Editing and exporting *)

Section Requests.
Context `{lang : Lang}.
Import PeerListDelegate LinkController.

(** What [EditLinkChats] has sent when it returns. *)
Lemma EditLinkChats_sent (link : InviteLinkData.t) (peers : gset PeerData.t)
    (events : list Event) :
  EditLinkChats link peers = Ok events →
  peers ≠ ∅ ∧ InviteLinkData.id link ≠ 0 ∧ InviteLinkData.url link ≠ []
  ∧ ∃ sent,
      events = [SendRequest
                  (MTPcommunities_EditExportedInvite
                     (InviteLinkData.id link) (InviteLinkData.url link)
                     sent)]
      ∧ NoDup sent ∧ sent ≠ []
      ∧ length sent = size peers
      ∧ ∀ p, p ∈ sent ↔ p ∈ peers.
Proof.
  unfold EditLinkChats, Expects.
  destruct (decide (peers = ∅)) as [Hp|Hp].
  { rewrite (bool_decide_eq_true_2 _ Hp). discriminate. }
  rewrite (bool_decide_eq_false_2 _ Hp). simpl.
  destruct (InviteLinkData.id link =? 0) eqn:E; simpl; [discriminate|].
  apply Z.eqb_neq in E.
  destruct (InviteLinkData.url link) as [|u url] eqn:Hurl; simpl;
    [discriminate|].
  intros [= <-]. repeat split; try assumption; try discriminate.
  exists (elements peers). split; [reflexivity|].
  split; [apply NoDup_elements|]. split; [|split].
  - intros Hnil. apply elements_empty_inv in Hnil.
    apply Hp. now apply leibniz_equiv.
  - reflexivity.
  - intros p. apply elem_of_elements.
Qed.

(** X15. [EditLinkChats] checks its three preconditions in order: an empty
    set of peers, then a zero filter id, then an empty url, each a fault of
    its own. Otherwise it sends one edit request for the link, naming every
    peer of the set exactly once. *)
Theorem EditLinkChats_outcome (link : InviteLinkData.t)
    (peers : gset PeerData.t) :
  (peers = ∅ →
   EditLinkChats link peers = Fatal (ExpectsFailed "!peers.empty()"))
  ∧ (peers ≠ ∅ → InviteLinkData.id link = 0 →
     EditLinkChats link peers = Fatal (ExpectsFailed "link.id != 0"))
  ∧ (peers ≠ ∅ → InviteLinkData.id link ≠ 0 →
     InviteLinkData.url link = [] →
     EditLinkChats link peers = Fatal (ExpectsFailed "!link.url.isEmpty()"))
  ∧ (∀ events, EditLinkChats link peers = Ok events →
       peers ≠ ∅ ∧ InviteLinkData.id link ≠ 0
       ∧ InviteLinkData.url link ≠ []
       ∧ ∃ sent,
           events = [SendRequest
                       (MTPcommunities_EditExportedInvite
                          (InviteLinkData.id link)
                          (InviteLinkData.url link) sent)]
           ∧ NoDup sent ∧ sent ≠ []
           ∧ length sent = size peers
           ∧ ∀ p, p ∈ sent ↔ p ∈ peers).
Proof.
  split; [|split; [|split]].
  - intros ->. reflexivity.
  - intros Hp Hid. unfold EditLinkChats, Expects.
    rewrite (bool_decide_eq_false_2 _ Hp). simpl.
    rewrite Hid. reflexivity.
  - intros Hp Hid Hurl. unfold EditLinkChats, Expects.
    rewrite (bool_decide_eq_false_2 _ Hp). simpl.
    destruct (InviteLinkData.id link =? 0) eqn:E;
      [apply Z.eqb_eq in E; contradiction|]. simpl.
    rewrite Hurl. reflexivity.
  - intros events. apply EditLinkChats_sent.
Qed.

(** X16. Whatever was clicked since [prepare], a Save that returns shows
    the empty-selection toast, or sends one edit request whose peers are
    the selection, each once: none of them is a denied chat, and each is a
    chat of the link or a chat of the filter for which [ErrorForSharing]
    reports no denial. *)
Theorem save_sends_allowed (f : ChatFilter.t) (link : InviteLinkData.t)
    (s : LinkController.t * Delegate) (clicks : list nat)
    (events : list Event) :
  prepare (new f link) empty = Ok s →
  ShowLinkBox.press link (fst (rowsClicked s clicks)) ShowLinkBox.Save
  = Ok events →
  (_selected (fst (rowsClicked s clicks)) = ∅
   ∧ events = [ShowMultilineToast (tr lng_filters_empty)])
  ∨ ∃ sent,
      events = [SendRequest
                  (MTPcommunities_EditExportedInvite
                     (InviteLinkData.id link) (InviteLinkData.url link)
                     sent)]
      ∧ NoDup sent ∧ sent ≠ []
      ∧ (∀ p, p ∈ sent ↔ p ∈ _selected (fst (rowsClicked s clicks)))
      ∧ ∀ p, p ∈ sent →
          _denied (fst s) !! p = None
          ∧ ((∃ h, h ∈ InviteLinkData.chats link ∧ History.peer h = p)
             ∨ (∃ h, h ∈ ChatFilter.always f ∧ History.peer h = p
                     ∧ ErrorForSharing h = Ok None)).
Proof.
  intros Hprep. unfold ShowLinkBox.press, selected.
  destruct (decide (_selected (fst (rowsClicked s clicks)) = ∅)) as [He|He].
  - rewrite (bool_decide_eq_true_2 _ He). intros [= <-]. now left.
  - rewrite (bool_decide_eq_false_2 _ He). intros Hedit. right.
    destruct (EditLinkChats_sent link _ events Hedit)
      as (_ & _ & _ & sent & -> & Hnd & Hne & _ & Hmem).
    exists sent. repeat split; try assumption; try (now apply Hmem).
    + apply Hmem in H.
      now destruct (selected_peer_allowed f link s clicks p Hprep H)
        as (Hd & _).
    + apply Hmem in H.
      now destruct (selected_peer_allowed f link s clicks p Hprep H)
        as (_ & Hw).
Qed.

End Requests.

Lemma EditLinkChats_outcome_witness :
  EditLinkChats
    {| InviteLinkData.id := 0; InviteLinkData.url := qs "https://t.me/+abc";
       InviteLinkData.title := []; InviteLinkData.chats := [] |}
    {[Sample.group 5 true]}
  = Fatal (ExpectsFailed "link.id != 0").
Proof.
  apply (proj1 (proj2 (EditLinkChats_outcome
           {| InviteLinkData.id := 0;
              InviteLinkData.url := qs "https://t.me/+abc";
              InviteLinkData.title := []; InviteLinkData.chats := [] |}
           {[Sample.group 5 true]}))).
  - intros Habs.
    assert (Sample.group 5 true ∈ (∅ : gset PeerData.t))
      by (rewrite <- Habs; set_solver).
    set_solver.
  - reflexivity.
Defined.

Lemma save_sends_allowed_witness :
  LinkController._denied (fst Sample.shared_state) !! Sample.group 6 true
  = None.
Proof.
  destruct (@save_sends_allowed Sample.lang Sample.work_filter
              Sample.shared_link Sample.shared_state [0; 2]%nat
              [SendRequest
                 (MTPcommunities_EditExportedInvite 2
                    (qs "https://t.me/+abc") [Sample.group 6 true])]
              sample_prepared ltac:(vm_compute; reflexivity))
    as [[_ Hev]|(sent & Hev & _ & _ & _ & Hall)].
  - discriminate Hev.
  - injection Hev as <-. apply Hall. left.
Defined.

Section ExportLink.
Context `{lang : Lang} `{store : FiltersStore}.
Import PeerListDelegate LinkController ExportFilterLink.

Lemma filter_none {A} (test : A → bool) (l : list A) :
  List.filter test l = [] ↔ ∀ x, x ∈ l → test x = false.
Proof.
  induction l as [|x l IH]; simpl.
  - split; [|reflexivity]. intros _ x Hin. now apply not_elem_of_nil in Hin.
  - destruct (test x) eqn:Hx.
    + split; [discriminate|]. intros Hall.
      rewrite (Hall x) in Hx by left. discriminate.
    + rewrite IH. split.
      * intros Hall y Hin. apply elem_of_cons in Hin.
        destruct Hin as [->|Hin]; [exact Hx|now apply Hall].
      * intros Hall y Hin. apply Hall. now right.
Qed.

(** X17. [ExportFilterLink] refuses an empty list of peers, which is what
    [CollectFilterLinkChats] gives for a filter without a chat that can be
    shared; otherwise it sends one export request with the filter id, no
    title and the peers in order. A successful reply is applied to the
    store and then added as a link, and the callback gets the added link.
    A failed reply leaves the store alone and hands the callback a link
    with the filter id, no url and no chats: a link that [prepare] accepts,
    in whose box nothing can be selected or changed, and that
    [EditLinkChats] refuses. *)
Theorem ExportFilterLink_outcome (id : FilterId) (peers : list PeerData.t) :
  (peers = [] → send id peers = Fatal (ExpectsFailed "!peers.empty()"))
  ∧ (peers ≠ [] →
     send id peers
     = Ok {| community := id; title := []; ExportFilterLink.peers := peers |})
  ∧ (∀ f, CollectFilterLinkChats f = Ok peers →
       (peers = [] ↔ ∀ h, h ∈ ChatFilter.always f → sharable h = false))
  ∧ (∀ vfilter vinvite,
       on_reply id (Done vfilter vinvite)
       = ([Apply id vfilter; Add id vinvite], add id vinvite))
  ∧ fst (on_reply id Fail) = []
  ∧ InviteLinkData.id (snd (on_reply id Fail)) = id
  ∧ InviteLinkData.url (snd (on_reply id Fail)) = []
  ∧ InviteLinkData.chats (snd (on_reply id Fail)) = []
  ∧ (∀ f d flt,
       prepare (new f (snd (on_reply id Fail))) d = Fatal flt →
       flt = UnexpectedValue "Peer type in ErrorForSharing.")
  ∧ (∀ f s clicks,
       prepare (new f (snd (on_reply id Fail))) empty = Ok s →
       _hasChanges (fst (rowsClicked s clicks)) = false
       ∧ _selected (fst (rowsClicked s clicks)) = ∅)
  ∧ (∀ chosen, is_Ok (EditLinkChats (snd (on_reply id Fail)) chosen) = false).
Proof.
  split; [|split; [|split; [|split; [|split; [|split; [|split; [|split;
    [|split; [|split]]]]]]]]]; try reflexivity.
  - intros ->. reflexivity.
  - intros Hne. unfold send, Expects.
    rewrite (bool_decide_eq_false_2 _ Hne). reflexivity.
  - intros f Hcollect. unfold CollectFilterLinkChats in Hcollect.
    destruct (CollectChats_inv _ _ Hcollect) as [-> _].
    rewrite <- filter_none. split.
    + intros Hnil. now apply fmap_nil_inv in Hnil.
    + intros ->. reflexivity.
  - intros f d flt. unfold prepare. simpl.
    destruct (prepare_filter_chats _ _) as [[c' d']|flt'] eqn:E; simpl;
      [discriminate|].
    intros [= <-]. eapply prepare_filter_chats_fault. exact E.
  - intros f s clicks Hprep.
    destruct (draft_never_changes f (snd (on_reply id Fail)) s clicks
                eq_refl Hprep) as [Hsame Hno].
    split; [exact Hno|]. rewrite Hsame.
    destruct s as [c d].
    destruct (prepare_prepared _ _ _ _ Hprep) as (Hi & Hs & _).
    simpl in *. rewrite Hs, Hi. set_solver.
  - intros chosen. unfold EditLinkChats, Expects. simpl.
    destruct (negb (bool_decide (chosen = ∅))); simpl; [|reflexivity].
    destruct (negb (id =? 0)); reflexivity.
Qed.

End ExportLink.

Lemma ExportFilterLink_outcome_witness :
  ExportFilterLink.send 2 [] = Fatal (ExpectsFailed "!peers.empty()").
Proof.
  apply (proj1 (@ExportFilterLink_outcome Sample.lang Sample.store 2 [])).
  reflexivity.
Defined.

(** ** When the box offers Save *)

Section SaveOffered.
Context `{lang : Lang}.
Import PeerListDelegate LinkController Prepared.

Lemma same_peer_at (l l' : list PeerListRow.t) (i : nat)
    (row' : PeerListRow.t) :
  PeerListRow.peer <$> l' = PeerListRow.peer <$> l →
  l' !! i = Some row' →
  ∃ row, l !! i = Some row ∧ PeerListRow.peer row = PeerListRow.peer row'.
Proof.
  intros Hsame Hrow'.
  assert (Hl : (PeerListRow.peer <$> l) !! i = Some (PeerListRow.peer row'))
    by (rewrite <- Hsame, list_lookup_fmap, Hrow'; reflexivity).
  rewrite list_lookup_fmap in Hl.
  destruct (l !! i) as [row|]; [|discriminate].
  injection Hl as Hp. eauto.
Qed.

Lemma same_mark_at (l l' : list PeerListRow.t) (i : nat)
    (row row' : PeerListRow.t) :
  PeerListRow.checked <$> l' = PeerListRow.checked <$> l →
  l !! i = Some row → l' !! i = Some row' →
  PeerListRow.checked row' = PeerListRow.checked row.
Proof.
  intros Hsame Hrow Hrow'.
  assert (Hl : (PeerListRow.checked <$> l') !! i
               = (PeerListRow.checked <$> l) !! i) by now rewrite Hsame.
  rewrite !list_lookup_fmap, Hrow, Hrow' in Hl. now injection Hl.
Qed.

(** X18. When the chats of the link have distinct peer ids, the box has
    changes exactly when some row carries another check mark than it got
    from [prepare]: Save and Cancel are offered for that, and only for
    that. *)
Theorem changes_are_marks (f : ChatFilter.t) (data : InviteLinkData.t)
    (s : LinkController.t * Delegate) (clicks : list nat) :
  NoDup (peer_id <$> InviteLinkData.chats data) →
  prepare (new f data) empty = Ok s →
  (_hasChanges (fst (rowsClicked s clicks)) = false
   ↔ PeerListRow.checked <$> rows (snd (rowsClicked s clicks))
     = PeerListRow.checked <$> rows (snd s)).
Proof.
  intros Hnd Hprep.
  destruct (prepare_invariants f data s Hprep) as (Hk & Ha & Hm).
  pose proof (prepared_selection_shown f data s Hprep) as Hs.
  destruct (prepare_shape f data s Hprep)
    as (_ & _ & _ & _ & Hd & _ & _ & Hs0 & Hh0).
  destruct (rowsClicked_keeps clicks s Hk Ha Hs)
    as (Hk' & _ & Hs' & _ & _ & _ & Hpeers).
  destruct (rowsClicked_sync clicks s Hk Ha Hs (Hd Hnd) Hm) as (Hm' & _).
  destruct (rowsClicked_tracked clicks s) as [Htr Hinit].
  { unfold changes_tracked. rewrite Hh0, Hs0.
    symmetry. apply bool_decide_eq_false_2. auto. }
  unfold changes_tracked in Htr. rewrite Htr, bool_decide_eq_false.
  rewrite Hinit, <- Hs0.
  set (s' := rowsClicked s clicks) in *.
  split.
  - intros Hsame.
    assert (Heq : _selected (fst s') = _selected (fst s)).
    { destruct (decide (_selected (fst s') = _selected (fst s)))
        as [?|Hne]; [assumption|]. exfalso. apply Hsame. congruence. }
    apply list_eq. intros i. rewrite !list_lookup_fmap.
    destruct (rows (snd s') !! i) as [row'|] eqn:Hrow'.
    + destruct (same_peer_at _ _ i row' Hpeers Hrow') as (row & Hrow & Hp).
      rewrite Hrow. simpl. f_equal.
      assert (Hin' : row' ∈ rows (snd s'))
        by (apply list_elem_of_lookup; eauto).
      assert (Hin : row ∈ rows (snd s))
        by (apply list_elem_of_lookup; eauto).
      destruct (Hk' row' Hin') as (p & Hp' & _).
      rewrite Hp' in Hp.
      pose proof (Hm' row' p Hin' Hp') as M'.
      pose proof (Hm row p Hin Hp) as M. rewrite Heq in M'.
      destruct (PeerListRow.checked row'), (PeerListRow.checked row);
        try reflexivity; exfalso.
      * assert (false = true) by (apply M, M'; reflexivity). discriminate.
      * assert (false = true) by (apply M', M; reflexivity). discriminate.
    + assert (Hlen : length (rows (snd s')) = length (rows (snd s))).
      { rewrite <- (length_fmap PeerListRow.peer (rows (snd s'))), Hpeers.
        apply length_fmap. }
      apply lookup_ge_None_1 in Hrow'.
      rewrite (lookup_ge_None_2 (rows (snd s)) i) by lia. reflexivity.
  - intros Hmarks Hne. apply Hne. symmetry. apply set_eq. intros p. split.
    + intros Hp. destruct (Hs' p Hp) as (row' & Hin' & Hp').
      pose proof (proj2 (Hm' row' p Hin' Hp') Hp) as Hch.
      apply list_elem_of_lookup in Hin'. destruct Hin' as [i Hrow'].
      destruct (same_peer_at _ _ i row' Hpeers Hrow') as (row & Hrow & Hpr).
      assert (Hin : row ∈ rows (snd s))
        by (apply list_elem_of_lookup; eauto).
      rewrite Hp' in Hpr.
      apply (Hm row p Hin Hpr).
      now rewrite <- (same_mark_at _ _ i row row' Hmarks Hrow Hrow').
    + intros Hp. destruct (Hs p Hp) as (row & Hin & Hpr).
      pose proof (proj2 (Hm row p Hin Hpr) Hp) as Hch.
      apply list_elem_of_lookup in Hin. destruct Hin as [i Hrow].
      destruct (same_peer_at _ _ i row (eq_sym Hpeers) Hrow)
        as (row' & Hrow' & Hpr').
      assert (Hin' : row' ∈ rows (snd s'))
        by (apply list_elem_of_lookup; eauto).
      rewrite Hpr in Hpr'.
      apply (Hm' row' p Hin' Hpr').
      now rewrite (same_mark_at _ _ i row row' Hmarks Hrow Hrow').
Qed.

End SaveOffered.

Lemma changes_are_marks_witness :
  LinkController._hasChanges
    (fst (LinkController.rowsClicked Sample.shared_state [2; 1; 2]%nat))
  = false
  ↔ PeerListRow.checked
      <$> PeerListDelegate.rows
            (snd (LinkController.rowsClicked Sample.shared_state
                    [2; 1; 2]%nat))
    = PeerListRow.checked
        <$> PeerListDelegate.rows (snd Sample.shared_state).
Proof.
  exact (@changes_are_marks Sample.lang Sample.work_filter
           Sample.shared_link Sample.shared_state [2; 1; 2]%nat
           sample_chats_distinct sample_prepared).
Defined.
